(** * fantasy_league: squad, lineup, fitness and development engines

    A shallow embedding of the Go packages [domain/player] and
    [domain/team] of devvspaces/fantasy_league, and the properties of
    their natural-language specification checked against it.

    Conventions of the embedding:
    - Go [int] is a 64-bit two's-complement integer: a [Z] with the
      wrap-around of each addition written out ([Int.add], [Int.sub]).
    - Go [float64] is IEEE 754 binary64 with round-to-nearest-even: the
      Standard Library's [spec_float] at precision 53 and maximal exponent
      1024, whose operations are executable.  No multiply-add is fused.
    - [Position], [Status], [Formation], [PlayerID], [TrainingType] are Go
      string types and stay strings; the named constants are definitions.
    - [time.Now()] is an explicit argument [now] of every function that
      reads the clock through [Player.Age].
    - [*rand.Rand] is an interface ([RandSource]) whose state is threaded
      through the development engine.
    - [sort.Slice] is an argument with the contract its documentation
      gives (a sorted permutation, no stability).
    - the iteration order of a Go map is an explicit argument. *)

From Stdlib Require Import ZArith Lia SpecFloat Sorting.Mergesort Orders Permutation Sorted.
From stdpp Require Import base strings list gmap pretty.

Local Open Scope Z_scope.

(** ** Go [int] *)

Module Int.
Definition min_int : Z := - 2 ^ 63.
Definition max_int : Z := 2 ^ 63 - 1.

(** Two's-complement wrap-around of a 64-bit signed integer. *)
Definition wrap (z : Z) : Z := (z + 2 ^ 63) mod 2 ^ 64 - 2 ^ 63.

Definition add (a b : Z) : Z := wrap (a + b).
Definition sub (a b : Z) : Z := wrap (a - b).

Lemma wrap_small z : min_int <= z <= max_int -> wrap z = z.
Proof.
  unfold wrap, min_int, max_int. intros H.
  rewrite Z.mod_small by lia. lia.
Qed.

Lemma add_small a b : min_int <= a + b <= max_int -> add a b = a + b.
Proof. apply wrap_small. Qed.

Lemma sub_small a b : min_int <= a - b <= max_int -> sub a b = a - b.
Proof. apply wrap_small. Qed.
End Int.

(** ** Go [float64] and the functions of package [math] the code uses *)

Module F64.
Definition prec : Z := 53.
Definition emax : Z := 1024.

Definition float64 : Type := spec_float.

(** [float64(z)] for an integer [z]: the nearest binary64 value. *)
Definition of_int (z : Z) : float64 := binary_normalize prec emax z 0 false.

Definition add : float64 -> float64 -> float64 := SFadd prec emax.
Definition sub : float64 -> float64 -> float64 := SFsub prec emax.
Definition mul : float64 -> float64 -> float64 := SFmul prec emax.
Definition div : float64 -> float64 -> float64 := SFdiv prec emax.
Definition ltb : float64 -> float64 -> bool := SFltb.
Definition leb : float64 -> float64 -> bool := SFleb.
Definition eqb : float64 -> float64 -> bool := SFeqb.

(** A decimal constant of the source, [n/d] rounded to the nearest
    binary64 value, as the Go compiler converts an untyped constant. *)
Definition lit (n d : Z) : float64 := div (of_int n) (of_int d).

Definition zero : float64 := S754_zero false.
Definition NaN : float64 := S754_nan.

Definition IsNaN (x : float64) : bool :=
  match x with S754_nan => true | _ => false end.

(** [math.IsInf(x, sign)]: [neg = false] asks for +Inf, [true] for -Inf. *)
Definition IsInf (x : float64) (neg : bool) : bool :=
  match x with S754_infinity s => Bool.eqb s neg | _ => false end.

Definition Signbit (x : float64) : bool :=
  match x with
  | S754_zero s | S754_infinity s | S754_finite s _ _ => s
  | S754_nan => false
  end.

(** [math.Max] with its special cases, as in Go's package [math]. *)
Definition Max (x y : float64) : float64 :=
  if IsInf x false || IsInf y false then S754_infinity false
  else if IsNaN x || IsNaN y then NaN
  else if eqb x zero && eqb x y then (if Signbit x then y else x)
  else if ltb y x then x
  else y.

(** [math.Min] with its special cases. *)
Definition Min (x y : float64) : float64 :=
  if IsInf x true || IsInf y true then S754_infinity true
  else if IsNaN x || IsNaN y then NaN
  else if eqb x zero && eqb x y then (if Signbit x then x else y)
  else if ltb x y then x
  else y.

(** [int(x)]: truncation toward zero.  Outside the range of [int]
    (and for NaN and the infinities) the Go specification leaves the
    result to the implementation; amd64 yields the minimal integer. *)
Definition to_int (x : float64) : Z :=
  match x with
  | S754_zero _ => 0
  | S754_finite s m e =>
      let mag := Z.shiftl (Z.pos m) e in
      let v := if s then - mag else mag in
      if (Int.min_int <=? v) && (v <=? Int.max_int) then v else Int.min_int
  | S754_infinity _ | S754_nan => Int.min_int
  end.

(** The exact value of a finite float as a fraction [num / 2^k]. *)
Definition exact (x : float64) : option (Z * Z) :=
  match x with
  | S754_zero _ => Some (0, 1)
  | S754_finite s m e =>
      let n := if s then Z.neg m else Z.pos m in
      if 0 <=? e then Some (n * 2 ^ e, 1) else Some (n, 2 ^ (- e))
  | _ => None
  end.
End F64.

Abbreviation float64 := F64.float64.

Declare Scope f64_scope.
Delimit Scope f64_scope with f64.
Bind Scope f64_scope with F64.float64.
Infix "+" := F64.add : f64_scope.
Infix "-" := F64.sub : f64_scope.
Infix "*" := F64.mul : f64_scope.
Infix "/" := F64.div : f64_scope.
Infix "<?" := F64.ltb : f64_scope.
Infix "<=?" := F64.leb : f64_scope.

Global Arguments F64.add : simpl never.
Global Arguments F64.sub : simpl never.
Global Arguments F64.mul : simpl never.
Global Arguments F64.div : simpl never.
Global Arguments F64.of_int : simpl never.
Global Arguments F64.lit : simpl never.
Global Arguments F64.to_int : simpl never.
Global Arguments F64.ltb : simpl never.
Global Arguments F64.leb : simpl never.
Global Arguments F64.Max : simpl never.
Global Arguments F64.Min : simpl never.

(** ** domain/player/attributes.go *)

Record Attributes := mkAttributes {
  Quality : Z;
  Keeping : Z;
  Tackling : Z;
  Passing : Z;
  Shooting : Z;
  Heading : Z;
  Speed : Z;
  Stamina : Z;
  Perception : Z;
  BallControl : Z;
  Consistency : Z;
  ImportantMatches : Z;
  Potential : Z;
  Ambition : Z;
  Professionalism : Z
}.

Definition GetGoalkeeperRating (a : Attributes) : Z :=
  F64.to_int
    (F64.of_int (Keeping a) * F64.lit 5 10 +
     F64.of_int (Speed a) * F64.lit 1 10 +
     F64.of_int (Perception a) * F64.lit 2 10 +
     F64.of_int (Stamina a) * F64.lit 1 10 +
     F64.of_int (Passing a) * F64.lit 1 10)%f64.

Definition GetDefenderRating (a : Attributes) : Z :=
  F64.to_int
    (F64.of_int (Tackling a) * F64.lit 3 10 +
     F64.of_int (Heading a) * F64.lit 2 10 +
     F64.of_int (Speed a) * F64.lit 15 100 +
     F64.of_int (Stamina a) * F64.lit 15 100 +
     F64.of_int (Passing a) * F64.lit 1 10 +
     F64.of_int (Perception a) * F64.lit 1 10)%f64.

Definition GetMidfielderRating (a : Attributes) : Z :=
  F64.to_int
    (F64.of_int (Passing a) * F64.lit 25 100 +
     F64.of_int (BallControl a) * F64.lit 2 10 +
     F64.of_int (Perception a) * F64.lit 15 100 +
     F64.of_int (Stamina a) * F64.lit 15 100 +
     F64.of_int (Tackling a) * F64.lit 15 100 +
     F64.of_int (Shooting a) * F64.lit 1 10)%f64.

Definition GetForwardRating (a : Attributes) : Z :=
  F64.to_int
    (F64.of_int (Shooting a) * F64.lit 3 10 +
     F64.of_int (BallControl a) * F64.lit 2 10 +
     F64.of_int (Speed a) * F64.lit 2 10 +
     F64.of_int (Heading a) * F64.lit 15 100 +
     F64.of_int (Perception a) * F64.lit 15 100)%f64.

(** ** domain/player/player.go *)

Definition PlayerID : Type := string.
Definition Position : Type := string.
Definition Status : Type := string.

Definition PositionGK : Position := "GK".
Definition PositionDEF : Position := "DEF".
Definition PositionMID : Position := "MID".
Definition PositionFWD : Position := "FWD".

Definition StatusAvailable : Status := "available".
Definition StatusInjured : Status := "injured".
Definition StatusSuspended : Status := "suspended".
Definition StatusOnLoan : Status := "on_loan".
Definition StatusRetired : Status := "retired".

(** What the code reads of a [time.Time]: [Year()] and [YearDay()]. *)
Record Time := mkTime { Year : Z; YearDay : Z }.

Record CareerStats := mkCareerStats {
  TotalMatches : Z;
  TotalGoals : Z;
  TotalAssists : Z;
  TotalYellowCards : Z;
  TotalRedCards : Z;
  TotalCleanSheets : Z
}.

Record Player := mkPlayer {
  ID : PlayerID;
  FirstName : string;
  LastName : string;
  Nickname : string;
  DateOfBirth : Time;
  PlayerPosition : Position;
  MarketValue : Z;
  Wage : Z;
  PlayerStatus : Status;
  Fitness : float64;
  Morale : float64;
  Form : float64;
  PlayerAttributes : Attributes;
  PlayerCareerStats : CareerStats
}.

Definition Age (now : Time) (p : Player) : Z :=
  let years := Int.sub (Year now) (Year (DateOfBirth p)) in
  if YearDay now <? YearDay (DateOfBirth p) then Int.sub years 1 else years.

Definition FullName (p : Player) : string :=
  if negb (String.eqb (Nickname p) "") then Nickname p
  else FirstName p +:+ " " +:+ LastName p.

Definition IsAvailable (p : Player) : bool :=
  String.eqb (PlayerStatus p) StatusAvailable && (F64.of_int 70 <=? Fitness p)%f64.

Definition CanPlayPosition (p : Player) (pos : Position) : bool :=
  if String.eqb (PlayerPosition p) pos then true
  else if String.eqb (PlayerPosition p) PositionDEF then
    String.eqb pos PositionDEF
    || (String.eqb pos PositionMID && (60 <? Passing (PlayerAttributes p)))
  else if String.eqb (PlayerPosition p) PositionMID then
    String.eqb pos PositionMID || String.eqb pos PositionDEF || String.eqb pos PositionFWD
  else if String.eqb (PlayerPosition p) PositionFWD then
    String.eqb pos PositionFWD
    || (String.eqb pos PositionMID && (60 <? Passing (PlayerAttributes p)))
  else false.

Definition GetOverallRating (p : Player) : Z :=
  if String.eqb (PlayerPosition p) PositionGK then GetGoalkeeperRating (PlayerAttributes p)
  else if String.eqb (PlayerPosition p) PositionDEF then GetDefenderRating (PlayerAttributes p)
  else if String.eqb (PlayerPosition p) PositionMID then GetMidfielderRating (PlayerAttributes p)
  else if String.eqb (PlayerPosition p) PositionFWD then GetForwardRating (PlayerAttributes p)
  else Quality (PlayerAttributes p).

(** Field updates of the structs (Go assigns through the pointer). *)

Definition set_Fitness (p : Player) (v : float64) : Player :=
  mkPlayer (ID p) (FirstName p) (LastName p) (Nickname p) (DateOfBirth p)
    (PlayerPosition p) (MarketValue p) (Wage p) (PlayerStatus p)
    v (Morale p) (Form p) (PlayerAttributes p) (PlayerCareerStats p).

Definition set_Attributes (p : Player) (a : Attributes) : Player :=
  mkPlayer (ID p) (FirstName p) (LastName p) (Nickname p) (DateOfBirth p)
    (PlayerPosition p) (MarketValue p) (Wage p) (PlayerStatus p)
    (Fitness p) (Morale p) (Form p) a (PlayerCareerStats p).

Definition set_Quality (a : Attributes) (v : Z) : Attributes :=
  mkAttributes v (Keeping a) (Tackling a) (Passing a) (Shooting a) (Heading a)
    (Speed a) (Stamina a) (Perception a) (BallControl a) (Consistency a)
    (ImportantMatches a) (Potential a) (Ambition a) (Professionalism a).

Definition set_Keeping (a : Attributes) (v : Z) : Attributes :=
  mkAttributes (Quality a) v (Tackling a) (Passing a) (Shooting a) (Heading a)
    (Speed a) (Stamina a) (Perception a) (BallControl a) (Consistency a)
    (ImportantMatches a) (Potential a) (Ambition a) (Professionalism a).

Definition set_Tackling (a : Attributes) (v : Z) : Attributes :=
  mkAttributes (Quality a) (Keeping a) v (Passing a) (Shooting a) (Heading a)
    (Speed a) (Stamina a) (Perception a) (BallControl a) (Consistency a)
    (ImportantMatches a) (Potential a) (Ambition a) (Professionalism a).

Definition set_Passing (a : Attributes) (v : Z) : Attributes :=
  mkAttributes (Quality a) (Keeping a) (Tackling a) v (Shooting a) (Heading a)
    (Speed a) (Stamina a) (Perception a) (BallControl a) (Consistency a)
    (ImportantMatches a) (Potential a) (Ambition a) (Professionalism a).

Definition set_Shooting (a : Attributes) (v : Z) : Attributes :=
  mkAttributes (Quality a) (Keeping a) (Tackling a) (Passing a) v (Heading a)
    (Speed a) (Stamina a) (Perception a) (BallControl a) (Consistency a)
    (ImportantMatches a) (Potential a) (Ambition a) (Professionalism a).

Definition set_Heading (a : Attributes) (v : Z) : Attributes :=
  mkAttributes (Quality a) (Keeping a) (Tackling a) (Passing a) (Shooting a) v
    (Speed a) (Stamina a) (Perception a) (BallControl a) (Consistency a)
    (ImportantMatches a) (Potential a) (Ambition a) (Professionalism a).

Definition set_Speed (a : Attributes) (v : Z) : Attributes :=
  mkAttributes (Quality a) (Keeping a) (Tackling a) (Passing a) (Shooting a) (Heading a)
    v (Stamina a) (Perception a) (BallControl a) (Consistency a)
    (ImportantMatches a) (Potential a) (Ambition a) (Professionalism a).

Definition set_Stamina (a : Attributes) (v : Z) : Attributes :=
  mkAttributes (Quality a) (Keeping a) (Tackling a) (Passing a) (Shooting a) (Heading a)
    (Speed a) v (Perception a) (BallControl a) (Consistency a)
    (ImportantMatches a) (Potential a) (Ambition a) (Professionalism a).

Definition set_Perception (a : Attributes) (v : Z) : Attributes :=
  mkAttributes (Quality a) (Keeping a) (Tackling a) (Passing a) (Shooting a) (Heading a)
    (Speed a) (Stamina a) v (BallControl a) (Consistency a)
    (ImportantMatches a) (Potential a) (Ambition a) (Professionalism a).

Definition set_BallControl (a : Attributes) (v : Z) : Attributes :=
  mkAttributes (Quality a) (Keeping a) (Tackling a) (Passing a) (Shooting a) (Heading a)
    (Speed a) (Stamina a) (Perception a) v (Consistency a)
    (ImportantMatches a) (Potential a) (Ambition a) (Professionalism a).

(** ** domain/player/fitness.go *)

Record FitnessManager := mkFitnessManager {
  fatigueRate : float64;
  recoveryRate : float64;
  injuryThreshold : float64
}.

Definition NewFitnessManager : FitnessManager :=
  mkFitnessManager (F64.lit 15 100) (F64.of_int 10) (F64.of_int 40).

Definition CalculateMatchFatigue (fm : FitnessManager) (now : Time)
    (player : Player) (minutesPlayed : Z) (matchIntensity : float64) : float64 :=
  if minutesPlayed =? 0 then F64.zero
  else
    let fatigue := (F64.of_int minutesPlayed * fatigueRate fm)%f64 in
    let fatigue := (fatigue * matchIntensity)%f64 in
    let staminaMod :=
      (F64.lit 15 10 - F64.of_int (Stamina (PlayerAttributes player)) / F64.of_int 100)%f64 in
    let fatigue := (fatigue * staminaMod)%f64 in
    let age := Age now player in
    let fatigue :=
      if 30 <? age
      then (fatigue * (F64.of_int 1 + F64.of_int (Int.sub age 30) * F64.lit 5 100))%f64
      else fatigue in
    let fatigue :=
      if String.eqb (PlayerPosition player) PositionGK then (fatigue * F64.lit 6 10)%f64
      else if String.eqb (PlayerPosition player) PositionDEF then (fatigue * F64.lit 85 100)%f64
      else if String.eqb (PlayerPosition player) PositionMID then (fatigue * F64.lit 115 100)%f64
      else if String.eqb (PlayerPosition player) PositionFWD then (fatigue * F64.of_int 1)%f64
      else fatigue in
    F64.Min fatigue (F64.of_int 60).

Definition CalculateDailyRecovery (fm : FitnessManager) (now : Time)
    (player : Player) (trainingIntensity : float64) : float64 :=
  let recovery := recoveryRate fm in
  let recovery :=
    (recovery + F64.of_int (Stamina (PlayerAttributes player)) / F64.of_int 20)%f64 in
  let age := Age now player in
  let recovery :=
    if age <? 23 then (recovery * F64.lit 12 10)%f64
    else if 30 <? age
    then (recovery * (F64.lit 9 10 - F64.of_int (Int.sub age 30) * F64.lit 2 100))%f64
    else recovery in
  let recovery := (recovery * (F64.of_int 2 - trainingIntensity))%f64 in
  (recovery *
   (F64.of_int 1 + F64.of_int (Professionalism (PlayerAttributes player)) / F64.of_int 200))%f64.

Definition CalculateInjuryRisk (fm : FitnessManager) (now : Time) (player : Player) : float64 :=
  let risk := F64.zero in
  let risk :=
    if (Fitness player <? injuryThreshold fm)%f64
    then (risk + (injuryThreshold fm - Fitness player) / F64.of_int 100)%f64
    else risk in
  let age := Age now player in
  let risk :=
    if 30 <? age then (risk + F64.of_int (Int.sub age 30) * F64.lit 1 100)%f64 else risk in
  F64.Min risk (F64.lit 5 10).

Definition ApplyMatchFitness (fm : FitnessManager) (now : Time)
    (player : Player) (minutesPlayed : Z) (intensity : float64) : Player :=
  let fatigue := CalculateMatchFatigue fm now player minutesPlayed intensity in
  set_Fitness player (F64.Max F64.zero (Fitness player - fatigue)%f64).

Definition ApplyDailyRecovery (fm : FitnessManager) (now : Time)
    (player : Player) (trainingIntensity : float64) : Player :=
  let recovery := CalculateDailyRecovery fm now player trainingIntensity in
  set_Fitness player (F64.Min (F64.of_int 100) (Fitness player + recovery)%f64).

(** ** math/rand

    The generator behind [*rand.Rand]: its state, the constructor
    [rand.New(rand.NewSource(seed))] and the two methods the engine
    calls.  [Intn n] returns a value of [[0, n)] for positive [n]. *)

Class RandSource := {
  rng : Type;
  NewSource : Z -> rng;
  Float64 : rng -> float64 * rng;
  Intn : Z -> rng -> Z * rng;
  Intn_range : forall n s, 0 < n -> 0 <= fst (Intn n s) < n
}.

(** ** domain/player/development.go *)

Definition TrainingType : Type := string.
Definition TrainingGeneral : TrainingType := "general".
Definition TrainingTechnical : TrainingType := "technical".
Definition TrainingPhysical : TrainingType := "physical".
Definition TrainingTactical : TrainingType := "tactical".
Definition TrainingSetPieces : TrainingType := "set_pieces".

Record TrainingResult := mkTrainingResult {
  AttributeChanges : gmap string Z;
  FitnessChange : float64;
  MoraleChange : float64
}.

Definition set_AttributeChange (r : TrainingResult) (attr : string) (v : Z) : TrainingResult :=
  mkTrainingResult (<[attr := v]> (AttributeChanges r)) (FitnessChange r) (MoraleChange r).

Definition getAttributeValue (player : Player) (attribute : string) : Z :=
  let a := PlayerAttributes player in
  if String.eqb attribute "Keeping" then Keeping a
  else if String.eqb attribute "Tackling" then Tackling a
  else if String.eqb attribute "Passing" then Passing a
  else if String.eqb attribute "Shooting" then Shooting a
  else if String.eqb attribute "Heading" then Heading a
  else if String.eqb attribute "Speed" then Speed a
  else if String.eqb attribute "Stamina" then Stamina a
  else if String.eqb attribute "Perception" then Perception a
  else if String.eqb attribute "BallControl" then BallControl a
  else 50.

(** [int(math.Min(math.Max(float64(v), 0), 100))] *)
Definition clamp0_100 (v : Z) : Z :=
  F64.to_int (F64.Min (F64.Max (F64.of_int v) F64.zero) (F64.of_int 100)).

Definition applyAttributeChange (player : Player) (attribute : string) (change : Z) : Player :=
  let a := PlayerAttributes player in
  if String.eqb attribute "Keeping" then
    set_Attributes player (set_Keeping a (clamp0_100 (Int.add (Keeping a) change)))
  else if String.eqb attribute "Tackling" then
    set_Attributes player (set_Tackling a (clamp0_100 (Int.add (Tackling a) change)))
  else if String.eqb attribute "Passing" then
    set_Attributes player (set_Passing a (clamp0_100 (Int.add (Passing a) change)))
  else if String.eqb attribute "Shooting" then
    set_Attributes player (set_Shooting a (clamp0_100 (Int.add (Shooting a) change)))
  else if String.eqb attribute "Heading" then
    set_Attributes player (set_Heading a (clamp0_100 (Int.add (Heading a) change)))
  else if String.eqb attribute "Speed" then
    set_Attributes player (set_Speed a (clamp0_100 (Int.add (Speed a) change)))
  else if String.eqb attribute "Stamina" then
    set_Attributes player (set_Stamina a (clamp0_100 (Int.add (Stamina a) change)))
  else if String.eqb attribute "Perception" then
    set_Attributes player (set_Perception a (clamp0_100 (Int.add (Perception a) change)))
  else if String.eqb attribute "BallControl" then
    set_Attributes player (set_BallControl a (clamp0_100 (Int.add (BallControl a) change)))
  else player.

Definition calculateImprovementChance (now : Time) (player : Player) : float64 :=
  let age := Age now player in
  let baseChance :=
    if age <? 21 then F64.lit 8 10
    else if age <? 25 then F64.lit 6 10
    else if age <? 28 then F64.lit 4 10
    else if age <? 32 then F64.lit 2 10
    else F64.lit 5 100 in
  let potentialMod :=
    (F64.of_int (Potential (PlayerAttributes player)) / F64.of_int 100)%f64 in
  let baseChance := (baseChance * potentialMod)%f64 in
  let profMod :=
    (F64.of_int (Professionalism (PlayerAttributes player)) / F64.of_int 100)%f64 in
  let baseChance := (baseChance * (F64.lit 5 10 + F64.lit 5 10 * profMod))%f64 in
  let moraleMod := (Morale player / F64.of_int 100)%f64 in
  (baseChance * (F64.lit 8 10 + F64.lit 2 10 * moraleMod))%f64.

Section Development.
Context {RS : RandSource}.

(** Computations that draw from the manager's generator [dm.rand]. *)
Definition Draw (A : Type) : Type := rng -> A * rng.

Definition ret {A : Type} (a : A) : Draw A := fun s => (a, s).

Definition bind {A B : Type} (m : Draw A) (k : A -> Draw B) : Draw B :=
  fun s => let (a, s') := m s in k a s'.

Notation "'let*' x ':=' m 'in' k" := (bind m (fun x => k))
  (at level 10, x name, m at level 100, k at level 200).

(** A [for _, attr := range attrs] loop whose body returns the updated
    player and result. *)
Fixpoint forAttrs {S : Type} (body : string -> S -> Draw S) (attrs : list string) (st : S)
    : Draw S :=
  match attrs with
  | [] => ret st
  | attr :: rest => let* st' := body attr st in forAttrs body rest st'
  end.

Definition calculateImprovement (player : Player) (attribute : string) : Draw Z :=
  let current := getAttributeValue player attribute in
  if 95 <=? current then ret 0
  else if 90 <=? current then
    let* u := Float64 in
    if (u <? F64.lit 1 10)%f64 then ret 1 else ret 0
  else if 80 <=? current then
    let* u := Float64 in
    if (u <? F64.lit 3 10)%f64 then ret 1 else ret 0
  else
    let* k := Intn 2 in
    ret (Int.add 1 k).

(** The body shared by the training loops:
    [if dm.rand.Float64() < threshold { improvement := ...; if improvement > 0 { ... } }] *)
Definition improveAttribute (threshold : float64) (attr : string)
    (st : Player * TrainingResult) : Draw (Player * TrainingResult) :=
  let (player, result) := st in
  let* u := Float64 in
  if (u <? threshold)%f64 then
    let* improvement := calculateImprovement player attr in
    if 0 <? improvement then
      ret (applyAttributeChange player attr improvement,
           set_AttributeChange result attr improvement)
    else ret (player, result)
  else ret (player, result).

Definition trainTechnical (player : Player) (chance : float64) (result : TrainingResult)
    : Draw (Player * TrainingResult) :=
  forAttrs (improveAttribute chance) ["Passing"; "BallControl"; "Shooting"] (player, result).

Definition trainPhysical (player : Player) (chance : float64) (result : TrainingResult)
    : Draw (Player * TrainingResult) :=
  forAttrs (improveAttribute (chance * F64.lit 8 10)%f64)
    ["Speed"; "Stamina"; "Heading"] (player, result).

Definition trainTactical (player : Player) (chance : float64) (result : TrainingResult)
    : Draw (Player * TrainingResult) :=
  forAttrs (improveAttribute chance) ["Perception"; "Tackling"] (player, result).

Definition trainSetPieces (player : Player) (chance : float64) (result : TrainingResult)
    : Draw (Player * TrainingResult) :=
  if String.eqb (PlayerPosition player) PositionGK then
    let* u := Float64 in
    if (u <? chance)%f64 then
      let* improvement := calculateImprovement player "Keeping" in
      if 0 <? improvement then
        let a := PlayerAttributes player in
        ret (set_Attributes player (set_Keeping a (Int.add (Keeping a) improvement)),
             set_AttributeChange result "Keeping" improvement)
      else ret (player, result)
    else ret (player, result)
  else
    forAttrs (improveAttribute (chance * F64.lit 7 10)%f64)
      ["Heading"; "Shooting"] (player, result).

Definition allAttrs : list string :=
  ["Keeping"; "Tackling"; "Passing"; "Shooting"; "Heading";
   "Speed"; "Stamina"; "Perception"; "BallControl"].

(** The body of the loop of [trainGeneral], run [n] times. *)
Fixpoint trainGeneralLoop (n : nat) (chance : float64) (st : Player * TrainingResult)
    : Draw (Player * TrainingResult) :=
  match n with
  | O => ret st
  | S n' =>
      let* k := Intn (Z.of_nat (length allAttrs)) in
      let attr := nth (Z.to_nat k) allAttrs "" in
      let* st' := improveAttribute (chance * F64.lit 5 10)%f64 attr st in
      trainGeneralLoop n' chance st'
  end.

Definition trainGeneral (player : Player) (chance : float64) (result : TrainingResult)
    : Draw (Player * TrainingResult) :=
  let* k := Intn 2 in
  let numAttrs := Int.add 2 k in
  trainGeneralLoop (Z.to_nat numAttrs) chance (player, result).

Record DevelopmentManager := mkDevelopmentManager { rand : rng }.

Definition NewDevelopmentManager : DevelopmentManager :=
  mkDevelopmentManager (NewSource 42).

Definition ProcessTraining (dm : DevelopmentManager) (now : Time) (player : Player)
    (trainingType : TrainingType) (intensity : float64)
    : TrainingResult * Player * DevelopmentManager :=
  let result := mkTrainingResult ∅ F64.zero F64.zero in
  let improvementChance := calculateImprovementChance now player in
  let train :=
    if String.eqb trainingType TrainingTechnical then trainTechnical
    else if String.eqb trainingType TrainingPhysical then trainPhysical
    else if String.eqb trainingType TrainingTactical then trainTactical
    else if String.eqb trainingType TrainingSetPieces then trainSetPieces
    else trainGeneral in
  let '(player', result, s) := train player improvementChance result (rand dm) in
  let fitnessChange := (F64.of_int (-5) * intensity)%f64 in
  let moraleChange :=
    if (intensity <? F64.lit 7 10)%f64 then F64.of_int 2
    else if (F64.lit 9 10 <? intensity)%f64 then F64.of_int (-3)
    else MoraleChange result in
  (mkTrainingResult (AttributeChanges result) fitnessChange moraleChange,
   player', mkDevelopmentManager s).

(** [int(math.Min(float64(v), 100))] *)
Definition min100 (v : Z) : Z := F64.to_int (F64.Min (F64.of_int v) (F64.of_int 100)).

(** [int(math.Max(float64(v), 30))] *)
Definition max30 (v : Z) : Z := F64.to_int (F64.Max (F64.of_int v) (F64.of_int 30)).

Definition youngPlayerDevelopment (now : Time) (player : Player) : Draw Player :=
  let* player :=
    if Age now player <? 21 then
      let* u := Float64 in
      if (u <? F64.lit 3 10)%f64 then
        let a := PlayerAttributes player in
        let a := set_Speed a (min100 (Int.add (Speed a) 1)) in
        let a := set_Stamina a (min100 (Int.add (Stamina a) 1)) in
        ret (set_Attributes player a)
      else ret player
    else ret player in
  let* u := Float64 in
  if (u <? F64.of_int (Potential (PlayerAttributes player)) / F64.of_int 200)%f64 then
    let attrs := ["Passing"; "BallControl"; "Perception"; "Tackling"] in
    let* k := Intn (Z.of_nat (length attrs)) in
    let attr := nth (Z.to_nat k) attrs "" in
    ret (applyAttributeChange player attr 1)
  else ret player.

Definition veteranDecline (now : Time) (player : Player) : Draw Player :=
  let age := Age now player in
  let declineRate := (F64.of_int (Int.sub age 30) * F64.lit 5 100)%f64 in
  let* u := Float64 in
  let player :=
    if (u <? declineRate)%f64 then
      let a := PlayerAttributes player in
      set_Attributes player (set_Speed a (max30 (Int.sub (Speed a) 1)))
    else player in
  let* u := Float64 in
  let player :=
    if (u <? declineRate * F64.lit 8 10)%f64 then
      let a := PlayerAttributes player in
      set_Attributes player (set_Stamina a (max30 (Int.sub (Stamina a) 1)))
    else player in
  let* u := Float64 in
  let player :=
    if (u <? F64.lit 2 10)%f64 then
      let a := PlayerAttributes player in
      set_Attributes player (set_Perception a (min100 (Int.add (Perception a) 1)))
    else player in
  ret player.

Definition ProcessNaturalDevelopment (dm : DevelopmentManager) (now : Time) (player : Player)
    : Player * DevelopmentManager :=
  let age := Age now player in
  let (player, s) :=
    if age <? 23 then youngPlayerDevelopment now player (rand dm)
    else if 30 <? age then veteranDecline now player (rand dm)
    else (player, rand dm) in
  (set_Attributes player (set_Quality (PlayerAttributes player) (GetOverallRating player)),
   mkDevelopmentManager s).

End Development.

(** ** domain/common/errors.go *)

(** A Go [error] value: a [common.DomainError] (its [Details] are never
    set) or the result of [fmt.Errorf]. *)
Inductive error :=
| DomainError (Code Message : string)
| Errorf (msg : string).

Definition Error (e : error) : string :=
  match e with
  | DomainError code message => "[" +:+ code +:+ "] " +:+ message
  | Errorf msg => msg
  end.

Definition ErrPlayerNotFound : error := DomainError "PLAYER_NOT_FOUND" "Player not found".
Definition ErrInvalidFormation : error := DomainError "INVALID_FORMATION" "Invalid formation".
Definition ErrInsufficientPlayers : error :=
  DomainError "INSUFFICIENT_PLAYERS" "Not enough players for lineup".
Definition ErrPlayerUnavailable : error :=
  DomainError "PLAYER_UNAVAILABLE" "Player is unavailable".

(** How a call ends: it returns a value, or the Go runtime panics. *)
Inductive outcome (A : Type) :=
| Returns (a : A)
| Panics (msg : string).
Global Arguments Returns {A} a.
Global Arguments Panics {A} msg.

(** ** domain/team/formation.go *)

Definition Formation : Type := string.
Definition Formation442 : Formation := "4-4-2".
Definition Formation433 : Formation := "4-3-3".
Definition Formation451 : Formation := "4-5-1".
Definition Formation352 : Formation := "3-5-2".
Definition Formation532 : Formation := "5-3-2".
Definition Formation4231 : Formation := "4-2-3-1".
Definition Formation4312 : Formation := "4-3-1-2".
Definition FormationDefault : Formation := Formation442.

Record Lineup := mkLineup {
  LineupFormation : Formation;
  Starters : list PlayerID;
  Positions : list Position;
  Substitutes : list PlayerID;
  LineupCaptain : PlayerID
}.

Definition mkRequirements (gk def mid fwd : Z) : gmap Position Z :=
  <[PositionGK := gk]> (<[PositionDEF := def]> (<[PositionMID := mid]>
    (<[PositionFWD := fwd]> ∅))).

Definition GetPositionRequirements (f : Formation) : gmap Position Z :=
  if String.eqb f Formation442 then mkRequirements 1 4 4 2
  else if String.eqb f Formation433 then mkRequirements 1 4 3 3
  else if String.eqb f Formation451 then mkRequirements 1 4 5 1
  else if String.eqb f Formation352 then mkRequirements 1 3 5 2
  else if String.eqb f Formation532 then mkRequirements 1 5 3 2
  else if String.eqb f Formation4231 then mkRequirements 1 4 5 1
  else if String.eqb f Formation4312 then mkRequirements 1 4 4 2
  else mkRequirements 1 4 4 2.

Definition IsValid (f : Formation) : bool :=
  String.eqb f Formation442 || String.eqb f Formation433 || String.eqb f Formation451
  || String.eqb f Formation352 || String.eqb f Formation532 || String.eqb f Formation4231
  || String.eqb f Formation4312.

(** ** domain/team/team.go *)

Record Team := mkTeam {
  TeamID : string;
  Name : string;
  Players : list Player;
  Captain : option PlayerID;
  ViceCaptain : option PlayerID;
  TeamFormation : Formation;
  Budget : Z;
  WageBudget : Z
}.

(** [GetPlayer] returns the first roster entry with the identity and a
    nil error, or nil and [ErrPlayerNotFound]. *)
Definition GetPlayer (t : Team) (playerID : PlayerID) : option Player * option error :=
  match List.find (fun p => String.eqb (ID p) playerID) (Players t) with
  | Some p => (Some p, None)
  | None => (None, Some ErrPlayerNotFound)
  end.

Definition GetAvailablePlayers (t : Team) : list Player :=
  List.filter IsAvailable (Players t).

Definition GetPlayersByPosition (t : Team) (pos : Position) : list Player :=
  List.filter (fun p => CanPlayPosition p pos) (Players t).

(** [m[k]] of a Go map of integers: the zero value for a missing key. *)
Definition mapGet (m : gmap string Z) (k : string) : Z := default 0 (m !! k).

(** The first loop of [validateFormationPositions], from index [i] on. *)
Fixpoint checkStarters (t : Team) (positions : list Position) (i : nat)
    (starters : list PlayerID) (positionCount : gmap Position Z)
    : outcome (error + gmap Position Z) :=
  match starters with
  | [] => Returns (inr positionCount)
  | playerID :: rest =>
      let p := fst (GetPlayer t playerID) in
      match positions !! i with
      | None =>
          Panics ("runtime error: index out of range [" +:+ pretty i +:+ "] with length "
                  +:+ pretty (length positions))
      | Some assignedPos =>
          match p with
          | None => Panics "runtime error: invalid memory address or nil pointer dereference"
          | Some p =>
              if negb (CanPlayPosition p assignedPos) then
                Returns (inl (Errorf ("player " +:+ FullName p +:+ " cannot play "
                                      +:+ assignedPos)))
              else
                checkStarters t positions (S i) rest
                  (<[assignedPos := Int.add (mapGet positionCount assignedPos) 1]> positionCount)
          end
      end
  end.

(** The second loop: [for pos, required := range requiredPositions], the
    keys visited in the order [order]. *)
Fixpoint checkRequirements (requiredPositions positionCount : gmap Position Z)
    (order : list Position) : option error :=
  match order with
  | [] => None
  | pos :: rest =>
      match requiredPositions !! pos with
      | None => checkRequirements requiredPositions positionCount rest
      | Some required =>
          if negb (mapGet positionCount pos =? required) then
            Some (Errorf ("formation requires " +:+ pretty required +:+ " " +:+ pos
                          +:+ ", got " +:+ pretty (mapGet positionCount pos)))
          else checkRequirements requiredPositions positionCount rest
      end
  end.

Definition validateFormationPositions (order : list Position) (t : Team) (lineup : Lineup)
    : outcome (option error) :=
  let requiredPositions := GetPositionRequirements (LineupFormation lineup) in
  match checkStarters t (Positions lineup) 0 (Starters lineup) ∅ with
  | Panics msg => Panics msg
  | Returns (inl err) => Returns (Some err)
  | Returns (inr positionCount) =>
      Returns (checkRequirements requiredPositions positionCount order)
  end.

(** The availability loop of [ValidateLineup]. *)
Fixpoint checkAvailable (t : Team) (starters : list PlayerID) : option error :=
  match starters with
  | [] => None
  | playerID :: rest =>
      match GetPlayer t playerID with
      | (_, Some err) => Some err
      | (None, None) => None (* not reached: a nil error comes with a player *)
      | (Some player, None) =>
          if negb (IsAvailable player) then Some ErrPlayerUnavailable
          else checkAvailable t rest
      end
  end.

Definition ValidateLineup (order : list Position) (t : Team) (lineup : Lineup)
    : outcome (option error) :=
  if negb (length (Starters lineup) =? 11)%nat then Returns (Some ErrInsufficientPlayers)
  else
    match checkAvailable t (Starters lineup) with
    | Some err => Returns (Some err)
    | None =>
        if negb (IsValid (LineupFormation lineup)) then Returns (Some ErrInvalidFormation)
        else validateFormationPositions order t lineup
    end.

(** [GetBestEleven]; [order] is the order in which the runtime visits the
    keys of [requirements]. *)
Definition GetBestEleven (order : list Position) (t : Team) : list Player :=
  let available := GetAvailablePlayers t in
  if (length available <? 11)%nat then available
  else
    let requirements := GetPositionRequirements (TeamFormation t) in
    flat_map
      (fun pos =>
         match requirements !! pos with
         | None => []
         | Some count =>
             let candidates := List.filter (fun p => CanPlayPosition p pos) available in
             take (Z.to_nat count) candidates
         end)
      order.

(** ** sort.Slice

    [sort.Slice(x, less)] reorders [x] so that it is sorted by [less];
    its documentation adds that the sort is not guaranteed to be stable.
    The code only sorts in descending order of an integer key, so the
    contract is stated for those comparisons. *)

Class SliceSorter := {
  sortSlice : forall {A : Type}, (A -> A -> bool) -> list A -> list A;
  sortSlice_perm : forall (A : Type) (less : A -> A -> bool) (l : list A),
    Permutation (sortSlice less l) l;
  sortSlice_sorted : forall (A : Type) (key : A -> Z) (l : list A),
    StronglySorted (fun x y => key y <= key x) (sortSlice (fun x y => key y <? key x) l)
}.

(** ** domain/team/squad.go *)

Record SquadManager := mkSquadManager { team : Team }.

Definition NewSquadManager (t : Team) : SquadManager := mkSquadManager t.

Section Squad.
Context {sorter : SliceSorter}.

Definition getBestCandidates (available : list Player) (pos : Position)
    (used : gset PlayerID) : list Player :=
  let candidates :=
    List.filter (fun p => negb (bool_decide (ID p ∈ used)) && CanPlayPosition p pos) available in
  sortSlice (fun x y => GetOverallRating y <? GetOverallRating x) candidates.

(** The body of the inner loop of [RecommendLineup] for one candidate. *)
Definition assignStarter (pos : Position) (st : Lineup * gset PlayerID) (c : Player)
    : Lineup * gset PlayerID :=
  let (lineup, used) := st in
  (mkLineup (LineupFormation lineup) (Starters lineup ++ [ID c]) (Positions lineup ++ [pos])
     (Substitutes lineup) (LineupCaptain lineup),
   {[ID c]} ∪ used).

(** One round of the outer loop: the position [pos] is filled. *)
Definition fillPosition (available : list Player) (requirements : gmap Position Z)
    (st : Lineup * gset PlayerID) (pos : Position) : Lineup * gset PlayerID :=
  let count := mapGet requirements pos in
  let candidates := getBestCandidates available pos (snd st) in
  fold_left (assignStarter pos) (take (Z.to_nat count) candidates) st.

(** The substitutes loop. *)
Definition fillSubstitutes (available : list Player) (used : gset PlayerID) : list PlayerID :=
  fold_left
    (fun subs p =>
       if negb (bool_decide (ID p ∈ used)) && (length subs <? 7)%nat
       then subs ++ [ID p] else subs)
    available [].

(** The second loop of [selectCaptain]: the starter of highest
    [age + matches/10], with the best score so far. *)
Definition bestCaptain (now : Time) (t : Team) (starters : list PlayerID)
    : option Player * float64 :=
  fold_left
    (fun (best : option Player * float64) id =>
       match GetPlayer t id with
       | (Some p, None) =>
           let score :=
             (F64.of_int (Age now p)
              + F64.of_int (TotalMatches (PlayerCareerStats p)) / F64.of_int 10)%f64 in
           if (snd best <? score)%f64 then (Some p, score) else best
       | _ => best
       end)
    starters (None, F64.zero).

Definition selectCaptain (now : Time) (sm : SquadManager) (starters : list PlayerID)
    : option PlayerID :=
  let current :=
    match Captain (team sm) with
    | Some captain =>
        if existsb (fun id => String.eqb id captain) starters then Some captain else None
    | None => None
    end in
  match current with
  | Some captain => Some captain
  | None =>
      match fst (bestCaptain now (team sm) starters) with
      | Some bestPlayer => Some (ID bestPlayer)
      | None => None
      end
  end.

Definition positionPriority : list Position :=
  [PositionGK; PositionDEF; PositionMID; PositionFWD].

Definition RecommendLineup (now : Time) (sm : SquadManager) (formation : Formation)
    : option Lineup * option error :=
  let available := GetAvailablePlayers (team sm) in
  let requirements := GetPositionRequirements formation in
  let lineup := mkLineup formation [] [] [] "" in
  let used : gset PlayerID := ∅ in
  let (lineup, used) :=
    fold_left (fillPosition available requirements) positionPriority (lineup, used) in
  if (length (Starters lineup) <? 11)%nat then (None, Some ErrInsufficientPlayers)
  else
    let substitutes := fillSubstitutes available used in
    let captain :=
      match selectCaptain now sm (Starters lineup) with
      | Some captain => captain
      | None => LineupCaptain lineup
      end in
    (Some (mkLineup (LineupFormation lineup) (Starters lineup) (Positions lineup)
             substitutes captain),
     None).

End Squad.

(** * The rest of the packages *)

(** A 64-bit product, with its wrap-around. *)
Definition mul64 (a b : Z) : Z := Int.wrap (a * b).

(** Go's integer division truncates toward zero. *)
Definition div64 (a b : Z) : Z := Int.wrap (Z.quot a b).

(** ** domain/player/attributes.go: CanImprove *)

Definition CanImprove (a : Attributes) (attribute : string) (currentAge : Z) : bool :=
  let physicalPeakAge := 28 in
  let technicalPeakAge := 32 in
  if String.eqb attribute "Speed" || String.eqb attribute "Stamina"
  then currentAge <? physicalPeakAge
  else if String.eqb attribute "Perception" || String.eqb attribute "Passing"
          || String.eqb attribute "BallControl"
  then currentAge <? technicalPeakAge
  else currentAge <? 30.

(** ** domain/player/player.go: match statistics and form *)

Definition set_Form (p : Player) (v : float64) : Player :=
  mkPlayer (ID p) (FirstName p) (LastName p) (Nickname p) (DateOfBirth p)
    (PlayerPosition p) (MarketValue p) (Wage p) (PlayerStatus p)
    (Fitness p) (Morale p) v (PlayerAttributes p) (PlayerCareerStats p).

Definition set_CareerStats (p : Player) (c : CareerStats) : Player :=
  mkPlayer (ID p) (FirstName p) (LastName p) (Nickname p) (DateOfBirth p)
    (PlayerPosition p) (MarketValue p) (Wage p) (PlayerStatus p)
    (Fitness p) (Morale p) (Form p) (PlayerAttributes p) c.

Definition updateForm (p : Player) (matchRating : float64) : Player :=
  let weight := F64.lit 3 10 in
  let form :=
    (Form p * (F64.of_int 1 - weight) + (matchRating * F64.of_int 10) * weight)%f64 in
  if (F64.of_int 100 <? form)%f64 then set_Form p (F64.of_int 100)
  else if (form <? F64.zero)%f64 then set_Form p F64.zero
  else set_Form p form.

Definition UpdateMatchStats (p : Player) (goals assists yellowCards redCards : Z)
    (rating : float64) : Player :=
  let c := PlayerCareerStats p in
  let c :=
    mkCareerStats (Int.add (TotalMatches c) 1) (Int.add (TotalGoals c) goals)
      (Int.add (TotalAssists c) assists) (Int.add (TotalYellowCards c) yellowCards)
      (Int.add (TotalRedCards c) redCards) (TotalCleanSheets c) in
  updateForm (set_CareerStats p c) rating.

(** ** domain/team/formation.go: GetFormationStrength *)

Definition advantages : gmap Formation (gmap Formation float64) :=
  <[Formation442 :=
      <[Formation433 := F64.lit 9 10]> (<[Formation451 := F64.lit 11 10]>
        (<[Formation352 := F64.lit 10 10]> ∅))]>
  (<[Formation433 :=
      <[Formation442 := F64.lit 11 10]> (<[Formation451 := F64.lit 9 10]>
        (<[Formation532 := F64.lit 11 10]> ∅))]>
  (<[Formation451 :=
      <[Formation433 := F64.lit 11 10]> (<[Formation442 := F64.lit 9 10]>
        (<[Formation352 := F64.lit 10 10]> ∅))]>
  (<[Formation352 :=
      <[Formation442 := F64.lit 10 10]> (<[Formation532 := F64.lit 9 10]>
        (<[Formation433 := F64.lit 9 10]> ∅))]>
  (<[Formation532 :=
      <[Formation433 := F64.lit 9 10]> (<[Formation352 := F64.lit 11 10]>
        (<[Formation442 := F64.lit 10 10]> ∅))]> ∅)))).

Definition GetFormationStrength (f matchup : Formation) : float64 :=
  match advantages !! f with
  | Some adv =>
      match adv !! matchup with
      | Some mult => mult
      | None => F64.lit 10 10
      end
  | None => F64.lit 10 10
  end.

(** ** domain/team/team.go: the roster

    The [Team] record above has no [UpdatedAt]; the two assignments of
    [time.Now()] to it are the only part of [AddPlayer] and
    [RemovePlayer] that is not modelled.  A method that assigns through
    its receiver returns the team after the call. *)

Definition set_Players (t : Team) (players : list Player) : Team :=
  mkTeam (TeamID t) (Name t) players (Captain t) (ViceCaptain t) (TeamFormation t)
    (Budget t) (WageBudget t).

Definition AddPlayer (t : Team) (p : Player) : Team * option error :=
  if (30 <=? length (Players t))%nat then (t, Some (Errorf "squad size limit reached"))
  else if existsb (fun existing => String.eqb (ID existing) (ID p)) (Players t)
  then (t, Some (Errorf "player already in squad"))
  else (set_Players t (Players t ++ [p]), None).

(** The index at which the loop of [RemovePlayer] finds the identity. *)
Fixpoint indexOfPlayer (playerID : PlayerID) (players : list Player) : option nat :=
  match players with
  | [] => None
  | p :: rest =>
      if String.eqb (ID p) playerID then Some 0%nat
      else option_map S (indexOfPlayer playerID rest)
  end.

(** [if c != nil && *c == playerID { c = nil }]. *)
Definition clearIf (playerID : PlayerID) (c : option PlayerID) : option PlayerID :=
  match c with
  | Some id => if String.eqb id playerID then None else Some id
  | None => None
  end.

Definition RemovePlayer (t : Team) (playerID : PlayerID) : Team * option error :=
  match indexOfPlayer playerID (Players t) with
  | Some i =>
      (mkTeam (TeamID t) (Name t) (take i (Players t) ++ drop (S i) (Players t))
         (clearIf playerID (Captain t)) (clearIf playerID (ViceCaptain t))
         (TeamFormation t) (Budget t) (WageBudget t),
       None)
  | None => (t, Some (Errorf "player not found in squad"))
  end.

(** [GetTeamStrength]; [order] is the order in which [GetBestEleven]
    visits the positions. *)
Definition GetTeamStrength (order : list Position) (t : Team) : float64 :=
  if (length (Players t) =? 0)%nat then F64.zero
  else
    let '(totalStrength, count) :=
      fold_left
        (fun (acc : float64 * Z) p =>
           ((fst acc + F64.of_int (GetOverallRating p))%f64, Int.add (snd acc) 1))
        (GetBestEleven order t) (F64.zero, 0) in
    if count =? 0 then F64.zero else (totalStrength / F64.of_int count)%f64.

(** ** domain/team/team.go: recent form

    [UpdateForm] and [GetFormString] read and write the field
    [CurrentForm] only; they are functions of it. *)

Record MatchResult := mkMatchResult {
  MatchID : string;
  Opponent : string;
  IsHome : bool;
  GoalsFor : Z;
  GoalsAgainst : Z;
  Result : string
}.

Definition UpdateForm (currentForm : list MatchResult) (result : MatchResult)
    : list MatchResult :=
  let currentForm := [result] ++ currentForm in
  if (5 <? length currentForm)%nat then take 5 currentForm else currentForm.

Definition GetFormString (currentForm : list MatchResult) : string :=
  fold_left (fun form result => form +:+ Result result) currentForm "".

(** ** domain/team/squad.go: the reports on the squad *)

Section SquadReports.
Context {sorter : SliceSorter}.

Definition GetSquadDepth (sm : SquadManager) : gmap Position (list Player) :=
  let depth :=
    fold_left
      (fun (depth : gmap Position (list Player)) p =>
         <[PlayerPosition p := default [] (depth !! PlayerPosition p) ++ [p]]> depth)
      (Players (team sm)) ∅ in
  sortSlice (fun x y => GetOverallRating y <? GetOverallRating x) <$> depth.

End SquadReports.

Definition GetSquadAge (now : Time) (sm : SquadManager) : float64 :=
  if (length (Players (team sm)) =? 0)%nat then F64.zero
  else
    let totalAge := fold_left (fun total p => Int.add total (Age now p)) (Players (team sm)) 0 in
    (F64.of_int totalAge / F64.of_int (Z.of_nat (length (Players (team sm)))))%f64.

Definition GetSquadValue (sm : SquadManager) : Z :=
  fold_left (fun total p => Int.add total (MarketValue p)) (Players (team sm)) 0.

Definition GetWageBill (sm : SquadManager) : Z :=
  fold_left (fun total p => Int.add total (Wage p)) (Players (team sm)) 0.

Definition GetYouthProspects (now : Time) (sm : SquadManager) : list Player :=
  List.filter (fun p => Age now p <? 21) (Players (team sm)).

Definition GetVeterans (now : Time) (sm : SquadManager) : list Player :=
  List.filter (fun p => 30 <? Age now p) (Players (team sm)).

Definition GetInjuredPlayers (sm : SquadManager) : list Player :=
  List.filter (fun p => String.eqb (PlayerStatus p) StatusInjured) (Players (team sm)).

Definition GetSuspendedPlayers (sm : SquadManager) : list Player :=
  List.filter (fun p => String.eqb (PlayerStatus p) StatusSuspended) (Players (team sm)).

(** ** domain/team/finances.go

    The manager holds the team; [Stadium] is the field of the team that
    [ProcessMatchRevenue] reads, passed with the manager. *)

Record FinancialManager := mkFinancialManager { managedTeam : Team }.

Definition NewFinancialManager (t : Team) : FinancialManager := mkFinancialManager t.

Record Stadium := mkStadium {
  StadiumName : string;
  Capacity : Z;
  City : string;
  Country : string;
  PitchType : string
}.

Definition GetTotalWages (fm : FinancialManager) : Z :=
  fold_left (fun total p => Int.add total (Wage p)) (Players (managedTeam fm)) 0.

Definition CanAffordTransfer (fm : FinancialManager) (fee wages : Z) : bool :=
  if Budget (managedTeam fm) <? fee then false
  else
    let currentWages := GetTotalWages fm in
    if WageBudget (managedTeam fm) <? Int.add currentWages wages then false
    else true.

Definition GetWageBudgetRemaining (fm : FinancialManager) : Z :=
  Int.sub (WageBudget (managedTeam fm)) (GetTotalWages fm).

Definition ProcessMatchRevenue (fm : FinancialManager) (stadium : Stadium)
    (attendance : Z) (isHome : bool) : Z :=
  if negb isHome then 0
  else
    let avgTicketPrice := 30 in
    let utilization := (F64.of_int attendance / F64.of_int (Capacity stadium))%f64 in
    let avgTicketPrice :=
      if (F64.lit 9 10 <? utilization)%f64
      then F64.to_int (F64.of_int avgTicketPrice * F64.lit 12 10)%f64
      else avgTicketPrice in
    let revenue := mul64 avgTicketPrice attendance in
    F64.to_int (F64.of_int revenue * F64.lit 13 10)%f64.

(** [CalculateSeasonBudget] assigns the two budgets of the team. *)
Definition CalculateSeasonBudget (fm : FinancialManager) (leaguePosition : Z)
    (cupProgress : string) : FinancialManager :=
  let baseBudget := 10000000 in
  let baseBudget :=
    if leaguePosition <=? 3 then mul64 baseBudget 3
    else if leaguePosition <=? 6 then mul64 baseBudget 2
    else if leaguePosition <=? 10
    then F64.to_int (F64.of_int baseBudget * F64.lit 15 10)%f64
    else baseBudget in
  let baseBudget :=
    if String.eqb cupProgress "winner" then Int.add baseBudget 5000000
    else if String.eqb cupProgress "final" then Int.add baseBudget 3000000
    else if String.eqb cupProgress "semi" then Int.add baseBudget 1500000
    else if String.eqb cupProgress "quarter" then Int.add baseBudget 500000
    else baseBudget in
  let t := managedTeam fm in
  mkFinancialManager
    (mkTeam (TeamID t) (Name t) (Players t) (Captain t) (ViceCaptain t) (TeamFormation t)
       baseBudget (div64 baseBudget 52)).

(** * Auxiliary definitions *)
Global Arguments Int.add : simpl never.
Global Arguments Int.sub : simpl never.
Global Arguments clamp0_100 : simpl never.
Global Arguments min100 : simpl never.
Global Arguments max30 : simpl never.


(** ** A generator for examples

    A linear congruential generator with the interface of [RandSource].
    It stands in for Go's generator wherever a statement is evaluated on
    concrete input; the theorems hold for every [RandSource]. *)

Definition lcg_next (s : Z) : Z := (s * 1103515245 + 12345) mod 2 ^ 31.

#[global, refine] Instance lcgRand : RandSource := {|
  rng := Z;
  NewSource := fun seed => seed mod 2 ^ 31;
  Float64 := fun s => ((F64.of_int (lcg_next s) / F64.of_int (2 ^ 31))%f64, lcg_next s);
  Intn := fun n s => (lcg_next s mod n, lcg_next s)
|}.
Proof.
  intros n s Hn. cbn [fst]. apply Z.mod_pos_bound. exact Hn.
Defined.

(** ** The range invariant of a player *)

Definition inRange (v : Z) : Prop := 0 <= v <= 100.

Record AttributesInRange (a : Attributes) : Prop := mkAttributesInRange {
  Quality_range : inRange (Quality a);
  Keeping_range : inRange (Keeping a);
  Tackling_range : inRange (Tackling a);
  Passing_range : inRange (Passing a);
  Shooting_range : inRange (Shooting a);
  Heading_range : inRange (Heading a);
  Speed_range : inRange (Speed a);
  Stamina_range : inRange (Stamina a);
  Perception_range : inRange (Perception a);
  BallControl_range : inRange (BallControl a);
  Consistency_range : inRange (Consistency a);
  ImportantMatches_range : inRange (ImportantMatches a);
  Potential_range : inRange (Potential a);
  Ambition_range : inRange (Ambition a);
  Professionalism_range : inRange (Professionalism a)
}.


Definition f64InRange (x : float64) : Prop :=
  (F64.zero <=? x)%f64 = true /\ (x <=? F64.of_int 100)%f64 = true.

Definition PlayerInRange (p : Player) : Prop :=
  f64InRange (Fitness p) /\ f64InRange (Morale p) /\ f64InRange (Form p)
  /\ AttributesInRange (PlayerAttributes p).

(** The attributes of [p'] are in range and its fitness, morale and form
    are those of [p]. *)
Definition keptInRange (p p' : Player) : Prop :=
  AttributesInRange (PlayerAttributes p')
  /\ Fitness p' = Fitness p /\ Morale p' = Morale p /\ Form p' = Form p.

(** ** Players of the examples *)

Definition NewDefaultAttributes (position : Position) : Attributes :=
  let base (kp tk pa sh he sp st pe bc : Z) :=
    mkAttributes 65 kp tk pa sh he sp st pe bc 70 70 75 70 70 in
  if String.eqb position PositionGK then base 70 20 50 10 30 40 70 65 30
  else if String.eqb position PositionDEF then base 20 70 55 35 65 65 75 60 50
  else if String.eqb position PositionMID then base 20 55 70 55 50 70 80 70 70
  else if String.eqb position PositionFWD then base 20 30 60 75 60 75 70 65 70
  else base 0 0 0 0 0 0 0 0 0.

(** [NewPlayer], without the two time stamps of the metadata. *)
Definition NewPlayer (id : PlayerID) (firstName lastName : string) (position : Position)
    (dateOfBirth : Time) : Player :=
  mkPlayer id firstName lastName "" dateOfBirth position 0 0 StatusAvailable
    (F64.of_int 100) (F64.of_int 75) (F64.of_int 70)
    (NewDefaultAttributes position) (mkCareerStats 0 0 0 0 0 0).

(** A midfielder born on day 100 of 2000, and a clock on day 200 of 2025. *)
Definition midfielder : Player := NewPlayer "m1" "Ada" "Mid" PositionMID (mkTime 2000 100).
Definition goalkeeper : Player := NewPlayer "g1" "Gil" "Keep" PositionGK (mkTime 2000 100).
Definition day200of2025 : Time := mkTime 2025 200.

(** The midfielder with a fitness of 5. *)
Definition tiredMidfielder : Player := set_Fitness midfielder (F64.of_int 5).

(** ** The match-fatigue formula, as the specification words it *)

(** The age penalty, applied only above 30. *)
Definition agePenalty (age : Z) : option float64 :=
  if 30 <? age then Some (F64.of_int 1 + F64.of_int (Int.sub age 30) * F64.lit 5 100)%f64
  else None.

(** The position factor of the four positions. *)
Definition positionFactor (pos : Position) : option float64 :=
  if String.eqb pos PositionGK then Some (F64.lit 6 10)
  else if String.eqb pos PositionDEF then Some (F64.lit 85 100)
  else if String.eqb pos PositionMID then Some (F64.lit 115 100)
  else if String.eqb pos PositionFWD then Some (F64.of_int 1)
  else None.

Definition scaled (x : float64) (factor : option float64) : float64 :=
  match factor with
  | Some k => (x * k)%f64
  | None => x
  end.

(** [minutes * 0.15 * intensity * (1.5 - Stamina/100) * agePenalty *
    positionFactor], capped at 60; 0 when no minute was played. *)
Definition MatchFatigue (now : Time) (player : Player) (minutesPlayed : Z)
    (intensity : float64) : float64 :=
  if minutesPlayed =? 0 then F64.zero
  else
    let stamina := F64.of_int (Stamina (PlayerAttributes player)) in
    let product :=
      (F64.of_int minutesPlayed * F64.lit 15 100 * intensity
       * (F64.lit 15 10 - stamina / F64.of_int 100))%f64 in
    F64.Min
      (scaled (scaled product (agePenalty (Age now player)))
         (positionFactor (PlayerPosition player)))
      (F64.of_int 60).

(** ** Natural development of a young player, as the specification words it *)

Definition plusOne (v : Z) : Z := Z.min (v + 1) 100.

(** The attribute number [k] of Passing, BallControl, Perception,
    Tackling, incremented by 1 and clamped to 100. *)
Definition improvePick (k : Z) (a : Attributes) : Attributes :=
  if k =? 0 then set_Passing a (plusOne (Passing a))
  else if k =? 1 then set_BallControl a (plusOne (BallControl a))
  else if k =? 2 then set_Perception a (plusOne (Perception a))
  else if k =? 3 then set_Tackling a (plusOne (Tackling a))
  else a.

Section YoungDevelopment.
Context {RS : RandSource}.

(** Below the age [physicalLimit], one draw decides at 30% on +1 Speed
    and +1 Stamina; then one draw decides at Potential/200 on a pick among
    four attributes; last, Quality becomes the overall rating. *)
Definition youngDevelopment (physicalLimit : Z) (now : Time) (p : Player) (s : rng)
    : Player * rng :=
  let a := PlayerAttributes p in
  let '(grow, s1) :=
    if Age now p <? physicalLimit
    then let (u, s1) := Float64 s in ((u <? F64.lit 3 10)%f64, s1)
    else (false, s) in
  let a1 :=
    if grow then set_Stamina (set_Speed a (plusOne (Speed a))) (plusOne (Stamina a))
    else a in
  let (u, s2) := Float64 s1 in
  let '(a2, s3) :=
    if (u <? F64.of_int (Potential a) / F64.of_int 200)%f64
    then let (k, s3) := Intn 4 s2 in (improvePick k a1, s3)
    else (a1, s2) in
  (set_Attributes p (set_Quality a2 (GetOverallRating (set_Attributes p a2))), s3).

End YoungDevelopment.

(** A midfielder aged 22 on day 200 of 2025. *)
Definition youngster : Player := NewPlayer "y1" "Yul" "Young" PositionMID (mkTime 2003 100).

(** A development manager over the example generator, in a given state. *)
Definition lcgManager (state : Z) : DevelopmentManager :=
  @mkDevelopmentManager lcgRand state.

(** ** Sequences of development calls *)

(** A call of the development engine. *)
Inductive Call :=
| CallTraining (trainingType : TrainingType) (intensity : float64)
| CallNatural.

Section Trajectory.
Context {RS : RandSource}.

Definition runCall (dm : DevelopmentManager) (now : Time) (p : Player) (c : Call)
    : Player * DevelopmentManager :=
  match c with
  | CallTraining trainingType intensity =>
      let '(_, p', dm') := ProcessTraining dm now p trainingType intensity in (p', dm')
  | CallNatural => ProcessNaturalDevelopment dm now p
  end.

(** The attribute values after every call of a sequence; each call comes
    with the reading of the clock at which it runs. *)
Fixpoint trajectory (dm : DevelopmentManager) (p : Player) (calls : list (Time * Call))
    : list Attributes :=
  match calls with
  | [] => []
  | (now, c) :: rest =>
      let (p', dm') := runCall dm now p c in
      PlayerAttributes p' :: trajectory dm' p' rest
  end.

End Trajectory.

(** A midfielder aged 20 on day 200 of 2020 and 21 a year later. *)
Definition day200of2020 : Time := mkTime 2020 200.
Definition day200of2021 : Time := mkTime 2021 200.

(** A second implementation of the example generator: the same draws,
    and a state that also counts them. *)
#[global, refine] Instance countingRand : RandSource := {|
  rng := Z * nat;
  NewSource := fun seed => (seed mod 2 ^ 31, O);
  Float64 := fun s =>
    ((F64.of_int (lcg_next (fst s)) / F64.of_int (2 ^ 31))%f64, (lcg_next (fst s), S (snd s)));
  Intn := fun n s => (lcg_next (fst s) mod n, (lcg_next (fst s), S (snd s)))
|}.
Proof.
  intros n s Hn. cbn [fst]. apply Z.mod_pos_bound. exact Hn.
Defined.

(** One technical session at intensity 0.5, on two dates. *)
Definition sessionIn2020 : list (Time * Call) :=
  [(day200of2020, CallTraining TrainingTechnical (F64.lit 5 10))].
Definition sessionIn2021 : list (Time * Call) :=
  [(day200of2021, CallTraining TrainingTechnical (F64.lit 5 10))].

(** ** Squads of the examples *)

(** A player of the examples: first name [id], last name "Player", born
    on day 100 of 2000, with the default attributes of the position. *)
Definition squadPlayer (id : PlayerID) (position : Position) : Player :=
  NewPlayer id id "Player" position (mkTime 2000 100).

Definition withPassing (p : Player) (v : Z) : Player :=
  set_Attributes p (set_Passing (PlayerAttributes p) v).

(** A goalkeeper, five defenders (the fifth with Passing 70), three
    midfielders and three forwards (Passing 60). *)
Definition town : Team :=
  mkTeam "t1" "Town"
    [squadPlayer "g1" PositionGK;
     squadPlayer "d1" PositionDEF; squadPlayer "d2" PositionDEF;
     squadPlayer "d3" PositionDEF; squadPlayer "d4" PositionDEF;
     withPassing (squadPlayer "d5" PositionDEF) 70;
     squadPlayer "m1" PositionMID; squadPlayer "m2" PositionMID;
     squadPlayer "m3" PositionMID;
     squadPlayer "f1" PositionFWD; squadPlayer "f2" PositionFWD;
     squadPlayer "f3" PositionFWD]
    None None Formation442 0 0.

Definition positions442 : list Position :=
  [PositionGK; PositionDEF; PositionDEF; PositionDEF; PositionDEF;
   PositionMID; PositionMID; PositionMID; PositionMID; PositionFWD; PositionFWD].

(** The defender d5 plays in midfield next to three midfielders. *)
Definition lineupWithDefender : Lineup :=
  mkLineup Formation442
    ["g1"; "d1"; "d2"; "d3"; "d4"; "d5"; "m1"; "m2"; "m3"; "f1"; "f2"]
    positions442 [] "g1".

(** The defender d5 and the forward f3 both play in midfield. *)
Definition lineupWithForward : Lineup :=
  mkLineup Formation442
    ["g1"; "d1"; "d2"; "d3"; "d4"; "d5"; "m1"; "m2"; "f3"; "f1"; "f2"]
    positions442 [] "g1".

(** Eleven starters and no assigned position. *)
Definition lineupWithoutPositions : Lineup :=
  mkLineup Formation442
    ["g1"; "d1"; "d2"; "d3"; "d4"; "d5"; "m1"; "m2"; "m3"; "f1"; "f2"]
    [] [] "g1".

(** Four midfielders listed first, then a goalkeeper, four defenders and
    two forwards. *)
Definition rovers : Team :=
  mkTeam "t2" "Rovers"
    [squadPlayer "m1" PositionMID; squadPlayer "m2" PositionMID;
     squadPlayer "m3" PositionMID; squadPlayer "m4" PositionMID;
     squadPlayer "g1" PositionGK;
     squadPlayer "d1" PositionDEF; squadPlayer "d2" PositionDEF;
     squadPlayer "d3" PositionDEF; squadPlayer "d4" PositionDEF;
     squadPlayer "f1" PositionFWD; squadPlayer "f2" PositionFWD]
    None None Formation442 0 0.

(** ** Lineups whose starters are all in the roster and available *)

Definition startersAvailable (t : Team) (starters : list PlayerID) : Prop :=
  forall playerID, In playerID starters ->
    exists p, fst (GetPlayer t playerID) = Some p /\ IsAvailable p = true.

(** The counts [positionCount] holds after the positions [ps]. *)
Definition countPositions (positionCount : gmap Position Z) (ps : list Position)
    : gmap Position Z :=
  fold_left (fun c pos => <[pos := Int.add (mapGet c pos) 1]> c) ps positionCount.

(** * Auxiliary definitions for the rest of the packages *)

(** ** The roster *)

(** The roster invariant: at most thirty players, with distinct
    identifiers. *)
Definition rosterOK (t : Team) : Prop :=
  NoDup (map ID (Players t)) /\ (length (Players t) <= 30)%nat.


(** ** What a valid lineup is *)

(** The conditions [ValidateLineup] checks, [order] being the positions
    whose requirement is compared: eleven starters, all in the roster and
    available, a valid formation, every starter assigned a position the
    starter can play, and as many positions of each kind among those of
    the eleven starters as the formation requires. *)
Definition validLineup (order : list Position) (t : Team) (lineup : Lineup) : Prop :=
  length (Starters lineup) = 11%nat
  /\ startersAvailable t (Starters lineup)
  /\ IsValid (LineupFormation lineup) = true
  /\ (forall j playerID, Starters lineup !! j = Some playerID ->
        exists p pos, fst (GetPlayer t playerID) = Some p
                      /\ Positions lineup !! j = Some pos
                      /\ CanPlayPosition p pos = true)
  /\ (forall pos required, In pos order ->
        GetPositionRequirements (LineupFormation lineup) !! pos = Some required ->
        Z.of_nat (count_occ String.string_dec (take 11 (Positions lineup)) pos) = required).

(** A starter chosen for a position: an available player, of that
    identity, who can play the position. *)
Definition eligibleFor (available : list Player) (playerID : PlayerID) (pos : Position)
    : Prop :=
  exists c, In c available /\ ID c = playerID /\ CanPlayPosition c pos = true.

(** The state of the loop of [RecommendLineup]: every starter chosen so
    far is eligible for the position assigned, no starter is chosen twice,
    and the players marked used are the starters. *)
Definition selection (available : list Player) (st : Lineup * gset PlayerID) : Prop :=
  Forall2 (eligibleFor available) (Starters (fst st)) (Positions (fst st))
  /\ NoDup (Starters (fst st))
  /\ forall playerID, playerID ∈ snd st <-> In playerID (Starters (fst st)).

Section Chosen.
Context {sorter : SliceSorter}.

(** The players [fillPosition] adds: the first candidates, as many as the
    formation requires. *)
Definition chosenFor (available : list Player) (requirements : gmap Position Z)
    (used : gset PlayerID) (pos : Position) : list Player :=
  take (Z.to_nat (mapGet requirements pos)) (getBestCandidates available pos used).

End Chosen.

(** A squad of fifteen: a goalkeeper, four defenders, eight midfielders
    and two forwards. *)
Definition city : Team :=
  mkTeam "t3" "City"
    [squadPlayer "g1" PositionGK;
     squadPlayer "d1" PositionDEF; squadPlayer "d2" PositionDEF;
     squadPlayer "d3" PositionDEF; squadPlayer "d4" PositionDEF;
     squadPlayer "m1" PositionMID; squadPlayer "m2" PositionMID;
     squadPlayer "m3" PositionMID; squadPlayer "m4" PositionMID;
     squadPlayer "m5" PositionMID; squadPlayer "m6" PositionMID;
     squadPlayer "m7" PositionMID; squadPlayer "m8" PositionMID;
     squadPlayer "f1" PositionFWD; squadPlayer "f2" PositionFWD]
    None None Formation442 0 0.

(** The lineup recommended for [city] in 4-4-2: the midfielders, rated 67,
    are preferred to the defenders, rated 66, for the four places in
    defence. *)
Definition cityLineup : Lineup :=
  mkLineup Formation442
    ["g1"; "m1"; "m2"; "m3"; "m4"; "m5"; "m6"; "m7"; "m8"; "f1"; "f2"]
    [PositionGK; PositionDEF; PositionDEF; PositionDEF; PositionDEF;
     PositionMID; PositionMID; PositionMID; PositionMID; PositionFWD; PositionFWD]
    ["d1"; "d2"; "d3"; "d4"] "g1".

(** [town] without two of its defenders: ten players. *)
Definition smallTown : Team := fst (RemovePlayer (fst (RemovePlayer town "d1")) "d2").

(** ** A sort for the examples: insertion sort, which is stable *)

Fixpoint insertSorted {A : Type} (less : A -> A -> bool) (x : A) (l : list A) : list A :=
  match l with
  | [] => [x]
  | y :: rest => if less y x then y :: insertSorted less x rest else x :: y :: rest
  end.

Definition insertionSort {A : Type} (less : A -> A -> bool) (l : list A) : list A :=
  fold_right (insertSorted less) [] l.

(** ** The formations of the table of match-ups *)

Definition tabulated (f : Formation) : Prop :=
  f = Formation442 \/ f = Formation433 \/ f = Formation451 \/ f = Formation352
  \/ f = Formation532.


(** ** Finances *)

(** The budget a league position earns, and the bonus of a cup run. *)
Definition leagueBudget (leaguePosition : Z) : Z :=
  if leaguePosition <=? 3 then 30000000
  else if leaguePosition <=? 6 then 20000000
  else if leaguePosition <=? 10 then 15000000
  else 10000000.

Definition cupBonus (cupProgress : string) : Z :=
  if String.eqb cupProgress "winner" then 5000000
  else if String.eqb cupProgress "final" then 3000000
  else if String.eqb cupProgress "semi" then 1500000
  else if String.eqb cupProgress "quarter" then 500000
  else 0.

(** The sum of the wages of a roster. *)
Definition sumWages (players : list Player) : Z := foldr (fun p total => Wage p + total) 0 players.

Definition set_Wage (p : Player) (wage : Z) : Player :=
  mkPlayer (ID p) (FirstName p) (LastName p) (Nickname p) (DateOfBirth p)
    (PlayerPosition p) (MarketValue p) wage (PlayerStatus p)
    (Fitness p) (Morale p) (Form p) (PlayerAttributes p) (PlayerCareerStats p).

(** [city] with a budget of a million and a weekly wage budget of 5000,
    every player on a wage of 300. *)
Definition paidCity : Team :=
  mkTeam (TeamID city) (Name city) (map (fun p => set_Wage p 300) (Players city))
    None None Formation442 1000000 5000.

(** An injured forward, and [city] with that forward at the end of the
    roster. *)
Definition injuredForward : Player :=
  mkPlayer "i1" "Ivo" "Hurt" "" (mkTime 2000 100) PositionFWD 0 0 StatusInjured
    (F64.of_int 100) (F64.of_int 75) (F64.of_int 70)
    (NewDefaultAttributes PositionFWD) (mkCareerStats 0 0 0 0 0 0).

Definition injuredCity : Team :=
  mkTeam (TeamID city) (Name city)
    (Players city
     ++ [injuredForward])
    None None Formation442 0 0.


(** ** What training may change *)

(** The names [getAttributeValue] and [applyAttributeChange] know. *)
Definition knownAttribute (attribute : string) : bool :=
  existsb (String.eqb attribute) allAttrs.

(** Everything of a player but the nine trainable attributes. *)
Definition sameOthers (p p' : Player) : Prop :=
  ID p' = ID p /\ FirstName p' = FirstName p /\ LastName p' = LastName p
  /\ Nickname p' = Nickname p /\ DateOfBirth p' = DateOfBirth p
  /\ PlayerPosition p' = PlayerPosition p /\ MarketValue p' = MarketValue p
  /\ Wage p' = Wage p /\ PlayerStatus p' = PlayerStatus p
  /\ Fitness p' = Fitness p /\ Morale p' = Morale p /\ Form p' = Form p
  /\ PlayerCareerStats p' = PlayerCareerStats p
  /\ Quality (PlayerAttributes p') = Quality (PlayerAttributes p)
  /\ Consistency (PlayerAttributes p') = Consistency (PlayerAttributes p)
  /\ ImportantMatches (PlayerAttributes p') = ImportantMatches (PlayerAttributes p)
  /\ Potential (PlayerAttributes p') = Potential (PlayerAttributes p)
  /\ Ambition (PlayerAttributes p') = Ambition (PlayerAttributes p)
  /\ Professionalism (PlayerAttributes p') = Professionalism (PlayerAttributes p).

(** [p'] is [p] with some trainable attributes raised, none beyond 95
    unless it was there already. *)
Definition raised (p p' : Player) : Prop :=
  sameOthers p p'
  /\ forall attribute,
       getAttributeValue p attribute <= getAttributeValue p' attribute
       <= Z.max (getAttributeValue p attribute) 95.

(** The changes reported in [snd st] are the differences between the
    attributes of [fst st] and those of [p0], and each is 1 or 2. *)
Definition reported (p0 : Player) (st : Player * TrainingResult) : Prop :=
  (forall attribute,
     getAttributeValue (fst st) attribute
     = getAttributeValue p0 attribute + mapGet (AttributeChanges (snd st)) attribute)
  /\ forall attribute change,
       AttributeChanges (snd st) !! attribute = Some change -> 1 <= change <= 2.

(** The types of training that visit each attribute at most once. *)
Definition focusedTraining (trainingType : TrainingType) : Prop :=
  trainingType = TrainingTechnical \/ trainingType = TrainingPhysical
  \/ trainingType = TrainingTactical \/ trainingType = TrainingSetPieces.

(** The starters chosen so far are preferred: whoever is available, can
    play the position of a starter and is not marked used has no higher
    rating than that starter. *)
Definition preferred (available : list Player) (st : Lineup * gset PlayerID) : Prop :=
  Forall2
    (fun playerID pos =>
       exists c, In c available /\ ID c = playerID
                 /\ forall q, In q available -> CanPlayPosition q pos = true ->
                      ID q ∉ snd st -> GetOverallRating q <= GetOverallRating c)
    (Starters (fst st)) (Positions (fst st)).

(** The lineup of [rovers] with every player at the own position. *)
Definition roversLineup : Lineup :=
  mkLineup Formation442
    ["g1"; "d1"; "d2"; "d3"; "d4"; "m1"; "m2"; "m3"; "m4"; "f1"; "f2"]
    [PositionGK; PositionDEF; PositionDEF; PositionDEF; PositionDEF;
     PositionMID; PositionMID; PositionMID; PositionMID; PositionFWD; PositionFWD]
    [] "g1".

(** The score by which [selectCaptain] ranks the starters. *)
Definition experience (now : Time) (p : Player) : float64 :=
  (F64.of_int (Age now p)
   + F64.of_int (TotalMatches (PlayerCareerStats p)) / F64.of_int 10)%f64.

(** ** The ages the development engine tells apart *)

(** The class of an age for [calculateImprovementChance]: below 21, 21
    to 24, 25 to 27, 28 to 31, and 32 or more. *)
Definition chanceBand (age : Z) : Z :=
  if age <? 21 then 0
  else if age <? 25 then 1
  else if age <? 28 then 2
  else if age <? 32 then 3
  else 4.

(** The class of an age for [ProcessNaturalDevelopment]: below 21, 21 or
    22, 23 to 30, and every age above 30 by itself. *)
Definition developmentBand (age : Z) : Z :=
  if age <? 21 then 0
  else if age <? 23 then 1
  else if 30 <? age then age
  else 2.

Definition ageBand (c : Call) (age : Z) : Z :=
  match c with
  | CallTraining _ _ => chanceBand age
  | CallNatural => developmentBand age
  end.

(** Two sequences of the same calls, run at readings of the clock that
    may differ but put the age of [p] in the same class call by call. *)
Definition sameCallsAndBands (p : Player) (calls1 calls2 : list (Time * Call)) : Prop :=
  Forall2
    (fun x y =>
       snd x = snd y
       /\ ageBand (snd x) (Age (fst x) p) = ageBand (snd y) (Age (fst y) p))
    calls1 calls2.

(** [p'] is [p] with other attributes. *)
Definition onlyAttributes (p p' : Player) : Prop :=
  exists a, p' = set_Attributes p a.

(** A training session and a natural development of the midfielder at
    the age of 19, and the same a year later. *)
Definition day200of2019 : Time := mkTime 2019 200.
Definition seasonAt19 : list (Time * Call) :=
  [(day200of2019, CallTraining TrainingTechnical (F64.lit 5 10)); (day200of2019, CallNatural)].
Definition seasonAt20 : list (Time * Call) :=
  [(day200of2020, CallTraining TrainingTechnical (F64.lit 5 10)); (day200of2020, CallNatural)].

(** ** Signs of binary64 values *)

(** [x] is a zero, a positive finite value or [+Inf]. *)
Definition notNegative (x : float64) : Prop :=
  match x with
  | S754_zero _ => True
  | S754_finite false _ e => -1074 <= e
  | S754_infinity false => True
  | _ => False
  end.

(** [x] is a zero or a positive finite value. *)
Definition finiteNotNegative (x : float64) : Prop :=
  match x with
  | S754_zero _ => True
  | S754_finite false _ e => -1074 <= e
  | _ => False
  end.

(** [x] is a positive finite value. *)
Definition positiveFinite (x : float64) : Prop :=
  match x with
  | S754_finite false _ e => -1074 <= e
  | _ => False
  end.

Definition positiveFiniteb (x : float64) : bool :=
  match x with
  | S754_finite false _ e => -1074 <=? e
  | _ => false
  end.

Definition finiteNotNegativeb (x : float64) : bool :=
  match x with
  | S754_zero _ => true
  | S754_finite false _ e => -1074 <=? e
  | _ => false
  end.

(** [r] is at most the positive normal binary64 value [M * 2^E], in the
    order [SFcompare] computes: a zero, a negative value, or a positive
    finite value of a smaller exponent, or of the same exponent and no
    larger mantissa. *)
Definition atMost (M : positive) (E : Z) (r : float64) : Prop :=
  match r with
  | S754_zero _ => True
  | S754_finite true _ _ => True
  | S754_infinity true => True
  | S754_finite false m e => -1074 <= e /\ (e < E \/ (e = E /\ Z.pos m <= Z.pos M))
  | _ => False
  end.

(** * Properties *)

(** ** Position eligibility *)

Lemma CanPlayPosition_iff (p : Player) (pos : Position) :
  CanPlayPosition p pos = true <->
    (pos = PlayerPosition p
     \/ (PlayerPosition p = PositionDEF /\ pos = PositionMID
         /\ 60 < Passing (PlayerAttributes p))
     \/ (PlayerPosition p = PositionFWD /\ pos = PositionMID
         /\ 60 < Passing (PlayerAttributes p))
     \/ (PlayerPosition p = PositionMID
         /\ (pos = PositionDEF \/ pos = PositionMID \/ pos = PositionFWD))).
Proof.
  unfold CanPlayPosition, PositionDEF, PositionMID, PositionFWD.
  destruct (String.eqb_spec (PlayerPosition p) pos) as [Heq | Hne].
  { split; [intros _; left; congruence | done]. }
  destruct (String.eqb_spec (PlayerPosition p) "DEF") as [Hd | Hd].
  { rewrite Hd in *.
    destruct (String.eqb_spec pos "DEF") as [-> | Hpd]; [done |].
    destruct (String.eqb_spec pos "MID") as [-> | Hpm]; simpl.
    - rewrite Z.ltb_lt. split; [intros; right; left; done |].
      intros [H | [(_ & _ & H) | [(H & _) | (H & _)]]]; done.
    - split; [done |].
      intros [H | [(_ & H & _) | [(H & _) | (H & _)]]]; done. }
  destruct (String.eqb_spec (PlayerPosition p) "MID") as [Hm | Hm].
  { rewrite Hm in *.
    destruct (String.eqb_spec pos "MID") as [-> | Hpm]; [done |].
    destruct (String.eqb_spec pos "DEF") as [-> | Hpd]; simpl.
    - split; [intros _; do 3 right; split; [done | left; done] | done].
    - destruct (String.eqb_spec pos "FWD") as [-> | Hpf].
      + split; [intros _; do 3 right; split; [done | right; right; done] | done].
      + split; [done |].
        intros [H | [(H & _) | [(H & _) | (_ & [H | [H | H]])]]]; done. }
  destruct (String.eqb_spec (PlayerPosition p) "FWD") as [Hf | Hf].
  { rewrite Hf in *.
    destruct (String.eqb_spec pos "FWD") as [-> | Hpf]; [done |].
    destruct (String.eqb_spec pos "MID") as [-> | Hpm]; simpl.
    - rewrite Z.ltb_lt. split; [intros; right; right; left; done |].
      intros [H | [(H & _) | [(_ & _ & H) | (H & _)]]]; done.
    - split; [done |].
      intros [H | [(H & _) | [(_ & H & _) | (H & _)]]]; done. }
  split; [done |].
  intros [H | [(H & _) | [(H & _) | (H & _)]]]; done.
Qed.

(** C2: [CanPlayPosition p pos] holds exactly when [pos] is the player's
    own position, or the player is a DEF or a FWD with Passing above 60
    and [pos] is MID, or the player is a MID and [pos] is DEF, MID or FWD.
    A GK is eligible only for GK, a DEF never for FWD or GK, a FWD never
    for DEF or GK, a MID never for GK. *)
Theorem CanPlayPosition_cases (p : Player) (pos : Position) :
  (CanPlayPosition p pos = true <->
     (pos = PlayerPosition p
      \/ (PlayerPosition p = PositionDEF /\ pos = PositionMID
          /\ 60 < Passing (PlayerAttributes p))
      \/ (PlayerPosition p = PositionFWD /\ pos = PositionMID
          /\ 60 < Passing (PlayerAttributes p))
      \/ (PlayerPosition p = PositionMID
          /\ (pos = PositionDEF \/ pos = PositionMID \/ pos = PositionFWD))))
  /\ (PlayerPosition p = PositionGK -> (CanPlayPosition p pos = true <-> pos = PositionGK))
  /\ (PlayerPosition p = PositionDEF -> pos = PositionFWD \/ pos = PositionGK ->
      CanPlayPosition p pos = false)
  /\ (PlayerPosition p = PositionFWD -> pos = PositionDEF \/ pos = PositionGK ->
      CanPlayPosition p pos = false)
  /\ (PlayerPosition p = PositionMID -> pos = PositionGK -> CanPlayPosition p pos = false).
Proof.
  pose proof (CanPlayPosition_iff p pos) as Hiff.
  split; [exact Hiff |].
  split; [| split; [| split]].
  - intros Hgk. rewrite Hgk in Hiff. split.
    + intros Hc. apply Hiff in Hc.
      destruct Hc as [Hc | [(Hc & _) | [(Hc & _) | (Hc & _)]]]; done.
    + intros ->. apply Hiff. by left.
  - intros Hdef Hpos. apply not_true_is_false. intros Hc.
    rewrite Hdef in Hiff. apply Hiff in Hc.
    destruct Hpos as [-> | ->];
      destruct Hc as [Hc | [(_ & Hc & _) | [(Hc & _) | (Hc & _)]]]; done.
  - intros Hfwd Hpos. apply not_true_is_false. intros Hc.
    rewrite Hfwd in Hiff. apply Hiff in Hc.
    destruct Hpos as [-> | ->];
      destruct Hc as [Hc | [(Hc & _) | [(_ & Hc & _) | (Hc & _)]]]; done.
  - intros Hmid ->. apply not_true_is_false. intros Hc.
    rewrite Hmid in Hiff. apply Hiff in Hc.
    destruct Hc as [Hc | [(Hc & _) | [(Hc & _) | (_ & [Hc | [Hc | Hc]])]]]; done.
Qed.

(** ** Checking a property over an integer range by evaluation *)

Definition zrange (lo : Z) (n : nat) : list Z :=
  map (fun i => lo + Z.of_nat i) (seq 0 n).

Lemma In_zrange (lo : Z) (n : nat) (v : Z) :
  lo <= v < lo + Z.of_nat n -> In v (zrange lo n).
Proof.
  intros Hv. unfold zrange. apply in_map_iff.
  exists (Z.to_nat (v - lo)). split; [lia |].
  apply in_seq. lia.
Qed.

Lemma forallb_zrange (P : Z -> bool) (lo : Z) (n : nat) :
  forallb P (zrange lo n) = true ->
  forall v, lo <= v < lo + Z.of_nat n -> P v = true.
Proof.
  intros Hall v Hv. rewrite forallb_forall in Hall.
  apply Hall, In_zrange, Hv.
Qed.


(** ** An upper bound on the rounding of binary64

    Values are measured in units of [2^-1074], the smallest positive
    binary64 number, so that every finite float has an integer measure. *)

Definition units (m : positive) (e : Z) : Z := Z.pos m * 2 ^ (e + 1074).

(** [x] is [+0] or a positive finite float of at most [N] units. *)
Definition bounded_by (N : Z) (x : float64) : Prop :=
  match x with
  | S754_zero false => 0 <= N
  | S754_finite false m e => -1074 <= e /\ units m e <= N
  | _ => False
  end.

Definition bounded_byb (N : Z) (x : float64) : bool :=
  match x with
  | S754_zero false => 0 <=? N
  | S754_finite false m e => (-1074 <=? e) && (units m e <=? N)
  | _ => false
  end.

(** The bound after one rounding: a relative error of at most [2^-52]
    and an absolute error of at most one unit. *)
Definition up (N : Z) : Z := N + N / 2 ^ 52 + 1.

Lemma bounded_byb_true (N : Z) (x : float64) : bounded_byb N x = true -> bounded_by N x.
Proof.
  destruct x as [[] | | | [] m e]; simpl; try discriminate.
  - apply Z.leb_le.
  - rewrite andb_true_iff, Z.leb_le, Z.leb_le. done.
Qed.

Lemma bounded_by_mono (N N' : Z) (x : float64) : N <= N' -> bounded_by N x -> bounded_by N' x.
Proof.
  intros HN. destruct x as [[] | | | [] m e]; simpl; try done; lia.
Qed.

Lemma up_mono (N N' : Z) : N <= N' -> up N <= up N'.
Proof.
  intros H. unfold up.
  pose proof (Z.div_le_mono N N' (2 ^ 52) ltac:(lia) H). lia.
Qed.

Lemma digits2_pos_size (m : positive) : digits2_pos m = Pos.size m.
Proof. induction m; simpl; congruence. Qed.

Lemma digits2_bounds (m : positive) :
  2 ^ (Z.pos (digits2_pos m) - 1) <= Z.pos m < 2 ^ Z.pos (digits2_pos m).
Proof.
  induction m as [m IH | m IH |]; simpl digits2_pos.
  - rewrite Pos2Z.inj_succ.
    replace (Z.succ (Z.pos (digits2_pos m)) - 1) with (Z.succ (Z.pos (digits2_pos m) - 1)) by lia.
    rewrite !Z.pow_succ_r by lia. lia.
  - rewrite Pos2Z.inj_succ.
    replace (Z.succ (Z.pos (digits2_pos m)) - 1) with (Z.succ (Z.pos (digits2_pos m) - 1)) by lia.
    rewrite !Z.pow_succ_r by lia. lia.
  - simpl. lia.
Qed.

Lemma shr_1_m (r : shr_record) : 0 <= shr_m r -> shr_m (shr_1 r) = shr_m r / 2.
Proof.
  destruct r as [m b s]. cbn [shr_m]. intros Hm.
  destruct m as [| [p | p |] | p]; cbn [shr_1 shr_m].
  - reflexivity.
  - apply Z.div_unique with (r := 1); lia.
  - apply Z.div_unique with (r := 0); lia.
  - reflexivity.
  - lia.
Qed.

Lemma pow2_pos (e : Z) : 0 <= e -> 0 < 2 ^ e.
Proof. intros He. apply Z.pow_pos_nonneg; lia. Qed.

Lemma iter_shr_1_m (p : positive) (r : shr_record) :
  0 <= shr_m r -> shr_m (SpecFloat.iter_pos shr_1 p r) = shr_m r / 2 ^ Z.pos p.
Proof.
  revert r. induction p as [p IH | p IH |]; intros r Hr; cbn [SpecFloat.iter_pos].
  - pose proof (pow2_pos (Z.pos p) ltac:(lia)) as Hp.
    assert (H1 : 0 <= shr_m (shr_1 r)).
    { rewrite shr_1_m by done. apply Z.div_pos; lia. }
    assert (H2 : 0 <= shr_m (SpecFloat.iter_pos shr_1 p (shr_1 r))).
    { rewrite IH by done. apply Z.div_pos; lia. }
    rewrite IH by done. rewrite IH by done. rewrite shr_1_m by done.
    rewrite !Z.div_div by lia.
    replace (2 ^ Z.pos p~1) with (2 * (2 ^ Z.pos p * 2 ^ Z.pos p)); [done |].
    rewrite <- Z.pow_add_r by lia. rewrite <- Z.pow_succ_r by lia. f_equal. lia.
  - pose proof (pow2_pos (Z.pos p) ltac:(lia)) as Hp.
    assert (H2 : 0 <= shr_m (SpecFloat.iter_pos shr_1 p r)).
    { rewrite IH by done. apply Z.div_pos; lia. }
    rewrite IH by done. rewrite IH by done.
    rewrite !Z.div_div by lia.
    replace (2 ^ Z.pos p~0) with (2 ^ Z.pos p * 2 ^ Z.pos p); [done |].
    rewrite <- Z.pow_add_r by lia. f_equal. lia.
  - rewrite shr_1_m by done. done.
Qed.

Lemma round_nearest_even_bounds (m : Z) (l : location) :
  m <= round_nearest_even m l <= m + 1.
Proof.
  destruct l as [| []]; simpl; try lia.
  destruct (Z.even m); lia.
Qed.

Lemma fexp_ge (e : Z) : -1074 <= fexp 53 1024 e.
Proof. unfold fexp, emin. lia. Qed.

Lemma shr_m_of_loc (m : Z) (l : location) : shr_m (shr_record_of_loc m l) = m.
Proof. destruct l as [| []]; reflexivity. Qed.

(** What [shr_fexp] does to a non-negative mantissa: nothing, or a shift
    to the exponent [fexp] asks for, which floors the mantissa. *)
Lemma shr_fexp_cases (m e : Z) (l : location) :
  0 <= m -> -1074 <= e ->
  let r := fst (shr_fexp 53 1024 m e l) in
  let e' := snd (shr_fexp 53 1024 m e l) in
  -1074 <= e' /\ 0 <= shr_m r /\ shr_m r * 2 ^ (e' + 1074) <= m * 2 ^ (e + 1074)
  /\ ((r = shr_record_of_loc m l /\ e' = e)
      \/ (e' = fexp 53 1024 (Zdigits2 m + e) /\ e < e' /\ shr_m r = m / 2 ^ (e' - e))).
Proof.
  intros Hm He. unfold shr_fexp, shr.
  pose proof (fexp_ge (Zdigits2 m + e)) as Hf.
  destruct (fexp 53 1024 (Zdigits2 m + e) - e) as [| p | p] eqn:Hn; cbn [fst snd].
  - rewrite shr_m_of_loc. repeat split; try lia. by left.
  - assert (Hp : 0 < 2 ^ Z.pos p) by (apply pow2_pos; lia).
    assert (He' : e + Z.pos p = fexp 53 1024 (Zdigits2 m + e)) by lia.
    rewrite iter_shr_1_m by (rewrite shr_m_of_loc; done).
    rewrite shr_m_of_loc.
    split; [lia |]. split; [apply Z.div_pos; lia |]. split.
    + replace (e + Z.pos p + 1074) with (Z.pos p + (e + 1074)) by lia.
      rewrite Z.pow_add_r by lia.
      pose proof (Z.mul_div_le m (2 ^ Z.pos p) Hp) as Hdiv.
      pose proof (pow2_pos (e + 1074) ltac:(lia)) as Hq.
      nia.
    + right. split; [done |]. split; [lia |].
      f_equal. f_equal. lia.
  - rewrite shr_m_of_loc. repeat split; try lia. by left.
Qed.

Lemma units_lower (m : positive) (e : Z) :
  -1074 <= e -> 2 ^ (Z.pos (digits2_pos m) - 1 + e + 1074) <= units m e.
Proof.
  intros He. unfold units.
  pose proof (digits2_bounds m) as [Hlo _].
  replace (Z.pos (digits2_pos m) - 1 + e + 1074)
    with ((Z.pos (digits2_pos m) - 1) + (e + 1074)) by lia.
  rewrite Z.pow_add_r by lia.
  pose proof (pow2_pos (e + 1074) ltac:(lia)) as Hq.
  nia.
Qed.

(** Rounding a positive mantissa of less than [2^10] in value: the result
    is a finite positive float (or [+0]) within the bound [up]. *)
Lemma binary_round_aux_bound (mx : positive) (ex : Z) :
  -1074 <= ex -> units mx ex < 2 ^ 1084 ->
  bounded_by (up (units mx ex)) (binary_round_aux 53 1024 false (Z.pos mx) ex loc_Exact).
Proof.
  intros Hex Hsmall. unfold binary_round_aux.
  pose proof (shr_fexp_cases (Z.pos mx) ex loc_Exact ltac:(lia) Hex) as H1.
  destruct (shr_fexp 53 1024 (Z.pos mx) ex loc_Exact) as [r1 e1].
  cbn [fst snd] in H1. destruct H1 as (He1 & Hm1 & Hv1 & Hcase1).
  set (m2 := round_nearest_even (shr_m r1) (loc_of_shr_record r1)).
  pose proof (round_nearest_even_bounds (shr_m r1) (loc_of_shr_record r1)) as Hm2.
  fold m2 in Hm2.
  fold (units mx ex) in Hv1.
  assert (HX : 0 < units mx ex).
  { unfold units. pose proof (pow2_pos (ex + 1074) ltac:(lia)). nia. }
  assert (Hdiv0 : 0 <= units mx ex / 2 ^ 52) by (apply Z.div_pos; lia).
  assert (Hb : m2 * 2 ^ (e1 + 1074) <= up (units mx ex)).
  { unfold up. destruct Hcase1 as [[Hr1 ->] | (He1' & Hlt & Hdiv)].
    - subst r1. unfold m2. rewrite shr_m_of_loc. simpl. fold (units mx ex). lia.
    - pose proof (pow2_pos (e1 + 1074) ltac:(lia)) as Hq.
      assert (Hulp : 2 ^ (e1 + 1074) <= units mx ex / 2 ^ 52 + 1).
      { rewrite He1'. cbn [Zdigits2]. unfold fexp, emin.
        destruct (Z.max_spec (Z.pos (digits2_pos mx) + ex - 53) (3 - 1024 - 53))
          as [[_ ->] | [Hge ->]].
        - change (3 - 1024 - 53 + 1074) with 0. simpl. lia.
        - apply Z.le_trans with (units mx ex / 2 ^ 52); [| lia].
          apply Z.div_le_lower_bound; [lia |].
          rewrite <- Z.pow_add_r by lia.
          replace (52 + (Z.pos (digits2_pos mx) + ex - 53 + 1074))
            with (Z.pos (digits2_pos mx) - 1 + ex + 1074) by lia.
          apply units_lower. done. }
      nia. }
  assert (Hm2' : 0 <= m2) by lia.
  pose proof (shr_fexp_cases m2 e1 loc_Exact Hm2' He1) as H2.
  destruct (shr_fexp 53 1024 m2 e1 loc_Exact) as [r2 e2].
  cbn [fst snd] in H2. destruct H2 as (He2 & Hm3 & Hv3 & _).
  destruct (shr_m r2) as [| m3 | m3] eqn:Hr2.
  - simpl. unfold up. lia.
  - assert (Hfin : units m3 e2 <= up (units mx ex)).
    { eapply Z.le_trans; [exact Hv3 | exact Hb]. }
    assert (Hup : up (units mx ex) < 2 ^ 1085).
    { unfold up.
      assert (units mx ex / 2 ^ 52 <= units mx ex).
      { apply Z.div_le_upper_bound; [lia |]. lia. }
      change (2 ^ 1085) with (2 * 2 ^ 1084). lia. }
    assert (He2' : e2 + 1074 < 1085).
    { apply (Z.pow_lt_mono_r_iff 2); [lia | lia |].
      unfold units in Hfin.
      pose proof (pow2_pos (e2 + 1074) ltac:(lia)). nia. }
    replace (e2 <=? 1024 - 53) with true by (symmetry; apply Z.leb_le; lia).
    simpl. split; [done |]. exact Hfin.
  - lia.
Qed.

Lemma iter_xO_pow (m d : positive) : Z.pos (Pos.iter xO m d) = Z.pos m * 2 ^ Z.pos d.
Proof.
  induction d as [| d IH] using Pos.peano_ind.
  - cbn [Pos.iter]. rewrite Z.pow_1_r. lia.
  - rewrite Pos.iter_succ, Pos2Z.inj_xO, IH, Pos2Z.inj_succ, Z.pow_succ_r by lia. lia.
Qed.

(** [shl_align] changes the representation, not the value. *)
Lemma shl_align_units (mx : positive) (ex ex' : Z) :
  -1074 <= ex -> -1074 <= ex' ->
  -1074 <= snd (shl_align mx ex ex')
  /\ snd (shl_align mx ex ex') <= ex
  /\ (ex' <= ex -> snd (shl_align mx ex ex') = ex')
  /\ units (fst (shl_align mx ex ex')) (snd (shl_align mx ex ex')) = units mx ex.
Proof.
  intros Hex Hex'. unfold shl_align.
  destruct (ex' - ex) as [| d | d] eqn:Hd; cbn [fst snd].
  - repeat split; lia.
  - repeat split; lia.
  - repeat split; try lia.
    unfold units. rewrite iter_xO_pow.
    replace (ex + 1074) with (Z.pos d + (ex' + 1074)) by lia.
    rewrite (Z.pow_add_r 2 (Z.pos d) (ex' + 1074)) by lia. lia.
Qed.

Lemma binary_round_bound (mx : positive) (ex : Z) :
  -1074 <= ex -> units mx ex < 2 ^ 1084 ->
  bounded_by (up (units mx ex)) (binary_round 53 1024 false mx ex).
Proof.
  intros Hex Hsmall. unfold binary_round.
  pose proof (shl_align_units mx ex (fexp 53 1024 (Z.pos (digits2_pos mx) + ex)) Hex
                (fexp_ge _)) as (He & _ & _ & Hu).
  destruct (shl_align mx ex (fexp 53 1024 (Z.pos (digits2_pos mx) + ex))) as [mz ez].
  cbn [fst snd] in He, Hu. rewrite <- Hu.
  apply binary_round_aux_bound; [done | by rewrite Hu].
Qed.

Lemma units_pos (m : positive) (e : Z) : -1074 <= e -> 0 < units m e.
Proof.
  intros He. unfold units. pose proof (pow2_pos (e + 1074) ltac:(lia)). nia.
Qed.

(** Addition of two bounded floats. *)
Lemma add_bound (Nx Ny : Z) (x y : float64) :
  bounded_by Nx x -> bounded_by Ny y -> Nx + Ny < 2 ^ 1084 ->
  bounded_by (up (Nx + Ny)) (x + y)%f64.
Proof.
  intros Hx Hy Hsmall.
  assert (Hup : forall N, 0 <= N -> N <= up N).
  { intros N HN. unfold up. pose proof (Z.div_pos N (2 ^ 52) HN ltac:(lia)). lia. }
  destruct x as [[] | | | [] mx ex], y as [[] | | | [] my ey];
    cbn [bounded_by] in Hx, Hy; try done.
  - unfold F64.add. cbn [SFadd bounded_by]. specialize (Hup (Nx + Ny)). lia.
  - destruct Hy as [Hey Hy]. unfold F64.add. cbn [SFadd bounded_by]. split; [done |].
    pose proof (units_pos my ey Hey). specialize (Hup (Nx + Ny)). lia.
  - destruct Hx as [Hex Hx]. unfold F64.add. cbn [SFadd bounded_by]. split; [done |].
    pose proof (units_pos mx ex Hex). specialize (Hup (Nx + Ny)). lia.
  - destruct Hx as [Hex Hx], Hy as [Hey Hy].
    pose proof (units_pos mx ex Hex). pose proof (units_pos my ey Hey).
    unfold F64.add, SFadd.
    pose proof (shl_align_units mx ex (Z.min ex ey) Hex ltac:(lia)) as (_ & _ & Hax & Hux).
    pose proof (shl_align_units my ey (Z.min ex ey) Hey ltac:(lia)) as (_ & _ & Hay & Huy).
    specialize (Hax ltac:(lia)). specialize (Hay ltac:(lia)).
    destruct (shl_align mx ex (Z.min ex ey)) as [mx' ex'].
    destruct (shl_align my ey (Z.min ex ey)) as [my' ey'].
    cbn [fst snd cond_Zopp] in *. subst ex' ey'.
    change (Z.pos mx' + Z.pos my') with (Z.pos (mx' + my')).
    cbn [binary_normalize].
    assert (Hsum : units (mx' + my') (Z.min ex ey) = units mx ex + units my ey).
    { rewrite <- Hux, <- Huy. unfold units. lia. }
    eapply bounded_by_mono; [| apply binary_round_bound; [lia | lia]].
    apply up_mono. lia.
Qed.

(** Truncation of a bounded float to an integer. *)
Lemma to_int_bound (N : Z) (x : float64) :
  bounded_by N x -> N < 101 * 2 ^ 1074 -> 0 <= F64.to_int x <= 100.
Proof.
  intros Hx HN. destruct x as [[] | | | [] m e]; cbn [bounded_by] in Hx; try done.
  destruct Hx as [He Hm]. unfold units in Hm.
  assert (Hmag : 0 <= Z.shiftl (Z.pos m) e <= 100).
  { destruct (Z.le_gt_cases 0 e) as [Hpos | Hneg].
    - rewrite Z.shiftl_mul_pow2 by done.
      rewrite Z.pow_add_r in Hm by lia.
      pose proof (pow2_pos e Hpos) as Hq.
      assert (Z.pos m * 2 ^ e < 101) by nia. nia.
    - rewrite Z.shiftl_div_pow2 by lia.
      pose proof (pow2_pos (- e) ltac:(lia)) as Hq.
      pose proof (pow2_pos (e + 1074) ltac:(lia)) as Hq'.
      split; [apply Z.div_pos; lia |].
      assert (Z.pos m / 2 ^ (- e) < 101); [| lia].
      apply Z.div_lt_upper_bound; [done |].
      replace (2 ^ 1074) with (2 ^ (- e) * 2 ^ (e + 1074)) in HN
        by (rewrite <- Z.pow_add_r by lia; f_equal; lia).
      nia. }
  unfold F64.to_int. cbv beta iota zeta.
  replace ((Int.min_int <=? Z.shiftl (Z.pos m) e) && (Z.shiftl (Z.pos m) e <=? Int.max_int))
    with true; [done |].
  symmetry. apply andb_true_iff. unfold Int.min_int, Int.max_int.
  split; apply Z.leb_le; lia.
Qed.

(** ** The ratings stay within [[0, 100]] *)

(** [x] is [+0] or a positive float of at most [P] units of [2^-60]. *)
Definition bounded_by60 (P : Z) (x : float64) : bool :=
  match x with
  | S754_zero false => 0 <=? P
  | S754_finite false m e => (-60 <=? e) && (Z.pos m * 2 ^ (e + 60) <=? P)
  | _ => false
  end.

(** Every product [float64(v) * w], [v] in [[0, 100]], is within [P]. *)
Definition productsBounded (w : float64) (P : Z) : bool :=
  forallb (fun v => bounded_by60 P (F64.of_int v * w)%f64) (zrange 0 101).

Lemma bounded_by60_units (P : Z) (x : float64) :
  bounded_by60 P x = true -> bounded_by (P * 2 ^ 1014) x.
Proof.
  destruct x as [[] | | | [] m e]; cbn [bounded_by60 bounded_by]; try discriminate.
  - rewrite Z.leb_le. lia.
  - rewrite andb_true_iff, !Z.leb_le. intros [He Hm]. split; [lia |].
    unfold units. replace (e + 1074) with ((e + 60) + 1014) by lia.
    rewrite Z.pow_add_r by lia.
    pose proof (pow2_pos 1014 ltac:(lia)). nia.
Qed.

Lemma product_bound (w : float64) (P : Z) (v : Z) :
  productsBounded w P = true -> inRange v ->
  bounded_by (P * 2 ^ 1014) (F64.of_int v * w)%f64.
Proof.
  intros Hall Hv. apply bounded_by60_units.
  unfold productsBounded in Hall.
  apply (forallb_zrange _ _ _ Hall). unfold inRange in Hv. lia.
Qed.

Lemma add_product_bound (w : float64) (P N : Z) (x : float64) (v : Z) :
  productsBounded w P = true -> bounded_by N x -> inRange v ->
  N + P * 2 ^ 1014 < 2 ^ 1084 ->
  bounded_by (up (N + P * 2 ^ 1014)) (x + F64.of_int v * w)%f64.
Proof.
  intros Hw Hx Hv Hsmall. apply add_bound; [done | | done].
  apply product_bound; done.
Qed.

(** The bounds of the products, in units of [2^-60]: the values of
    [100 * w] rounded up. *)
Definition P_0_5 : Z := 50 * 2 ^ 60.
Definition P_0_1 : Z := 10 * 2 ^ 60 + 2 ^ 12.
Definition P_0_2 : Z := 20 * 2 ^ 60 + 2 ^ 12.
Definition P_0_3 : Z := 30 * 2 ^ 60 + 2 ^ 12.
Definition P_0_15 : Z := 15 * 2 ^ 60 + 2 ^ 12.
Definition P_0_25 : Z := 25 * 2 ^ 60.

Lemma products_0_5 : productsBounded (F64.lit 5 10) P_0_5 = true.
Proof. vm_compute. reflexivity. Qed.

Lemma products_0_1 : productsBounded (F64.lit 1 10) P_0_1 = true.
Proof. vm_compute. reflexivity. Qed.

Lemma products_0_2 : productsBounded (F64.lit 2 10) P_0_2 = true.
Proof. vm_compute. reflexivity. Qed.

Lemma products_0_3 : productsBounded (F64.lit 3 10) P_0_3 = true.
Proof. vm_compute. reflexivity. Qed.

Lemma products_0_15 : productsBounded (F64.lit 15 100) P_0_15 = true.
Proof. vm_compute. reflexivity. Qed.

Lemma products_0_25 : productsBounded (F64.lit 25 100) P_0_25 = true.
Proof. vm_compute. reflexivity. Qed.

Lemma GetGoalkeeperRating_range (a : Attributes) :
  AttributesInRange a -> inRange (GetGoalkeeperRating a).
Proof.
  intros [].
  unfold GetGoalkeeperRating, inRange.
  eapply to_int_bound.
  - eapply add_product_bound; [exact products_0_1 | | done | shelve].
    eapply add_product_bound; [exact products_0_1 | | done | shelve].
    eapply add_product_bound; [exact products_0_2 | | done | shelve].
    eapply add_product_bound; [exact products_0_1 | | done | shelve].
    apply product_bound; [exact products_0_5 | done].
  - vm_compute. reflexivity.
  Unshelve. all: vm_compute; reflexivity.
Qed.

Lemma GetDefenderRating_range (a : Attributes) :
  AttributesInRange a -> inRange (GetDefenderRating a).
Proof.
  intros [].
  unfold GetDefenderRating, inRange.
  eapply to_int_bound.
  - eapply add_product_bound; [exact products_0_1 | | done | shelve].
    eapply add_product_bound; [exact products_0_1 | | done | shelve].
    eapply add_product_bound; [exact products_0_15 | | done | shelve].
    eapply add_product_bound; [exact products_0_15 | | done | shelve].
    eapply add_product_bound; [exact products_0_2 | | done | shelve].
    apply product_bound; [exact products_0_3 | done].
  - vm_compute. reflexivity.
  Unshelve. all: vm_compute; reflexivity.
Qed.

Lemma GetMidfielderRating_range (a : Attributes) :
  AttributesInRange a -> inRange (GetMidfielderRating a).
Proof.
  intros [].
  unfold GetMidfielderRating, inRange.
  eapply to_int_bound.
  - eapply add_product_bound; [exact products_0_1 | | done | shelve].
    eapply add_product_bound; [exact products_0_15 | | done | shelve].
    eapply add_product_bound; [exact products_0_15 | | done | shelve].
    eapply add_product_bound; [exact products_0_15 | | done | shelve].
    eapply add_product_bound; [exact products_0_2 | | done | shelve].
    apply product_bound; [exact products_0_25 | done].
  - vm_compute. reflexivity.
  Unshelve. all: vm_compute; reflexivity.
Qed.

Lemma GetForwardRating_range (a : Attributes) :
  AttributesInRange a -> inRange (GetForwardRating a).
Proof.
  intros [].
  unfold GetForwardRating, inRange.
  eapply to_int_bound.
  - eapply add_product_bound; [exact products_0_15 | | done | shelve].
    eapply add_product_bound; [exact products_0_15 | | done | shelve].
    eapply add_product_bound; [exact products_0_2 | | done | shelve].
    eapply add_product_bound; [exact products_0_2 | | done | shelve].
    apply product_bound; [exact products_0_3 | done].
  - vm_compute. reflexivity.
  Unshelve. all: vm_compute; reflexivity.
Qed.

Lemma GetOverallRating_range (p : Player) :
  AttributesInRange (PlayerAttributes p) -> inRange (GetOverallRating p).
Proof.
  intros Ha. unfold GetOverallRating.
  destruct (String.eqb _ PositionGK); [by apply GetGoalkeeperRating_range |].
  destruct (String.eqb _ PositionDEF); [by apply GetDefenderRating_range |].
  destruct (String.eqb _ PositionMID); [by apply GetMidfielderRating_range |].
  destruct (String.eqb _ PositionFWD); [by apply GetForwardRating_range |].
  apply Ha.
Qed.

(** ** The clamps on integers *)

Lemma clamp0_100_small (v : Z) : 0 <= v <= 102 -> clamp0_100 v = Z.min v 100.
Proof.
  intros Hv. apply Z.eqb_eq.
  apply (forallb_zrange (fun v => clamp0_100 v =? Z.min v 100) 0 103); [| lia].
  vm_compute. reflexivity.
Qed.

Lemma min100_small (v : Z) : 0 <= v <= 101 -> min100 v = Z.min v 100.
Proof.
  intros Hv. apply Z.eqb_eq.
  apply (forallb_zrange (fun v => min100 v =? Z.min v 100) 0 102); [| lia].
  vm_compute. reflexivity.
Qed.

Lemma max30_small (v : Z) : -1 <= v <= 100 -> max30 v = Z.max v 30.
Proof.
  intros Hv. apply Z.eqb_eq.
  apply (forallb_zrange (fun v => max30 v =? Z.max v 30) (-1) 102); [| lia].
  vm_compute. reflexivity.
Qed.

Lemma clamp_add_range (v c : Z) :
  inRange v -> 0 <= c <= 2 -> inRange (clamp0_100 (Int.add v c)).
Proof.
  unfold inRange. intros Hv Hc.
  rewrite Int.add_small by (unfold Int.min_int, Int.max_int; lia).
  rewrite clamp0_100_small by lia. lia.
Qed.

Lemma getAttributeValue_range (p : Player) (attr : string) :
  AttributesInRange (PlayerAttributes p) -> inRange (getAttributeValue p attr).
Proof.
  intros []. unfold getAttributeValue. cbv zeta.
  repeat match goal with
         | |- context [String.eqb attr ?x] => destruct (String.eqb attr x); [done |]
         end.
  unfold inRange. lia.
Qed.

Lemma keptInRange_refl (p : Player) :
  AttributesInRange (PlayerAttributes p) -> keptInRange p p.
Proof. intros Ha. split; [exact Ha | done]. Qed.

Lemma keptInRange_trans (p p' p'' : Player) :
  keptInRange p p' -> keptInRange p' p'' -> keptInRange p p''.
Proof.
  intros (_ & Hf & Hm & Ho) (Ha & Hf' & Hm' & Ho').
  split; [exact Ha |]. repeat split; congruence.
Qed.

Lemma applyAttributeChange_kept (p : Player) (attr : string) (c : Z) :
  AttributesInRange (PlayerAttributes p) -> 0 <= c <= 2 ->
  keptInRange p (applyAttributeChange p attr c).
Proof.
  intros Ha Hc. unfold applyAttributeChange. cbv zeta.
  repeat match goal with
         | |- context [String.eqb attr ?x] =>
             destruct (String.eqb attr x);
             [destruct Ha; split;
              [constructor; simpl; (assumption || by apply clamp_add_range) | done] |]
         end.
  by apply keptInRange_refl.
Qed.

Section DevelopmentRanges.
Context {RS : RandSource}.

(** The improvement is 0, 1 or 2 and never takes the attribute above 95. *)
Lemma calculateImprovement_range (p : Player) (attr : string) (s : rng) :
  0 <= fst (calculateImprovement p attr s) <= 2
  /\ (0 < fst (calculateImprovement p attr s) ->
      getAttributeValue p attr + fst (calculateImprovement p attr s) <= 95).
Proof.
  unfold calculateImprovement, bind, ret.
  destruct (Z.leb_spec 95 (getAttributeValue p attr)); [cbn; lia |].
  destruct (Z.leb_spec 90 (getAttributeValue p attr)).
  { destruct (Float64 s) as [u s']. destruct (u <? F64.lit 1 10)%f64; cbn; lia. }
  destruct (Z.leb_spec 80 (getAttributeValue p attr)).
  { destruct (Float64 s) as [u s']. destruct (u <? F64.lit 3 10)%f64; cbn; lia. }
  pose proof (Intn_range 2 s ltac:(lia)) as Hk.
  destruct (Intn 2 s) as [k s']. cbn [fst] in *.
  rewrite Int.add_small by (unfold Int.min_int, Int.max_int; lia). lia.
Qed.

Lemma improveAttribute_kept (threshold : float64) (attr : string)
    (p : Player) (r : TrainingResult) (s : rng) :
  AttributesInRange (PlayerAttributes p) ->
  keptInRange p (fst (fst (improveAttribute threshold attr (p, r) s))).
Proof.
  intros Ha. unfold improveAttribute, bind, ret.
  destruct (Float64 s) as [u s1].
  destruct (u <? threshold)%f64; [| by apply keptInRange_refl].
  pose proof (calculateImprovement_range p attr s1) as [Hr _].
  destruct (calculateImprovement p attr s1) as [imp s2]. cbn [fst] in Hr.
  destruct (0 <? imp); cbn [fst]; [| by apply keptInRange_refl].
  apply applyAttributeChange_kept; done.
Qed.

Lemma forAttrs_kept (threshold : float64) (attrs : list string)
    (p : Player) (r : TrainingResult) (s : rng) :
  AttributesInRange (PlayerAttributes p) ->
  keptInRange p (fst (fst (forAttrs (improveAttribute threshold) attrs (p, r) s))).
Proof.
  revert p r s. induction attrs as [| attr rest IH]; intros p r s Ha.
  - by apply keptInRange_refl.
  - cbn [forAttrs]. unfold bind at 1.
    pose proof (improveAttribute_kept threshold attr p r s Ha) as H1.
    destruct (improveAttribute threshold attr (p, r) s) as [[p1 r1] s1].
    cbn [fst] in H1.
    eapply keptInRange_trans; [exact H1 |]. apply IH. apply H1.
Qed.

Lemma trainGeneralLoop_kept (n : nat) (chance : float64)
    (p : Player) (r : TrainingResult) (s : rng) :
  AttributesInRange (PlayerAttributes p) ->
  keptInRange p (fst (fst (trainGeneralLoop n chance (p, r) s))).
Proof.
  revert p r s. induction n as [| n IH]; intros p r s Ha.
  - by apply keptInRange_refl.
  - cbn [trainGeneralLoop]. unfold bind at 1.
    destruct (Intn (Z.of_nat (length allAttrs)) s) as [k s0].
    unfold bind at 1.
    pose proof (improveAttribute_kept (chance * F64.lit 5 10)%f64
                  (nth (Z.to_nat k) allAttrs "") p r s0 Ha) as H1.
    destruct (improveAttribute _ _ (p, r) s0) as [[p1 r1] s1].
    cbn [fst] in H1.
    eapply keptInRange_trans; [exact H1 |]. apply IH. apply H1.
Qed.

(** The goalkeeper's Keeping increment of set-pieces training, added
    without a clamp, stays at or below 95. *)
Lemma trainSetPieces_kept (p : Player) (chance : float64) (r : TrainingResult) (s : rng) :
  AttributesInRange (PlayerAttributes p) ->
  keptInRange p (fst (fst (trainSetPieces p chance r s))).
Proof.
  intros Ha. unfold trainSetPieces.
  destruct (String.eqb (PlayerPosition p) PositionGK); [| by apply forAttrs_kept].
  unfold bind, ret.
  destruct (Float64 s) as [u s1].
  destruct (u <? chance)%f64; [| by apply keptInRange_refl].
  pose proof (calculateImprovement_range p "Keeping" s1) as [Hr Hle].
  destruct (calculateImprovement p "Keeping" s1) as [imp s2]. cbn [fst] in Hr, Hle.
  destruct (Z.ltb_spec 0 imp); cbn [fst]; [| by apply keptInRange_refl].
  specialize (Hle ltac:(done)).
  change (getAttributeValue p "Keeping") with (Keeping (PlayerAttributes p)) in Hle.
  destruct Ha. split; [constructor; simpl; try assumption | done].
  unfold inRange in *.
  rewrite Int.add_small by (unfold Int.min_int, Int.max_int; lia). lia.
Qed.

Lemma ProcessTraining_kept (dm : DevelopmentManager) (now : Time) (p : Player)
    (trainingType : TrainingType) (intensity : float64) :
  AttributesInRange (PlayerAttributes p) ->
  keptInRange p (snd (fst (ProcessTraining dm now p trainingType intensity))).
Proof.
  intros Ha. unfold ProcessTraining.
  set (result := mkTrainingResult ∅ F64.zero F64.zero).
  set (chance := calculateImprovementChance now p).
  assert (Htrain : forall train,
    keptInRange p (fst (fst (train p chance result (rand dm)))) ->
    keptInRange p (snd (fst (
      let '(player', result0, s) := train p chance result (rand dm) in
      (mkTrainingResult (AttributeChanges result0) (F64.of_int (-5) * intensity)%f64
         (if (intensity <? F64.lit 7 10)%f64 then F64.of_int 2
          else if (F64.lit 9 10 <? intensity)%f64 then F64.of_int (-3)
          else MoraleChange result0),
       player', mkDevelopmentManager s))))).
  { intros train H. destruct (train p chance result (rand dm)) as [[p' r'] s']. exact H. }
  destruct (String.eqb trainingType TrainingTechnical).
  { apply Htrain. by apply forAttrs_kept. }
  destruct (String.eqb trainingType TrainingPhysical).
  { apply Htrain. by apply forAttrs_kept. }
  destruct (String.eqb trainingType TrainingTactical).
  { apply Htrain. by apply forAttrs_kept. }
  destruct (String.eqb trainingType TrainingSetPieces).
  { apply Htrain. by apply trainSetPieces_kept. }
  apply Htrain. unfold trainGeneral, bind at 1.
  destruct (Intn 2 (rand dm)) as [k s0]. by apply trainGeneralLoop_kept.
Qed.

End DevelopmentRanges.

Section NaturalDevelopmentRanges.
Context {RS : RandSource}.

Lemma plus_one_range (v : Z) : inRange v -> inRange (min100 (Int.add v 1)).
Proof.
  unfold inRange. intros Hv.
  rewrite Int.add_small by (unfold Int.min_int, Int.max_int; lia).
  rewrite min100_small by lia. lia.
Qed.

Lemma minus_one_range (v : Z) : inRange v -> inRange (max30 (Int.sub v 1)).
Proof.
  unfold inRange. intros Hv.
  rewrite Int.sub_small by (unfold Int.min_int, Int.max_int; lia).
  rewrite max30_small by lia. lia.
Qed.

Lemma youngPlayerDevelopment_kept (now : Time) (p : Player) (s : rng) :
  AttributesInRange (PlayerAttributes p) ->
  keptInRange p (fst (youngPlayerDevelopment now p s)).
Proof.
  intros Ha. unfold youngPlayerDevelopment, bind at 1.
  assert (H1 : keptInRange p (fst (
    (if Age now p <? 21
     then bind Float64 (fun u =>
            if (u <? F64.lit 3 10)%f64
            then ret (set_Attributes p
                        (set_Stamina
                           (set_Speed (PlayerAttributes p)
                              (min100 (Int.add (Speed (PlayerAttributes p)) 1)))
                           (min100 (Int.add
                              (Stamina (set_Speed (PlayerAttributes p)
                                 (min100 (Int.add (Speed (PlayerAttributes p)) 1)))) 1))))
            else ret p)
     else ret p) s))).
  { destruct (Age now p <? 21); [| by apply keptInRange_refl].
    unfold bind, ret. destruct (Float64 s) as [u s1].
    destruct (u <? F64.lit 3 10)%f64; [| by apply keptInRange_refl].
    cbn [fst]. destruct Ha.
    split; [constructor; simpl; (assumption || by apply plus_one_range) | done]. }
  match goal with
  | |- context [let (a, s') := ?m s in _] => destruct (m s) as [p1 s1]
  end.
  cbn [fst] in H1.
  eapply keptInRange_trans; [exact H1 |].
  unfold bind, ret. destruct (Float64 s1) as [u s2].
  destruct (u <? _)%f64; [| apply keptInRange_refl, H1].
  destruct (Intn _ s2) as [k s3]. cbn [fst].
  apply applyAttributeChange_kept; [apply H1 | lia].
Qed.

Lemma veteranDecline_kept (now : Time) (p : Player) (s : rng) :
  AttributesInRange (PlayerAttributes p) ->
  keptInRange p (fst (veteranDecline now p s)).
Proof.
  intros Ha. unfold veteranDecline, bind, ret.
  destruct (Float64 s) as [u1 s1].
  set (p1 := if (u1 <? _)%f64 then _ else p).
  assert (H1 : keptInRange p p1).
  { subst p1. destruct (u1 <? _)%f64; [| by apply keptInRange_refl].
    destruct Ha.
    split; [constructor; simpl; (assumption || by apply minus_one_range) | done]. }
  destruct (Float64 s1) as [u2 s2].
  set (p2 := if (u2 <? _)%f64 then _ else p1).
  assert (H2 : keptInRange p1 p2).
  { subst p2. destruct (u2 <? _)%f64; [| apply keptInRange_refl, H1].
    destruct H1 as [[] _].
    split; [constructor; simpl; (assumption || by apply minus_one_range) | done]. }
  destruct (Float64 s2) as [u3 s3].
  set (p3 := if (u3 <? _)%f64 then _ else p2).
  assert (H3 : keptInRange p2 p3).
  { subst p3. destruct (u3 <? _)%f64; [| apply keptInRange_refl, H2].
    destruct H2 as [[] _].
    split; [constructor; simpl; (assumption || by apply plus_one_range) | done]. }
  cbn [fst].
  eapply keptInRange_trans; [exact H1 |].
  eapply keptInRange_trans; [exact H2 | exact H3].
Qed.

Lemma ProcessNaturalDevelopment_kept (dm : DevelopmentManager) (now : Time) (p : Player) :
  AttributesInRange (PlayerAttributes p) ->
  keptInRange p (fst (ProcessNaturalDevelopment dm now p)).
Proof.
  intros Ha. unfold ProcessNaturalDevelopment. cbv zeta.
  assert (H1 : keptInRange p (fst (
    if Age now p <? 23 then youngPlayerDevelopment now p (rand dm)
    else if 30 <? Age now p then veteranDecline now p (rand dm)
    else (p, rand dm)))).
  { destruct (Age now p <? 23); [by apply youngPlayerDevelopment_kept |].
    destruct (30 <? Age now p); [by apply veteranDecline_kept |].
    by apply keptInRange_refl. }
  destruct (if Age now p <? 23 then _ else _) as [p1 s1].
  cbn [fst] in *.
  eapply keptInRange_trans; [exact H1 |].
  pose proof (GetOverallRating_range p1 (proj1 H1)) as Hq.
  destruct H1 as [[] _].
  split; [constructor; simpl; assumption | done].
Qed.

End NaturalDevelopmentRanges.

(** ** The clamps of the fitness engine *)

Lemma Max_zero_not_below (x : float64) : (F64.Max F64.zero x <? F64.zero)%f64 = false.
Proof. destruct x as [[] | [] | | [] m e]; reflexivity. Qed.

Lemma Min_hundred_not_above (x : float64) :
  (F64.of_int 100 <? F64.Min (F64.of_int 100) x)%f64 = false.
Proof.
  unfold F64.Min.
  destruct x as [s | [] | | s m e]; try reflexivity.
  change (F64.IsInf (F64.of_int 100) true || F64.IsInf (S754_finite s m e) true) with false.
  change (F64.IsNaN (F64.of_int 100) || F64.IsNaN (S754_finite s m e)) with false.
  change (F64.eqb (F64.of_int 100) F64.zero) with false.
  cbn [andb].
  destruct (F64.of_int 100 <? S754_finite s m e)%f64 eqn:Hlt; [reflexivity | exact Hlt].
Qed.

Lemma PlayerInRange_kept (p p' : Player) :
  PlayerInRange p -> keptInRange p p' -> PlayerInRange p'.
Proof.
  intros (Hf & Hm & Ho & _) (Ha & Ef & Em & Eo).
  unfold PlayerInRange. rewrite Ef, Em, Eo. done.
Qed.

Lemma midfielder_in_range : PlayerInRange midfielder.
Proof.
  repeat split; try reflexivity; vm_compute; discriminate.
Qed.

(** C1 fails on the code of the fitness engine, whose clamps are
    one-sided: [math.Max(0, ...)] after a match and [math.Min(100, ...)]
    after a recovery.  A negative match intensity takes the Fitness of a
    player in range (100) above 100, and a training intensity above 2
    takes a Fitness of 5 below 0. *)
Lemma fitness_escapes_range :
  PlayerInRange midfielder
  /\ (F64.of_int 100 <?
        Fitness (ApplyMatchFitness NewFitnessManager day200of2025 midfielder 90
                   (F64.of_int (-1))))%f64 = true
  /\ PlayerInRange tiredMidfielder
  /\ (Fitness (ApplyDailyRecovery NewFitnessManager day200of2025 tiredMidfielder
                 (F64.of_int 3)) <? F64.zero)%f64 = true.
Proof.
  split; [exact midfielder_in_range |].
  split; [vm_compute; reflexivity |].
  split; [| vm_compute; reflexivity].
  repeat split; try reflexivity; vm_compute; discriminate.
Qed.

(** ** What training leaves alone *)

(** Fitness, Morale and Form of the player and the two change fields of
    the result are the same in both states. *)
Definition sameCondition (st st' : Player * TrainingResult) : Prop :=
  Fitness (fst st') = Fitness (fst st)
  /\ Morale (fst st') = Morale (fst st)
  /\ Form (fst st') = Form (fst st)
  /\ FitnessChange (snd st') = FitnessChange (snd st)
  /\ MoraleChange (snd st') = MoraleChange (snd st).

Lemma sameCondition_refl (st : Player * TrainingResult) : sameCondition st st.
Proof. repeat split. Qed.

Lemma sameCondition_trans (st st' st'' : Player * TrainingResult) :
  sameCondition st st' -> sameCondition st' st'' -> sameCondition st st''.
Proof.
  intros (H1 & H2 & H3 & H4 & H5) (H1' & H2' & H3' & H4' & H5').
  repeat split; congruence.
Qed.

Lemma applyAttributeChange_condition (p : Player) (attr : string) (c : Z) :
  Fitness (applyAttributeChange p attr c) = Fitness p
  /\ Morale (applyAttributeChange p attr c) = Morale p
  /\ Form (applyAttributeChange p attr c) = Form p.
Proof.
  unfold applyAttributeChange. cbv zeta.
  repeat match goal with
         | |- context [String.eqb attr ?x] => destruct (String.eqb attr x); [done |]
         end.
  done.
Qed.

Section TrainingFrame.
Context {RS : RandSource}.

Lemma improveAttribute_condition (threshold : float64) (attr : string)
    (st : Player * TrainingResult) (s : rng) :
  sameCondition st (fst (improveAttribute threshold attr st s)).
Proof.
  destruct st as [p r]. unfold improveAttribute, bind, ret.
  destruct (Float64 s) as [u s1].
  destruct (u <? threshold)%f64; [| apply sameCondition_refl].
  destruct (calculateImprovement p attr s1) as [imp s2].
  destruct (0 <? imp); [| apply sameCondition_refl].
  pose proof (applyAttributeChange_condition p attr imp) as (H1 & H2 & H3).
  repeat split; done.
Qed.

Lemma forAttrs_condition (threshold : float64) (attrs : list string)
    (st : Player * TrainingResult) (s : rng) :
  sameCondition st (fst (forAttrs (improveAttribute threshold) attrs st s)).
Proof.
  revert st s. induction attrs as [| attr rest IH]; intros st s.
  - apply sameCondition_refl.
  - cbn [forAttrs]. unfold bind at 1.
    pose proof (improveAttribute_condition threshold attr st s) as H1.
    destruct (improveAttribute threshold attr st s) as [st1 s1].
    eapply sameCondition_trans; [exact H1 | apply IH].
Qed.

Lemma trainGeneralLoop_condition (n : nat) (chance : float64)
    (st : Player * TrainingResult) (s : rng) :
  sameCondition st (fst (trainGeneralLoop n chance st s)).
Proof.
  revert st s. induction n as [| n IH]; intros st s.
  - apply sameCondition_refl.
  - cbn [trainGeneralLoop]. unfold bind at 1.
    destruct (Intn (Z.of_nat (length allAttrs)) s) as [k s0].
    unfold bind at 1.
    pose proof (improveAttribute_condition (chance * F64.lit 5 10)%f64
                  (nth (Z.to_nat k) allAttrs "") st s0) as H1.
    destruct (improveAttribute _ _ st s0) as [st1 s1].
    eapply sameCondition_trans; [exact H1 | apply IH].
Qed.

Lemma trainSetPieces_condition (p : Player) (chance : float64) (r : TrainingResult) (s : rng) :
  sameCondition (p, r) (fst (trainSetPieces p chance r s)).
Proof.
  unfold trainSetPieces.
  destruct (String.eqb (PlayerPosition p) PositionGK); [| apply forAttrs_condition].
  unfold bind, ret.
  destruct (Float64 s) as [u s1].
  destruct (u <? chance)%f64; [| apply sameCondition_refl].
  destruct (calculateImprovement p "Keeping" s1) as [imp s2].
  destruct (0 <? imp); [| apply sameCondition_refl].
  repeat split.
Qed.

(** Every training function leaves the condition of the player alone. *)
Lemma train_condition (trainingType : TrainingType) (p : Player) (chance : float64)
    (r : TrainingResult) (s : rng) :
  sameCondition (p, r)
    (fst ((if String.eqb trainingType TrainingTechnical then trainTechnical
           else if String.eqb trainingType TrainingPhysical then trainPhysical
           else if String.eqb trainingType TrainingTactical then trainTactical
           else if String.eqb trainingType TrainingSetPieces then trainSetPieces
           else trainGeneral) p chance r s)).
Proof.
  destruct (String.eqb trainingType TrainingTechnical); [apply forAttrs_condition |].
  destruct (String.eqb trainingType TrainingPhysical); [apply forAttrs_condition |].
  destruct (String.eqb trainingType TrainingTactical); [apply forAttrs_condition |].
  destruct (String.eqb trainingType TrainingSetPieces); [apply trainSetPieces_condition |].
  unfold trainGeneral, bind at 1.
  destruct (Intn 2 s) as [k s0]. apply trainGeneralLoop_condition.
Qed.

(** C4 (amended): [ProcessTraining] does not change the player's Fitness
    or Morale.  It reports, in the returned [TrainingResult], a
    [FitnessChange] of exactly [-5 * intensity] and a [MoraleChange] of 2
    when [intensity < 0.7], of -3 when [intensity > 0.9] and of 0
    otherwise. *)
Theorem ProcessTraining_reports_changes (dm : DevelopmentManager) (now : Time)
    (player : Player) (trainingType : TrainingType) (intensity : float64) :
  let result := fst (fst (ProcessTraining dm now player trainingType intensity)) in
  let player' := snd (fst (ProcessTraining dm now player trainingType intensity)) in
  FitnessChange result = (F64.of_int (-5) * intensity)%f64
  /\ MoraleChange result =
       (if (intensity <? F64.lit 7 10)%f64 then F64.of_int 2
        else if (F64.lit 9 10 <? intensity)%f64 then F64.of_int (-3)
        else F64.zero)
  /\ Fitness player' = Fitness player
  /\ Morale player' = Morale player.
Proof.
  cbv zeta. unfold ProcessTraining. cbv zeta.
  pose proof (train_condition trainingType player (calculateImprovementChance now player)
                (mkTrainingResult ∅ F64.zero F64.zero) (rand dm)) as H.
  match type of H with
  | sameCondition _ (fst ?t) => destruct t as [[p' r'] s']
  end.
  destruct H as (Hf & Hm & _ & _ & Hmc). cbn [fst snd] in *.
  cbn [FitnessChange MoraleChange]. rewrite Hmc. done.
Qed.

End TrainingFrame.

(** C4 as stated fails: after a technical session at intensity 0.5 the
    midfielder's Fitness is still 100, not 100 - 2.5, and the Morale is
    still 75, not 77. *)
Lemma training_leaves_fitness_and_morale :
  let player' :=
    snd (fst (ProcessTraining NewDevelopmentManager day200of2025 midfielder
                TrainingTechnical (F64.lit 5 10))) in
  Fitness player' = F64.of_int 100
  /\ Fitness player' <> (Fitness midfielder - F64.of_int 5 * F64.lit 5 10)%f64
  /\ Morale player' = F64.of_int 75
  /\ Morale player' <> (Morale midfielder + F64.of_int 2)%f64.
Proof. vm_compute. repeat split; discriminate. Qed.

(** ** Match fatigue *)

Lemma ltb_asym (x y : float64) : (x <? y)%f64 = true -> (y <? x)%f64 = false.
Proof.
  unfold F64.ltb, SFltb, SFcompare.
  destruct x as [sx | sx | | sx mx ex], y as [sy | sy | | sy my ey];
    try destruct sx; try destruct sy; try done.
  - rewrite (Z.compare_antisym ex ey). destruct (ex ?= ey); cbn; try done.
    change (Pos.compare_cont Eq my mx) with (my ?= mx)%positive.
    change (Pos.compare_cont Eq mx my) with (mx ?= my)%positive.
    rewrite (Pos.compare_antisym mx my). destruct (mx ?= my)%positive; cbn; done.
  - rewrite (Z.compare_antisym ex ey). destruct (ex ?= ey); cbn; try done.
    change (Pos.compare_cont Eq my mx) with (my ?= mx)%positive.
    change (Pos.compare_cont Eq mx my) with (mx ?= my)%positive.
    rewrite (Pos.compare_antisym mx my). destruct (mx ?= my)%positive; cbn; done.
Qed.

Lemma ltb_irrefl (x : float64) : (x <? x)%f64 = false.
Proof.
  destruct (x <? x)%f64 eqn:H; [| reflexivity].
  pose proof (ltb_asym x x H). congruence.
Qed.

Lemma ltb_trans (x y z : float64) :
  (x <? y)%f64 = true -> (y <? z)%f64 = true -> (x <? z)%f64 = true.
Proof.
  unfold F64.ltb, SFltb, SFcompare.
  destruct x as [sx | sx | | sx mx ex], y as [sy | sy | | sy my ey],
           z as [sz | sz | | sz mz ez];
    try destruct sx; try destruct sy; try destruct sz; try done.
  all: repeat match goal with
              | |- context [Pos.compare_cont Eq ?a ?b] =>
                  change (Pos.compare_cont Eq a b) with (Pos.compare a b)
              end.
  all: destruct (Z.compare_spec ex ey); try done;
       destruct (Z.compare_spec ey ez); try done;
       destruct (Z.compare_spec ex ez); try done; try lia.
  all: subst; cbn;
       destruct (Pos.compare_spec mx my); try done;
       destruct (Pos.compare_spec my mz); try done;
       destruct (Pos.compare_spec mx mz); try done; lia.
Qed.

Lemma Min_sixty_not_above (x : float64) :
  (F64.of_int 60 <? F64.Min x (F64.of_int 60))%f64 = false.
Proof.
  unfold F64.Min.
  destruct x as [s | [] | | s m e]; try reflexivity.
  change (F64.IsInf (S754_finite s m e) true || F64.IsInf (F64.of_int 60) true) with false.
  change (F64.IsNaN (S754_finite s m e) || F64.IsNaN (F64.of_int 60)) with false.
  replace (F64.eqb (S754_finite s m e) F64.zero) with false by (by destruct s).
  cbn [andb].
  destruct (S754_finite s m e <? F64.of_int 60)%f64 eqn:Hlt; [| reflexivity].
  apply ltb_asym, Hlt.
Qed.

(** C6: [CalculateMatchFatigue] returns 0 when no minute was played and
    otherwise
    [min(60, minutes * 0.15 * intensity * (1.5 - Stamina/100) * agePenalty
    * positionFactor)], the age penalty [1 + (age-30)*0.05] applied only
    above 30 and the position factor being 0.6 for GK, 0.85 for DEF, 1.15
    for MID and 1.0 for FWD; the result is never above 60.  For a
    25-year-old MID with Stamina 80 playing 90 minutes at intensity 1.0 the
    result is the float64 value of [90*0.15*1.0*(1.5-0.8)*1.15], below the
    cap of 60; it is 6117858618806107 * 2^-49, which is 10.8675 to within
    10^-14 (and 10.87 to two decimals). *)
Theorem CalculateMatchFatigue_formula :
  (forall now player minutesPlayed intensity,
     CalculateMatchFatigue NewFitnessManager now player minutesPlayed intensity
     = MatchFatigue now player minutesPlayed intensity)
  /\ (forall now player intensity,
        CalculateMatchFatigue NewFitnessManager now player 0 intensity = F64.zero)
  /\ (forall now player minutesPlayed intensity,
        (F64.of_int 60 <?
           CalculateMatchFatigue NewFitnessManager now player minutesPlayed intensity)%f64
        = false)
  /\ Age day200of2025 midfielder = 25
  /\ PlayerPosition midfielder = PositionMID
  /\ Stamina (PlayerAttributes midfielder) = 80
  /\ (let result :=
        CalculateMatchFatigue NewFitnessManager day200of2025 midfielder 90 (F64.of_int 1) in
      result
      = (F64.of_int 90 * F64.lit 15 100 * F64.of_int 1 * (F64.lit 15 10 - F64.lit 8 10)
         * F64.lit 115 100)%f64
      /\ (result <? F64.of_int 60)%f64 = true
      /\ result = S754_finite false 6117858618806107 (-49)
      /\ F64.exact result = Some (6117858618806107, 2 ^ 49)
      /\ Z.abs (10000 * 6117858618806107 - 108675 * 2 ^ 49) * 10 ^ 14 < 10000 * 2 ^ 49
      /\ 10865 * 2 ^ 49 <= 1000 * 6117858618806107 < 10875 * 2 ^ 49).
Proof.
  split; [| split; [| split]].
  - intros now player minutesPlayed intensity.
    unfold CalculateMatchFatigue, MatchFatigue, agePenalty, positionFactor.
    cbn [fatigueRate NewFitnessManager].
    destruct (minutesPlayed =? 0); [reflexivity |].
    cbv zeta.
    destruct (30 <? Age now player);
      destruct (String.eqb (PlayerPosition player) PositionGK);
      destruct (String.eqb (PlayerPosition player) PositionDEF);
      destruct (String.eqb (PlayerPosition player) PositionMID);
      destruct (String.eqb (PlayerPosition player) PositionFWD); reflexivity.
  - reflexivity.
  - intros now player minutesPlayed intensity. unfold CalculateMatchFatigue.
    destruct (minutesPlayed =? 0); [reflexivity |].
    cbv zeta. apply Min_sixty_not_above.
  - split; [vm_compute; reflexivity |]. split; [vm_compute; reflexivity |].
    split; [vm_compute; reflexivity |]. cbv zeta.
    split; [vm_compute; reflexivity |]. split; [vm_compute; reflexivity |].
    split; [vm_compute; reflexivity |]. split; [vm_compute; reflexivity |].
    split; [vm_compute; reflexivity |].
    split; [vm_compute; discriminate | vm_compute; reflexivity].
Qed.

(** ** Natural development below 23 *)

Lemma clamp_plus_one (v : Z) : inRange v -> clamp0_100 (Int.add v 1) = plusOne v.
Proof.
  unfold inRange, plusOne. intros Hv.
  rewrite Int.add_small by (unfold Int.min_int, Int.max_int; lia).
  apply clamp0_100_small. lia.
Qed.

Lemma min100_plus_one (v : Z) : inRange v -> min100 (Int.add v 1) = plusOne v.
Proof.
  unfold inRange, plusOne. intros Hv.
  rewrite Int.add_small by (unfold Int.min_int, Int.max_int; lia).
  apply min100_small. lia.
Qed.

Lemma applyAttributeChange_pick (p : Player) (k : Z) :
  AttributesInRange (PlayerAttributes p) -> 0 <= k < 4 ->
  applyAttributeChange p
    (nth (Z.to_nat k) ["Passing"; "BallControl"; "Perception"; "Tackling"] "") 1
  = set_Attributes p (improvePick k (PlayerAttributes p)).
Proof.
  intros [] Hk.
  assert (Hcases : k = 0 \/ k = 1 \/ k = 2 \/ k = 3) by lia.
  destruct Hcases as [-> | [-> | [-> | ->]]].
  - change (nth (Z.to_nat 0) _ "") with "Passing".
    unfold applyAttributeChange, improvePick; cbn.
    rewrite clamp_plus_one by done; reflexivity.
  - change (nth (Z.to_nat 1) _ "") with "BallControl".
    unfold applyAttributeChange, improvePick; cbn.
    rewrite clamp_plus_one by done; reflexivity.
  - change (nth (Z.to_nat 2) _ "") with "Perception".
    unfold applyAttributeChange, improvePick; cbn.
    rewrite clamp_plus_one by done; reflexivity.
  - change (nth (Z.to_nat 3) _ "") with "Tackling".
    unfold applyAttributeChange, improvePick; cbn.
    rewrite clamp_plus_one by done; reflexivity.
Qed.

Section NaturalDevelopmentYoung.
Context {RS : RandSource}.

(** C5 (amended): for a player of age below 23 (with attributes in
    range), [ProcessNaturalDevelopment] takes, only when the age is below
    21, one draw that gives at 30% +1 Speed and +1 Stamina, each clamped
    to 100; then one draw that gives, with probability Potential/200, one
    attribute drawn from Passing, BallControl, Perception, Tackling a +1
    clamped to 100; afterwards Quality is the position overall rating. *)
Theorem ProcessNaturalDevelopment_young (dm : DevelopmentManager) (now : Time) (p : Player) :
  AttributesInRange (PlayerAttributes p) -> Age now p < 23 ->
  ProcessNaturalDevelopment dm now p
  = (fst (youngDevelopment 21 now p (rand dm)),
     mkDevelopmentManager (snd (youngDevelopment 21 now p (rand dm)))).
Proof.
  intros Ha Hage. unfold ProcessNaturalDevelopment. cbv zeta.
  replace (Age now p <? 23) with true by (symmetry; apply Z.ltb_lt; done).
  unfold youngPlayerDevelopment, youngDevelopment, bind, ret. cbv zeta.
  assert (Hgrown : AttributesInRange
    (set_Stamina (set_Speed (PlayerAttributes p) (plusOne (Speed (PlayerAttributes p))))
       (plusOne (Stamina (PlayerAttributes p))))).
  { destruct Ha. constructor; simpl; try assumption; unfold inRange, plusOne in *; lia. }
  assert (Hp : set_Attributes p (PlayerAttributes p) = p) by (by destruct p).
  destruct (Age now p <? 21).
  - destruct (Float64 (rand dm)) as [u1 s1].
    destruct (u1 <? F64.lit 3 10)%f64.
    + cbn [Stamina set_Speed PlayerAttributes set_Attributes Potential set_Stamina].
      rewrite !min100_plus_one by apply Ha.
      destruct (Float64 s1) as [u2 s2].
      destruct (u2 <? _)%f64; [| reflexivity].
      change (Z.of_nat (length ["Passing"; "BallControl"; "Perception"; "Tackling"])) with 4.
      pose proof (Intn_range 4 s2 ltac:(lia)) as Hk.
      destruct (Intn 4 s2) as [k s3]. cbn [fst] in Hk.
      rewrite applyAttributeChange_pick by done. reflexivity.
    + destruct (Float64 s1) as [u2 s2].
      destruct (u2 <? _)%f64; [| by rewrite Hp].
      change (Z.of_nat (length ["Passing"; "BallControl"; "Perception"; "Tackling"])) with 4.
      pose proof (Intn_range 4 s2 ltac:(lia)) as Hk.
      destruct (Intn 4 s2) as [k s3]. cbn [fst] in Hk.
      rewrite applyAttributeChange_pick by done. reflexivity.
  - destruct (Float64 (rand dm)) as [u2 s2].
    destruct (u2 <? _)%f64; [| by rewrite Hp].
    change (Z.of_nat (length ["Passing"; "BallControl"; "Perception"; "Tackling"])) with 4.
    pose proof (Intn_range 4 s2 ltac:(lia)) as Hk.
    destruct (Intn 4 s2) as [k s3]. cbn [fst] in Hk.
    rewrite applyAttributeChange_pick by done. reflexivity.
Qed.

End NaturalDevelopmentYoung.

Lemma youngster_attributes_in_range : AttributesInRange (PlayerAttributes youngster).
Proof. constructor; vm_compute; split; discriminate. Qed.

Lemma ProcessNaturalDevelopment_young_witness :
  AttributesInRange (PlayerAttributes youngster)
  /\ Age day200of2025 youngster < 23
  /\ ProcessNaturalDevelopment (lcgManager 2) day200of2025 youngster
     = (fst (youngDevelopment 21 day200of2025 youngster (rand (lcgManager 2))),
        mkDevelopmentManager
          (snd (youngDevelopment 21 day200of2025 youngster (rand (lcgManager 2))))).
Proof.
  split; [exact youngster_attributes_in_range |].
  split; [reflexivity |].
  apply (ProcessNaturalDevelopment_young (RS := lcgRand) (lcgManager 2)
           day200of2025 youngster youngster_attributes_in_range).
  reflexivity.
Defined.

(** C5 as stated fails between 21 and 23: the player is 22 and the first
    draw of the generator is below 0.3, yet Speed and Stamina stay as they
    are, where the physical growth of every player below 23 would have
    added 1 to each. *)
Lemma no_physical_growth_at_22 :
  Age day200of2025 youngster = 22
  /\ (fst (Float64 (rand (lcgManager 2))) <? F64.lit 3 10)%f64 = true
  /\ Speed (PlayerAttributes
       (fst (ProcessNaturalDevelopment (lcgManager 2) day200of2025 youngster)))
     = Speed (PlayerAttributes youngster)
  /\ Stamina (PlayerAttributes
       (fst (ProcessNaturalDevelopment (lcgManager 2) day200of2025 youngster)))
     = Stamina (PlayerAttributes youngster)
  /\ Speed (PlayerAttributes
       (fst (youngDevelopment 23 day200of2025 youngster (rand (lcgManager 2)))))
     = Speed (PlayerAttributes youngster) + 1.
Proof. repeat split; vm_compute; reflexivity. Qed.

(** ** Reproducibility of the development engine *)

Section SameDraws.
Variables RS1 RS2 : RandSource.
Variable R : @rng RS1 -> @rng RS2 -> Prop.

Hypothesis Float64_same : forall s1 s2, R s1 s2 ->
  fst (Float64 s1) = fst (Float64 s2) /\ R (snd (Float64 s1)) (snd (Float64 s2)).
Hypothesis Intn_same : forall n s1 s2, R s1 s2 ->
  fst (Intn n s1) = fst (Intn n s2) /\ R (snd (Intn n s1)) (snd (Intn n s2)).

(** Two computations that return the same value and related generators
    from related generators. *)
Definition sameRun {A : Type} (m1 : @Draw RS1 A) (m2 : @Draw RS2 A) : Prop :=
  forall s1 s2, R s1 s2 -> fst (m1 s1) = fst (m2 s2) /\ R (snd (m1 s1)) (snd (m2 s2)).

Lemma sameRun_ret {A : Type} (a : A) : sameRun (ret a) (ret a).
Proof. intros s1 s2 H. split; [reflexivity | exact H]. Qed.

Lemma sameRun_bind {A B : Type} (m1 : @Draw RS1 A) (m2 : @Draw RS2 A)
    (k1 : A -> @Draw RS1 B) (k2 : A -> @Draw RS2 B) :
  sameRun m1 m2 -> (forall a, sameRun (k1 a) (k2 a)) -> sameRun (bind m1 k1) (bind m2 k2).
Proof.
  intros Hm Hk s1 s2 H. unfold bind.
  destruct (Hm s1 s2 H) as [Ha Hs].
  destruct (m1 s1) as [a1 s1'], (m2 s2) as [a2 s2']. cbn [fst snd] in Ha, Hs. subst a2.
  apply Hk, Hs.
Qed.

Lemma sameRun_if {A : Type} (b : bool) (m1 m1' : @Draw RS1 A) (m2 m2' : @Draw RS2 A) :
  sameRun m1 m2 -> sameRun m1' m2' ->
  sameRun (if b then m1 else m1') (if b then m2 else m2').
Proof. by destruct b. Qed.

Lemma sameRun_Float64 : sameRun Float64 Float64.
Proof. exact Float64_same. Qed.

Lemma sameRun_Intn (n : Z) : sameRun (Intn n) (Intn n).
Proof. exact (Intn_same n). Qed.

Lemma sameRun_calculateImprovement (p : Player) (attr : string) :
  sameRun (calculateImprovement p attr) (calculateImprovement p attr).
Proof.
  unfold calculateImprovement. cbv zeta.
  repeat apply sameRun_if; try apply sameRun_ret.
  - apply sameRun_bind; [apply sameRun_Float64 |].
    intros u. apply sameRun_if; apply sameRun_ret.
  - apply sameRun_bind; [apply sameRun_Float64 |].
    intros u. apply sameRun_if; apply sameRun_ret.
  - apply sameRun_bind; [apply sameRun_Intn |].
    intros k. apply sameRun_ret.
Qed.

Lemma sameRun_improveAttribute (threshold : float64) (attr : string)
    (st : Player * TrainingResult) :
  sameRun (improveAttribute threshold attr st) (improveAttribute threshold attr st).
Proof.
  destruct st as [p r]. unfold improveAttribute.
  apply sameRun_bind; [apply sameRun_Float64 |].
  intros u. apply sameRun_if; [| apply sameRun_ret].
  apply sameRun_bind; [apply sameRun_calculateImprovement |].
  intros imp. apply sameRun_if; apply sameRun_ret.
Qed.

Lemma sameRun_forAttrs (threshold : float64) (attrs : list string)
    (st : Player * TrainingResult) :
  sameRun (forAttrs (improveAttribute threshold) attrs st)
    (forAttrs (improveAttribute threshold) attrs st).
Proof.
  revert st. induction attrs as [| attr rest IH]; intros st; cbn [forAttrs].
  - apply sameRun_ret.
  - apply sameRun_bind; [apply sameRun_improveAttribute | exact IH].
Qed.

Lemma sameRun_trainGeneralLoop (n : nat) (chance : float64) (st : Player * TrainingResult) :
  sameRun (trainGeneralLoop n chance st) (trainGeneralLoop n chance st).
Proof.
  revert st. induction n as [| n IH]; intros st; cbn [trainGeneralLoop].
  - apply sameRun_ret.
  - apply sameRun_bind; [apply sameRun_Intn |].
    intros k. cbv zeta.
    apply sameRun_bind; [apply sameRun_improveAttribute | exact IH].
Qed.

Lemma sameRun_train (trainingType : TrainingType) (p : Player) (chance : float64)
    (r : TrainingResult) :
  sameRun
    ((if String.eqb trainingType TrainingTechnical then trainTechnical
      else if String.eqb trainingType TrainingPhysical then trainPhysical
      else if String.eqb trainingType TrainingTactical then trainTactical
      else if String.eqb trainingType TrainingSetPieces then trainSetPieces
      else trainGeneral) p chance r)
    ((if String.eqb trainingType TrainingTechnical then trainTechnical
      else if String.eqb trainingType TrainingPhysical then trainPhysical
      else if String.eqb trainingType TrainingTactical then trainTactical
      else if String.eqb trainingType TrainingSetPieces then trainSetPieces
      else trainGeneral) p chance r).
Proof.
  destruct (String.eqb trainingType TrainingTechnical); [apply sameRun_forAttrs |].
  destruct (String.eqb trainingType TrainingPhysical); [apply sameRun_forAttrs |].
  destruct (String.eqb trainingType TrainingTactical); [apply sameRun_forAttrs |].
  destruct (String.eqb trainingType TrainingSetPieces).
  - unfold trainSetPieces. apply sameRun_if; [| apply sameRun_forAttrs].
    apply sameRun_bind; [apply sameRun_Float64 |].
    intros u. apply sameRun_if; [| apply sameRun_ret].
    apply sameRun_bind; [apply sameRun_calculateImprovement |].
    intros imp. apply sameRun_if; apply sameRun_ret.
  - unfold trainGeneral. apply sameRun_bind; [apply sameRun_Intn |].
    intros k. apply sameRun_trainGeneralLoop.
Qed.

Lemma sameRun_youngPlayerDevelopment (now : Time) (p : Player) :
  sameRun (youngPlayerDevelopment now p) (youngPlayerDevelopment now p).
Proof.
  unfold youngPlayerDevelopment.
  apply sameRun_bind.
  - apply sameRun_if; [| apply sameRun_ret].
    apply sameRun_bind; [apply sameRun_Float64 |].
    intros u. apply sameRun_if; apply sameRun_ret.
  - intros p1. apply sameRun_bind; [apply sameRun_Float64 |].
    intros u. apply sameRun_if; [| apply sameRun_ret].
    cbv zeta. apply sameRun_bind; [apply sameRun_Intn |].
    intros k. apply sameRun_ret.
Qed.

Lemma sameRun_veteranDecline (now : Time) (p : Player) :
  sameRun (veteranDecline now p) (veteranDecline now p).
Proof.
  unfold veteranDecline. cbv zeta.
  apply sameRun_bind; [apply sameRun_Float64 |]. intros u1.
  apply sameRun_bind; [apply sameRun_Float64 |]. intros u2.
  apply sameRun_bind; [apply sameRun_Float64 |]. intros u3.
  apply sameRun_ret.
Qed.

(** One call: the same player and related managers afterwards. *)
Lemma runCall_same (dm1 : @DevelopmentManager RS1) (dm2 : @DevelopmentManager RS2)
    (now : Time) (p : Player) (c : Call) :
  R (rand dm1) (rand dm2) ->
  fst (runCall dm1 now p c) = fst (runCall dm2 now p c)
  /\ R (rand (snd (runCall dm1 now p c))) (rand (snd (runCall dm2 now p c))).
Proof.
  intros H. destruct c as [trainingType intensity |]; cbn [runCall].
  - unfold ProcessTraining. cbv zeta.
    pose proof (sameRun_train trainingType p (calculateImprovementChance now p)
                  (mkTrainingResult ∅ F64.zero F64.zero) _ _ H) as [Hv Hs].
    match type of Hv with
    | fst ?t1 = fst ?t2 => destruct t1 as [[p1 r1] s1], t2 as [[p2 r2] s2]
    end.
    cbn [fst snd rand] in *. split; [congruence | exact Hs].
  - unfold ProcessNaturalDevelopment. cbv zeta.
    assert (Hdev :
      fst (if Age now p <? 23 then youngPlayerDevelopment now p (rand dm1)
           else if 30 <? Age now p then veteranDecline now p (rand dm1)
           else (p, rand dm1))
      = fst (if Age now p <? 23 then youngPlayerDevelopment now p (rand dm2)
             else if 30 <? Age now p then veteranDecline now p (rand dm2)
             else (p, rand dm2))
      /\ R (snd (if Age now p <? 23 then youngPlayerDevelopment now p (rand dm1)
                 else if 30 <? Age now p then veteranDecline now p (rand dm1)
                 else (p, rand dm1)))
           (snd (if Age now p <? 23 then youngPlayerDevelopment now p (rand dm2)
                 else if 30 <? Age now p then veteranDecline now p (rand dm2)
                 else (p, rand dm2)))).
    { destruct (Age now p <? 23); [by apply sameRun_youngPlayerDevelopment |].
      destruct (30 <? Age now p); [by apply sameRun_veteranDecline |].
      split; [reflexivity | exact H]. }
    destruct Hdev as [Hv Hs].
    match type of Hv with
    | fst ?t1 = fst ?t2 => destruct t1 as [p1 s1], t2 as [p2 s2]
    end.
    cbn [fst snd rand] in *. split; [congruence | exact Hs].
Qed.

Lemma trajectory_same (dm1 : @DevelopmentManager RS1) (dm2 : @DevelopmentManager RS2)
    (p : Player) (calls : list (Time * Call)) :
  R (rand dm1) (rand dm2) -> trajectory dm1 p calls = trajectory dm2 p calls.
Proof.
  revert dm1 dm2 p. induction calls as [| [now c] rest IH]; intros dm1 dm2 p H.
  - reflexivity.
  - cbn [trajectory].
    pose proof (runCall_same dm1 dm2 now p c H) as [Hv Hs].
    destruct (runCall dm1 now p c) as [p1 dm1'], (runCall dm2 now p c) as [p2 dm2'].
    cbn [fst snd] in Hv, Hs. subst p2. f_equal. apply IH, Hs.
Qed.

End SameDraws.

(** ** The clock and the development engine *)

Lemma onlyAttributes_refl (p : Player) : onlyAttributes p p.
Proof. exists (PlayerAttributes p). by destruct p. Qed.

Lemma onlyAttributes_trans (p p' p'' : Player) :
  onlyAttributes p p' -> onlyAttributes p' p'' -> onlyAttributes p p''.
Proof. intros [a ->] [b ->]. by exists b. Qed.

Lemma onlyAttributes_Age (now : Time) (p p' : Player) :
  onlyAttributes p p' -> Age now p' = Age now p.
Proof. by intros [a ->]. Qed.

Lemma applyAttributeChange_only (p : Player) (attr : string) (c : Z) :
  onlyAttributes p (applyAttributeChange p attr c).
Proof.
  unfold applyAttributeChange. cbv zeta.
  repeat match goal with
         | |- context [String.eqb attr ?x] => destruct (String.eqb attr x); [by eexists |]
         end.
  apply onlyAttributes_refl.
Qed.

Section ClockOfDevelopment.
Context {RS : RandSource}.

Lemma improveAttribute_only (threshold : float64) (attr : string)
    (p : Player) (r : TrainingResult) (s : rng) :
  onlyAttributes p (fst (fst (improveAttribute threshold attr (p, r) s))).
Proof.
  unfold improveAttribute, bind, ret.
  destruct (Float64 s) as [u s1].
  destruct (u <? threshold)%f64; [| apply onlyAttributes_refl].
  destruct (calculateImprovement p attr s1) as [imp s2].
  destruct (0 <? imp); cbn [fst]; [| apply onlyAttributes_refl].
  apply applyAttributeChange_only.
Qed.

Lemma forAttrs_only (threshold : float64) (attrs : list string)
    (p : Player) (r : TrainingResult) (s : rng) :
  onlyAttributes p (fst (fst (forAttrs (improveAttribute threshold) attrs (p, r) s))).
Proof.
  revert p r s. induction attrs as [| attr rest IH]; intros p r s.
  - apply onlyAttributes_refl.
  - cbn [forAttrs]. unfold bind at 1.
    pose proof (improveAttribute_only threshold attr p r s) as H1.
    destruct (improveAttribute threshold attr (p, r) s) as [[p1 r1] s1].
    cbn [fst] in H1.
    eapply onlyAttributes_trans; [exact H1 | apply IH].
Qed.

Lemma trainGeneralLoop_only (n : nat) (chance : float64)
    (p : Player) (r : TrainingResult) (s : rng) :
  onlyAttributes p (fst (fst (trainGeneralLoop n chance (p, r) s))).
Proof.
  revert p r s. induction n as [| n IH]; intros p r s.
  - apply onlyAttributes_refl.
  - cbn [trainGeneralLoop]. unfold bind at 1.
    destruct (Intn (Z.of_nat (length allAttrs)) s) as [k s0].
    unfold bind at 1.
    pose proof (improveAttribute_only (chance * F64.lit 5 10)%f64
                  (nth (Z.to_nat k) allAttrs "") p r s0) as H1.
    destruct (improveAttribute _ _ (p, r) s0) as [[p1 r1] s1].
    cbn [fst] in H1.
    eapply onlyAttributes_trans; [exact H1 | apply IH].
Qed.

Lemma trainSetPieces_only (p : Player) (chance : float64) (r : TrainingResult) (s : rng) :
  onlyAttributes p (fst (fst (trainSetPieces p chance r s))).
Proof.
  unfold trainSetPieces.
  destruct (String.eqb (PlayerPosition p) PositionGK); [| apply forAttrs_only].
  unfold bind, ret.
  destruct (Float64 s) as [u s1].
  destruct (u <? chance)%f64; [| apply onlyAttributes_refl].
  destruct (calculateImprovement p "Keeping" s1) as [imp s2].
  destruct (0 <? imp); cbn [fst]; [by eexists | apply onlyAttributes_refl].
Qed.

Lemma ProcessTraining_only (dm : DevelopmentManager) (now : Time) (p : Player)
    (trainingType : TrainingType) (intensity : float64) :
  onlyAttributes p (snd (fst (ProcessTraining dm now p trainingType intensity))).
Proof.
  unfold ProcessTraining.
  set (result := mkTrainingResult ∅ F64.zero F64.zero).
  set (chance := calculateImprovementChance now p).
  assert (Htrain : forall train,
    onlyAttributes p (fst (fst (train p chance result (rand dm)))) ->
    onlyAttributes p (snd (fst (
      let '(player', result0, s) := train p chance result (rand dm) in
      (mkTrainingResult (AttributeChanges result0) (F64.of_int (-5) * intensity)%f64
         (if (intensity <? F64.lit 7 10)%f64 then F64.of_int 2
          else if (F64.lit 9 10 <? intensity)%f64 then F64.of_int (-3)
          else MoraleChange result0),
       player', mkDevelopmentManager s))))).
  { intros train H. destruct (train p chance result (rand dm)) as [[p' r'] s']. exact H. }
  destruct (String.eqb trainingType TrainingTechnical).
  { apply Htrain. apply forAttrs_only. }
  destruct (String.eqb trainingType TrainingPhysical).
  { apply Htrain. apply forAttrs_only. }
  destruct (String.eqb trainingType TrainingTactical).
  { apply Htrain. apply forAttrs_only. }
  destruct (String.eqb trainingType TrainingSetPieces).
  { apply Htrain. apply trainSetPieces_only. }
  apply Htrain. unfold trainGeneral, bind at 1.
  destruct (Intn 2 (rand dm)) as [k s0]. apply trainGeneralLoop_only.
Qed.

Lemma youngPlayerDevelopment_only (now : Time) (p : Player) (s : rng) :
  onlyAttributes p (fst (youngPlayerDevelopment now p s)).
Proof.
  unfold youngPlayerDevelopment, bind at 1.
  match goal with
  | |- context [let (a, s') := ?m s in _] =>
      assert (H1 : onlyAttributes p (fst (m s)));
      [| destruct (m s) as [p1 s1]]
  end.
  { destruct (Age now p <? 21); [| apply onlyAttributes_refl].
    unfold bind, ret. destruct (Float64 s) as [u s1].
    destruct (u <? F64.lit 3 10)%f64; [by eexists | apply onlyAttributes_refl]. }
  cbn [fst] in H1.
  eapply onlyAttributes_trans; [exact H1 |].
  unfold bind, ret. destruct (Float64 s1) as [u s2].
  destruct (u <? _)%f64; [| apply onlyAttributes_refl].
  destruct (Intn _ s2) as [k s3]. cbn [fst].
  apply applyAttributeChange_only.
Qed.

Lemma veteranDecline_only (now : Time) (p : Player) (s : rng) :
  onlyAttributes p (fst (veteranDecline now p s)).
Proof.
  unfold veteranDecline, bind, ret.
  destruct (Float64 s) as [u1 s1].
  set (p1 := if (u1 <? _)%f64 then _ else p).
  assert (H1 : onlyAttributes p p1).
  { subst p1. destruct (u1 <? _)%f64; [by eexists | apply onlyAttributes_refl]. }
  destruct (Float64 s1) as [u2 s2].
  set (p2 := if (u2 <? _)%f64 then _ else p1).
  assert (H2 : onlyAttributes p1 p2).
  { subst p2. destruct (u2 <? _)%f64; [by eexists | apply onlyAttributes_refl]. }
  destruct (Float64 s2) as [u3 s3].
  set (p3 := if (u3 <? _)%f64 then _ else p2).
  assert (H3 : onlyAttributes p2 p3).
  { subst p3. destruct (u3 <? _)%f64; [by eexists | apply onlyAttributes_refl]. }
  cbn [fst].
  eapply onlyAttributes_trans; [exact H1 |].
  eapply onlyAttributes_trans; [exact H2 | exact H3].
Qed.

Lemma ProcessNaturalDevelopment_only (dm : DevelopmentManager) (now : Time) (p : Player) :
  onlyAttributes p (fst (ProcessNaturalDevelopment dm now p)).
Proof.
  unfold ProcessNaturalDevelopment. cbv zeta.
  assert (H1 : onlyAttributes p (fst (
    if Age now p <? 23 then youngPlayerDevelopment now p (rand dm)
    else if 30 <? Age now p then veteranDecline now p (rand dm)
    else (p, rand dm)))).
  { destruct (Age now p <? 23); [apply youngPlayerDevelopment_only |].
    destruct (30 <? Age now p); [apply veteranDecline_only |].
    apply onlyAttributes_refl. }
  destruct (if Age now p <? 23 then _ else _) as [p1 s1].
  cbn [fst] in *.
  eapply onlyAttributes_trans; [exact H1 | by eexists].
Qed.

(** The development engine changes nothing of a player but attributes;
    the date of birth, and with it the age at a given reading of the
    clock, stays. *)
Lemma runCall_only (dm : DevelopmentManager) (now : Time) (p : Player) (c : Call) :
  onlyAttributes p (fst (runCall dm now p c)).
Proof.
  destruct c as [trainingType intensity |]; cbn [runCall].
  - pose proof (ProcessTraining_only dm now p trainingType intensity) as H.
    by destruct (ProcessTraining dm now p trainingType intensity) as [[r p'] dm'].
  - apply ProcessNaturalDevelopment_only.
Qed.

(** The chance of improvement depends on the clock through the class of
    the age only. *)
Lemma calculateImprovementChance_band (now1 now2 : Time) (p : Player) :
  chanceBand (Age now1 p) = chanceBand (Age now2 p) ->
  calculateImprovementChance now1 p = calculateImprovementChance now2 p.
Proof.
  unfold chanceBand, calculateImprovementChance. cbv zeta.
  destruct (Age now1 p <? 21), (Age now2 p <? 21); try done;
    destruct (Age now1 p <? 25), (Age now2 p <? 25); try done;
    destruct (Age now1 p <? 28), (Age now2 p <? 28); try done;
    destruct (Age now1 p <? 32), (Age now2 p <? 32); done.
Qed.

Lemma runCall_band (dm : DevelopmentManager) (now1 now2 : Time) (p : Player) (c : Call) :
  ageBand c (Age now1 p) = ageBand c (Age now2 p) ->
  runCall dm now1 p c = runCall dm now2 p c.
Proof.
  destruct c as [trainingType intensity |]; cbn [runCall ageBand]; intros Hband.
  - unfold ProcessTraining. by rewrite (calculateImprovementChance_band now1 now2 p Hband).
  - unfold ProcessNaturalDevelopment, youngPlayerDevelopment, veteranDecline. cbv zeta.
    revert Hband. unfold developmentBand.
    destruct (Z.ltb_spec (Age now1 p) 21), (Z.ltb_spec (Age now2 p) 21);
      destruct (Z.ltb_spec (Age now1 p) 23), (Z.ltb_spec (Age now2 p) 23);
      destruct (Z.ltb_spec 30 (Age now1 p)), (Z.ltb_spec 30 (Age now2 p));
      intros Hband; try lia; try reflexivity.
    by rewrite Hband.
Qed.

(** The same calls at clock readings of the same age classes give the
    same attributes after every call. *)
Lemma trajectory_bands (dm : DevelopmentManager) (p : Player)
    (calls1 calls2 : list (Time * Call)) :
  sameCallsAndBands p calls1 calls2 ->
  trajectory dm p calls1 = trajectory dm p calls2.
Proof.
  intros Hcalls. revert dm.
  assert (Hgen : forall p', onlyAttributes p p' ->
                   forall dm, trajectory dm p' calls1 = trajectory dm p' calls2);
    [| intros dm; apply Hgen, onlyAttributes_refl].
  induction Hcalls as [| [now1 c1] [now2 c2] rest1 rest2 [Hc Hband] _ IH];
    intros p' Hp' dm; [reflexivity |].
  cbn [fst snd] in Hc, Hband. subst c2. cbn [trajectory].
  rewrite <- !(onlyAttributes_Age _ p p' Hp') in Hband.
  rewrite (runCall_band dm now1 now2 p' c1 Hband).
  pose proof (runCall_only dm now2 p' c1) as Hstep.
  destruct (runCall dm now2 p' c1) as [p'' dm']. cbn [fst] in Hstep.
  f_equal. apply IH. by eapply onlyAttributes_trans.
Qed.

End ClockOfDevelopment.

Section SameDrawsAndBands.
Variables RS1 RS2 : RandSource.
Variable R : @rng RS1 -> @rng RS2 -> Prop.

Hypothesis Float64_same : forall s1 s2, R s1 s2 ->
  fst (Float64 s1) = fst (Float64 s2) /\ R (snd (Float64 s1)) (snd (Float64 s2)).
Hypothesis Intn_same : forall n s1 s2, R s1 s2 ->
  fst (Intn n s1) = fst (Intn n s2) /\ R (snd (Intn n s1)) (snd (Intn n s2)).

(** C8 (amended): two development managers, each freshly constructed
    with the seed 42, whose generators deliver the same draws, given the
    same initial player and the same sequence of calls with the same
    arguments, produce the same attribute values after every call,
    provided the clocks the two runs read put the age of the player in
    the same class at every call: for [ProcessTraining] the classes of
    [calculateImprovementChance] (below 21, 21 to 24, 25 to 27, 28 to 31,
    32 or more), for [ProcessNaturalDevelopment] below 21, 21 or 22, 23
    to 30, and each age above 30 by itself.  The two runs need not read
    the same time. *)
Theorem same_draws_same_age_bands_same_trajectory (p : Player)
    (calls1 calls2 : list (Time * Call)) :
  R (NewSource 42) (NewSource 42) ->
  sameCallsAndBands p calls1 calls2 ->
  trajectory (RS := RS1) NewDevelopmentManager p calls1
  = trajectory (RS := RS2) NewDevelopmentManager p calls2.
Proof.
  intros Hseed Hcalls.
  rewrite (trajectory_bands (RS := RS1) NewDevelopmentManager p calls1 calls2 Hcalls).
  apply (trajectory_same RS1 RS2 R Float64_same Intn_same). exact Hseed.
Qed.

End SameDrawsAndBands.

Lemma same_draws_same_age_bands_same_trajectory_witness :
  (forall (s1 : @rng lcgRand) (s2 : @rng countingRand), s1 = fst s2 ->
     fst (Float64 s1) = fst (Float64 s2) /\ snd (Float64 s1) = fst (snd (Float64 s2)))
  /\ (forall n (s1 : @rng lcgRand) (s2 : @rng countingRand), s1 = fst s2 ->
        fst (Intn n s1) = fst (Intn n s2) /\ snd (Intn n s1) = fst (snd (Intn n s2)))
  /\ @NewSource lcgRand 42 = fst (@NewSource countingRand 42)
  /\ sameCallsAndBands midfielder seasonAt19 seasonAt20
  /\ map (fun a => (Shooting a, BallControl a, Quality a))
       (trajectory (RS := lcgRand) NewDevelopmentManager midfielder seasonAt19)
     = [(56, 70, 65); (56, 71, 68)]
  /\ trajectory (RS := lcgRand) NewDevelopmentManager midfielder seasonAt19
     = trajectory (RS := countingRand) NewDevelopmentManager midfielder seasonAt20.
Proof.
  assert (H1 : forall (s1 : @rng lcgRand) (s2 : @rng countingRand), s1 = fst s2 ->
    fst (Float64 s1) = fst (Float64 s2) /\ snd (Float64 s1) = fst (snd (Float64 s2))).
  { intros s1 s2 ->. split; reflexivity. }
  assert (H2 : forall n (s1 : @rng lcgRand) (s2 : @rng countingRand), s1 = fst s2 ->
    fst (Intn n s1) = fst (Intn n s2) /\ snd (Intn n s1) = fst (snd (Intn n s2))).
  { intros n s1 s2 ->. split; reflexivity. }
  assert (H3 : sameCallsAndBands midfielder seasonAt19 seasonAt20).
  { repeat constructor. }
  split; [exact H1 |]. split; [exact H2 |]. split; [reflexivity |]. split; [exact H3 |].
  split; [vm_compute; reflexivity |].
  exact (same_draws_same_age_bands_same_trajectory lcgRand countingRand
           (fun s1 s2 => s1 = fst s2) H1 H2 midfielder seasonAt19 seasonAt20 eq_refl H3).
Defined.

(** C8 as stated fails: the ages are read from the wall clock.  Two
    fresh managers run the same technical session on the same player, one
    on day 200 of 2020 (age 20, improvement chance 0.48) and one a year
    later (age 21, chance 0.36): the first raises Shooting to 56, the
    second leaves it at 55. *)
Lemma different_clock_different_trajectory :
  Age day200of2020 midfielder = 20
  /\ Age day200of2021 midfielder = 21
  /\ map Shooting (trajectory (RS := lcgRand) NewDevelopmentManager midfielder sessionIn2020)
     = [56]
  /\ map Shooting (trajectory (RS := lcgRand) NewDevelopmentManager midfielder sessionIn2021)
     = [55]
  /\ trajectory (RS := lcgRand) NewDevelopmentManager midfielder sessionIn2020
     <> trajectory (RS := lcgRand) NewDevelopmentManager midfielder sessionIn2021.
Proof.
  split; [reflexivity |]. split; [reflexivity |].
  split; [vm_compute; reflexivity |]. split; [vm_compute; reflexivity |].
  vm_compute. discriminate.
Qed.

(** ** Validation of a lineup *)

Lemma GetPlayer_cases (t : Team) (playerID : PlayerID) :
  (exists p, GetPlayer t playerID = (Some p, None))
  \/ GetPlayer t playerID = (None, Some ErrPlayerNotFound).
Proof.
  unfold GetPlayer. destruct (find _ _) as [p |]; [left; by exists p | by right].
Qed.

Lemma checkAvailable_None (t : Team) (starters : list PlayerID) :
  startersAvailable t starters -> checkAvailable t starters = None.
Proof.
  induction starters as [| playerID rest IH]; intros Hall; [reflexivity |].
  cbn [checkAvailable].
  destruct (Hall playerID ltac:(by left)) as (p & Hp & Hav).
  destruct (GetPlayer_cases t playerID) as [[q Hq] | Hq]; rewrite Hq in *; cbn [fst] in Hp.
  - injection Hp as ->. rewrite Hav. cbn [negb].
    apply IH. intros id Hid. apply Hall. by right.
  - discriminate.
Qed.

Lemma checkAvailable_None_inv (t : Team) (starters : list PlayerID) :
  checkAvailable t starters = None -> startersAvailable t starters.
Proof.
  induction starters as [| playerID rest IH]; intros Hc id Hid; [destruct Hid |].
  cbn [checkAvailable] in Hc.
  destruct (GetPlayer_cases t playerID) as [[q Hq] | Hq]; rewrite Hq in Hc; [| discriminate].
  destruct (IsAvailable q) eqn:Hav; cbn [negb] in Hc; [| discriminate].
  destruct Hid as [<- | Hid]; [| by apply IH].
  exists q. rewrite Hq. done.
Qed.

(** With a position for every starter and every starter in the roster,
    the first loop of the position check returns. *)
Lemma checkStarters_returns (t : Team) (positions : list Position) (starters : list PlayerID)
    (i : nat) (positionCount : gmap Position Z) :
  startersAvailable t starters ->
  (i + length starters <= length positions)%nat ->
  exists r, checkStarters t positions i starters positionCount = Returns r.
Proof.
  revert i positionCount.
  induction starters as [| playerID rest IH]; intros i positionCount Hall Hlen.
  - by eexists.
  - cbn [checkStarters length] in *.
    destruct (Hall playerID ltac:(by left)) as (p & Hp & _). rewrite Hp.
    destruct (positions !! i) as [assignedPos |] eqn:Hpos.
    + destruct (CanPlayPosition p assignedPos); cbn [negb]; [| by eexists].
      apply IH; [| lia]. intros id Hid. apply Hall. by right.
    + apply lookup_ge_None in Hpos. lia.
Qed.

(** With as many assigned positions as starters, [ValidateLineup] returns
    for every team and lineup. *)
Lemma ValidateLineup_returns (order : list Position) (t : Team) (lineup : Lineup) :
  (length (Starters lineup) <= length (Positions lineup))%nat ->
  exists r, ValidateLineup order t lineup = Returns r.
Proof.
  intros Hlen. unfold ValidateLineup.
  destruct (negb _); [by eexists |].
  destruct (checkAvailable t (Starters lineup)) eqn:Hav; [by eexists |].
  destruct (negb _); [by eexists |].
  unfold validateFormationPositions.
  destruct (checkStarters_returns t (Positions lineup) (Starters lineup) 0 ∅
              (checkAvailable_None_inv _ _ Hav) ltac:(lia)) as [r ->].
  destruct r; by eexists.
Qed.

(** C9 on the code: a lineup of eleven available starters of the roster,
    in a valid formation, with no assigned position, does not return from
    [ValidateLineup]: the position check indexes [lineup.Positions] out of
    range, in whatever order the requirements would be visited. *)
Theorem ValidateLineup_panics_without_positions :
  (length (Positions lineupWithoutPositions) < length (Starters lineupWithoutPositions))%nat
  /\ length (Starters lineupWithoutPositions) = 11%nat
  /\ checkAvailable town (Starters lineupWithoutPositions) = None
  /\ IsValid (LineupFormation lineupWithoutPositions) = true
  /\ forall order,
       ValidateLineup order town lineupWithoutPositions
       = Panics "runtime error: index out of range [0] with length 0".
Proof.
  split; [cbn; lia |]. repeat split; vm_compute; reflexivity.
Qed.

(** ** A defender assigned to midfield *)

Lemma mapGet_insert (m : gmap string Z) (k k' : string) (v : Z) :
  mapGet (<[k := v]> m) k' = if decide (k = k') then v else mapGet m k'.
Proof.
  unfold mapGet. rewrite lookup_insert. by destruct (decide (k = k')).
Qed.

Lemma mapGet_countPositions (positionCount : gmap Position Z) (ps : list Position)
    (pos : Position) :
  (forall q, 0 <= mapGet positionCount q
             /\ mapGet positionCount q + Z.of_nat (length ps) <= Int.max_int) ->
  mapGet (countPositions positionCount ps) pos
  = mapGet positionCount pos + Z.of_nat (count_occ String.string_dec ps pos).
Proof.
  revert positionCount. induction ps as [| p ps IH]; intros positionCount Hsmall.
  - cbn. lia.
  - change (countPositions positionCount (p :: ps))
      with (countPositions (<[p := Int.add (mapGet positionCount p) 1]> positionCount) ps).
    assert (Hadd : Int.add (mapGet positionCount p) 1 = mapGet positionCount p + 1).
    { apply Int.add_small. specialize (Hsmall p). cbn [length] in Hsmall.
      unfold Int.min_int, Int.max_int in *. lia. }
    rewrite IH.
    + rewrite mapGet_insert, Hadd. case_decide as Heq.
      * subst p. rewrite count_occ_cons_eq by done. unfold Position in *. lia.
      * rewrite count_occ_cons_neq by done. unfold Position in *. lia.
    + intros q. rewrite mapGet_insert, Hadd. cbn [length] in Hsmall.
      pose proof (Hsmall q) as Hq. pose proof (Hsmall p) as Hp.
      case_decide as Heq; lia.
Qed.

(** When every starter is in the roster, has a position and can play it,
    the first loop counts the assigned positions. *)
Lemma checkStarters_eligible (t : Team) (positions : list Position)
    (starters : list PlayerID) (i : nat) (positionCount : gmap Position Z) :
  (forall j playerID, starters !! j = Some playerID ->
     exists p pos, fst (GetPlayer t playerID) = Some p
                   /\ positions !! (i + j)%nat = Some pos
                   /\ CanPlayPosition p pos = true) ->
  checkStarters t positions i starters positionCount
  = Returns (inr (countPositions positionCount (take (length starters) (drop i positions)))).
Proof.
  revert i positionCount.
  induction starters as [| playerID rest IH]; intros i positionCount Hall.
  - reflexivity.
  - destruct (Hall O playerID eq_refl) as (p & pos & Hp & Hpos & Hcan).
    rewrite Nat.add_0_r in Hpos.
    cbn [checkStarters length]. rewrite Hp, Hpos, Hcan. cbn [negb].
    rewrite IH.
    + rewrite (drop_S _ _ _ Hpos). reflexivity.
    + intros j id Hj. destruct (Hall (S j) id Hj) as (q & pos' & Hq & Hpos' & Hcan').
      exists q, pos'. replace (S i + j)%nat with (i + S j)%nat by lia. done.
Qed.

(** The first starter that cannot play the assigned position is named
    by the error. *)
Lemma checkStarters_mismatch (t : Team) (positions : list Position)
    (starters : list PlayerID) (i k : nat) (positionCount : gmap Position Z)
    (playerID : PlayerID) (p : Player) (pos : Position) :
  starters !! k = Some playerID ->
  fst (GetPlayer t playerID) = Some p ->
  positions !! (i + k)%nat = Some pos ->
  CanPlayPosition p pos = false ->
  (forall j playerID', (j < k)%nat -> starters !! j = Some playerID' ->
     exists p' pos', fst (GetPlayer t playerID') = Some p'
                     /\ positions !! (i + j)%nat = Some pos'
                     /\ CanPlayPosition p' pos' = true) ->
  checkStarters t positions i starters positionCount
  = Returns (inl (Errorf ("player " +:+ FullName p +:+ " cannot play " +:+ pos))).
Proof.
  revert i k positionCount.
  induction starters as [| head rest IH]; intros i k positionCount Hk Hp Hpos Hcan Hbefore.
  - discriminate.
  - destruct k as [| k].
    + injection Hk as ->. rewrite Nat.add_0_r in Hpos.
      cbn [checkStarters]. rewrite Hp, Hpos, Hcan. reflexivity.
    + destruct (Hbefore O head ltac:(lia) eq_refl) as (q & pos' & Hq & Hpos' & Hcan').
      rewrite Nat.add_0_r in Hpos'.
      cbn [checkStarters]. rewrite Hq, Hpos', Hcan'. cbn [negb].
      apply (IH (S i) k); try done.
      * replace (S i + k)%nat with (i + S k)%nat by lia. done.
      * intros j id Hj Hid.
        destruct (Hbefore (S j) id ltac:(lia) Hid) as (q' & pos'' & ? & ? & ?).
        exists q', pos''. replace (S i + j)%nat with (i + S j)%nat by lia. done.
Qed.

Lemma checkRequirements_met (requiredPositions positionCount : gmap Position Z)
    (order : list Position) :
  (forall pos required, requiredPositions !! pos = Some required ->
     mapGet positionCount pos = required) ->
  checkRequirements requiredPositions positionCount order = None.
Proof.
  intros Hmet. induction order as [| pos rest IH]; [reflexivity |].
  cbn [checkRequirements].
  destruct (requiredPositions !! pos) as [required |] eqn:Hreq; [| exact IH].
  rewrite (Hmet pos required Hreq), Z.eqb_refl. exact IH.
Qed.

(** C3 (amended): let a lineup have eleven starters, all in the roster
    and available, eleven assigned positions whose counts match the
    requirements of its valid formation, a DEF player assigned to MID, and
    every other starter assigned a position the starter can play.  Then
    [ValidateLineup] succeeds if and only if the Passing of that player is
    above 60, and otherwise fails with the error "player <full name>
    cannot play MID" that names that player. *)
Theorem ValidateLineup_defender_in_midfield (order : list Position) (t : Team)
    (lineup : Lineup) (i : nat) (playerID : PlayerID) (p : Player) :
  length (Starters lineup) = 11%nat ->
  length (Positions lineup) = 11%nat ->
  startersAvailable t (Starters lineup) ->
  IsValid (LineupFormation lineup) = true ->
  (forall pos required,
     GetPositionRequirements (LineupFormation lineup) !! pos = Some required ->
     Z.of_nat (count_occ String.string_dec (Positions lineup) pos) = required) ->
  Starters lineup !! i = Some playerID ->
  fst (GetPlayer t playerID) = Some p ->
  PlayerPosition p = PositionDEF ->
  Positions lineup !! i = Some PositionMID ->
  (forall j playerID' p' pos', j <> i ->
     Starters lineup !! j = Some playerID' ->
     fst (GetPlayer t playerID') = Some p' ->
     Positions lineup !! j = Some pos' ->
     CanPlayPosition p' pos' = true) ->
  (ValidateLineup order t lineup = Returns None <-> 60 < Passing (PlayerAttributes p))
  /\ (Passing (PlayerAttributes p) <= 60 ->
      ValidateLineup order t lineup
      = Returns (Some (Errorf ("player " +:+ FullName p +:+ " cannot play MID")))).
Proof.
  intros Hlen Hlenp Hav Hvalid Hcounts Hi Hp Hdef Hmid Hothers.
  assert (Hstages : ValidateLineup order t lineup = validateFormationPositions order t lineup).
  { unfold ValidateLineup. rewrite Hlen. cbn [Nat.eqb negb].
    rewrite (checkAvailable_None _ _ Hav), Hvalid. reflexivity. }
  assert (Hentry : forall j playerID', Starters lineup !! j = Some playerID' ->
    exists p' pos', fst (GetPlayer t playerID') = Some p'
                    /\ Positions lineup !! j = Some pos').
  { intros j id Hj.
    destruct (Hav id) as (p' & Hp' & _).
    { apply list_elem_of_In. by eapply list_elem_of_lookup_2. }
    destruct (lookup_lt_is_Some_2 (Positions lineup) j) as [pos' Hpos'].
    { rewrite Hlenp, <- Hlen. by eapply lookup_lt_Some. }
    by exists p', pos'. }
  assert (Hcan : CanPlayPosition p PositionMID = true <-> 60 < Passing (PlayerAttributes p)).
  { rewrite CanPlayPosition_iff, Hdef. split.
    - intros [H | [(_ & _ & H) | [(H & _) | (H & _)]]]; done.
    - intros H. right. left. done. }
  assert (Hfail : Passing (PlayerAttributes p) <= 60 ->
    ValidateLineup order t lineup
    = Returns (Some (Errorf ("player " +:+ FullName p +:+ " cannot play MID")))).
  { intros Hle. rewrite Hstages. unfold validateFormationPositions.
    rewrite (checkStarters_mismatch t (Positions lineup) (Starters lineup) 0 i ∅
               playerID p PositionMID); try done.
    - apply not_true_is_false. intros Hc. apply Hcan in Hc. lia.
    - intros j id Hlt Hj. destruct (Hentry j id Hj) as (p' & pos' & Hp' & Hpos').
      exists p', pos'. repeat split; try done.
      apply (Hothers j id p' pos'); [lia | done..]. }
  split; [split |]; [| | exact Hfail].
  - intros Hok. destruct (Z.lt_ge_cases 60 (Passing (PlayerAttributes p))) as [| Hle]; [done |].
    rewrite (Hfail ltac:(lia)) in Hok. discriminate.
  - intros Hgt. rewrite Hstages. unfold validateFormationPositions.
    rewrite (checkStarters_eligible t (Positions lineup) (Starters lineup) 0 ∅).
    + rewrite drop_0, Hlen, <- Hlenp, firstn_all.
      rewrite checkRequirements_met; [reflexivity |].
      intros pos required Hreq.
      rewrite mapGet_countPositions.
      * rewrite <- (Hcounts pos required Hreq). unfold mapGet. rewrite lookup_empty. cbn. lia.
      * intros q. unfold mapGet. rewrite lookup_empty. cbn. rewrite Hlenp.
        unfold Int.max_int. lia.
    + intros j id Hj. destruct (Hentry j id Hj) as (p' & pos' & Hp' & Hpos').
      exists p', pos'. repeat split; try done.
      destruct (decide (j = i)) as [-> | Hne].
      * rewrite Hi in Hj. injection Hj as <-. rewrite Hp in Hp'. injection Hp' as <-.
        rewrite Hmid in Hpos'. injection Hpos' as <-. by apply Hcan.
      * by apply (Hothers j id p' pos').
Qed.

Lemma mkRequirements_lookup (gk def mid fwd : Z) (pos : Position) (required : Z) :
  mkRequirements gk def mid fwd !! pos = Some required ->
  (pos = PositionGK /\ required = gk) \/ (pos = PositionDEF /\ required = def)
  \/ (pos = PositionMID /\ required = mid) \/ (pos = PositionFWD /\ required = fwd).
Proof.
  unfold mkRequirements. rewrite !lookup_insert, lookup_empty.
  intros Hl. repeat case_decide; try discriminate; injection Hl as <-; subst pos; tauto.
Qed.

Lemma lineupWithDefender_available : startersAvailable town (Starters lineupWithDefender).
Proof. apply checkAvailable_None_inv. vm_compute. reflexivity. Qed.

Lemma lineupWithDefender_counts (pos : Position) (required : Z) :
  GetPositionRequirements (LineupFormation lineupWithDefender) !! pos = Some required ->
  Z.of_nat (count_occ String.string_dec (Positions lineupWithDefender) pos) = required.
Proof.
  intros H. apply mkRequirements_lookup in H.
  destruct H as [[-> ->] | [[-> ->] | [[-> ->] | [-> ->]]]]; reflexivity.
Qed.

Lemma lineupWithDefender_others (j : nat) (playerID' : PlayerID) (p' : Player)
    (pos' : Position) :
  j <> 5%nat ->
  Starters lineupWithDefender !! j = Some playerID' ->
  fst (GetPlayer town playerID') = Some p' ->
  Positions lineupWithDefender !! j = Some pos' ->
  CanPlayPosition p' pos' = true.
Proof.
  intros Hj Hs Hp Hpos.
  do 11 (destruct j as [| j];
         [try done; cbn in Hs, Hpos; injection Hs as <-; injection Hpos as <-;
          vm_compute in Hp; injection Hp as <-; reflexivity |]).
  discriminate.
Qed.

Lemma ValidateLineup_defender_in_midfield_witness :
  60 < Passing (PlayerAttributes (withPassing (squadPlayer "d5" PositionDEF) 70))
  /\ ValidateLineup positionPriority town lineupWithDefender = Returns None.
Proof.
  split; [reflexivity |].
  apply (proj1 (ValidateLineup_defender_in_midfield positionPriority town lineupWithDefender
                  5 "d5" (withPassing (squadPlayer "d5" PositionDEF) 70)
                  eq_refl eq_refl lineupWithDefender_available eq_refl
                  lineupWithDefender_counts eq_refl eq_refl eq_refl eq_refl
                  lineupWithDefender_others)).
  reflexivity.
Defined.

(** C3 as stated fails: the lineup passes the first stages, its position
    counts match 4-4-2 and its DEF player d5, assigned to MID, has Passing
    70, yet validation fails, and the error names the forward f3 (Passing
    60), who is assigned to MID as well. *)
Lemma defender_eligible_yet_lineup_rejected :
  length (Starters lineupWithForward) = 11%nat
  /\ checkAvailable town (Starters lineupWithForward) = None
  /\ IsValid (LineupFormation lineupWithForward) = true
  /\ map (fun pos => Z.of_nat (count_occ String.string_dec (Positions lineupWithForward) pos))
       positionPriority
     = map (mapGet (GetPositionRequirements (LineupFormation lineupWithForward)))
         positionPriority
  /\ Starters lineupWithForward !! 5%nat = Some "d5"
  /\ Positions lineupWithForward !! 5%nat = Some PositionMID
  /\ (PlayerPosition <$> fst (GetPlayer town "d5")) = Some PositionDEF
  /\ (Passing <$> (PlayerAttributes <$> fst (GetPlayer town "d5"))) = Some 70
  /\ forall order,
       ValidateLineup order town lineupWithForward
       = Returns (Some (Errorf "player f3 Player cannot play MID")).
Proof. repeat split; vm_compute; reflexivity. Qed.

(** ** The roster: AddPlayer, RemovePlayer, GetPlayer *)

Lemma find_app_l {A : Type} (f : A -> bool) (l1 l2 : list A) :
  List.find f (l1 ++ l2)
  = match List.find f l1 with Some x => Some x | None => List.find f l2 end.
Proof.
  induction l1 as [| x l1 IH]; [reflexivity |].
  cbn. destruct (f x); [reflexivity | exact IH].
Qed.

Lemma find_none_iff {A : Type} (f : A -> bool) (l : list A) :
  List.find f l = None <-> forall x, In x l -> f x = false.
Proof.
  split; [apply find_none |].
  induction l as [| x l IH]; [reflexivity |].
  intros H. cbn. rewrite (H x) by (left; reflexivity).
  apply IH. intros y Hy. apply H. right. exact Hy.
Qed.

Lemma existsb_find {A : Type} (f : A -> bool) (l : list A) :
  existsb f l = false <-> List.find f l = None.
Proof.
  induction l as [| x l IH]; [done |].
  cbn. destruct (f x); [done | exact IH].
Qed.

Lemma GetPlayer_find (t : Team) (playerID : PlayerID) :
  fst (GetPlayer t playerID) = List.find (fun p => String.eqb (ID p) playerID) (Players t).
Proof. unfold GetPlayer. by destruct (List.find _ _). Qed.

Lemma GetPlayer_same_find (t t' : Team) (playerID : PlayerID) :
  List.find (fun p => String.eqb (ID p) playerID) (Players t')
  = List.find (fun p => String.eqb (ID p) playerID) (Players t) ->
  GetPlayer t' playerID = GetPlayer t playerID.
Proof. unfold GetPlayer. by intros ->. Qed.

Lemma indexOfPlayer_Some (playerID : PlayerID) (players : list Player) (i : nat) :
  indexOfPlayer playerID players = Some i ->
  exists p, players !! i = Some p /\ ID p = playerID
            /\ List.find (fun p => String.eqb (ID p) playerID) (take i players) = None.
Proof.
  revert i. induction players as [| q players IH]; intros i; [done |].
  cbn [indexOfPlayer]. destruct (String.eqb (ID q) playerID) eqn:Hq.
  - intros [= <-]. exists q. apply String.eqb_eq in Hq. done.
  - destruct (indexOfPlayer playerID players) as [j |]; [| done].
    intros [= <-]. destruct (IH j eq_refl) as (p & Hp & Hid & Hbefore).
    exists p. cbn. by rewrite Hq.
Qed.

Lemma indexOfPlayer_None (playerID : PlayerID) (players : list Player) :
  indexOfPlayer playerID players = None
  <-> List.find (fun p => String.eqb (ID p) playerID) players = None.
Proof.
  induction players as [| q players IH]; [done |].
  cbn. destruct (String.eqb (ID q) playerID); [done |].
  rewrite <- IH. by destruct (indexOfPlayer playerID players).
Qed.

Lemma AddPlayer_rosterOK (t : Team) (p : Player) :
  rosterOK t -> rosterOK (fst (AddPlayer t p)).
Proof.
  intros [Hnodup Hlen]. unfold AddPlayer.
  destruct (30 <=? length (Players t))%nat eqn:Hfull; [done |].
  destruct (existsb _ _) eqn:Hdup; [done |].
  apply Nat.leb_gt in Hfull. apply existsb_find in Hdup.
  split; cbn.
  - rewrite map_app. apply NoDup_app. split; [exact Hnodup |].
    split; [| apply NoDup_singleton].
    intros id Hin ->%list_elem_of_singleton.
    apply list_elem_of_fmap in Hin as (q & Hq & Hin).
    apply list_elem_of_In in Hin.
    apply (proj1 (find_none_iff _ _) Hdup) in Hin.
    apply String.eqb_neq in Hin. congruence.
  - rewrite length_app. cbn. lia.
Qed.

Lemma find_app_skip {A : Type} (f : A -> bool) (l1 l2 : list A) (x : A) :
  f x = false -> List.find f (l1 ++ x :: l2) = List.find f (l1 ++ l2).
Proof. intros Hx. rewrite !find_app_l. cbn. by rewrite Hx. Qed.

(** X1: a player added with success is the one [GetPlayer] returns for
    the identity; the other identities are looked up as before, and the
    roster has one player more. *)
Theorem AddPlayer_then_GetPlayer (t : Team) (p : Player) :
  snd (AddPlayer t p) = None ->
  GetPlayer (fst (AddPlayer t p)) (ID p) = (Some p, None)
  /\ (forall playerID, playerID <> ID p ->
        GetPlayer (fst (AddPlayer t p)) playerID = GetPlayer t playerID)
  /\ length (Players (fst (AddPlayer t p))) = S (length (Players t)).
Proof.
  unfold AddPlayer.
  destruct (30 <=? length (Players t))%nat; [done |].
  destruct (existsb _ _) eqn:Hdup; [done |].
  intros _. apply existsb_find in Hdup. cbn [fst].
  split; [| split].
  - unfold GetPlayer. cbn. rewrite find_app_l, Hdup. cbn.
    by rewrite String.eqb_refl.
  - intros playerID Hne. apply GetPlayer_same_find. cbn.
    rewrite find_app_l.
    destruct (List.find (fun q => String.eqb (ID q) playerID) (Players t)); [done |].
    cbn. apply not_eq_sym, String.eqb_neq in Hne. by rewrite Hne.
  - cbn. rewrite length_app. cbn. lia.
Qed.

Lemma AddPlayer_then_GetPlayer_witness :
  snd (AddPlayer town (squadPlayer "x1" PositionMID)) = None
  /\ GetPlayer (fst (AddPlayer town (squadPlayer "x1" PositionMID))) "x1"
     = (Some (squadPlayer "x1" PositionMID), None).
Proof.
  split; [reflexivity |].
  apply (AddPlayer_then_GetPlayer town (squadPlayer "x1" PositionMID)). reflexivity.
Defined.

(** X2: [AddPlayer] keeps the roster invariant: however many players are
    offered to a team of at most thirty players with distinct
    identifiers, accepted or refused, the roster still has at most thirty
    players with distinct identifiers; a refused player leaves the team
    as it was. *)
Theorem AddPlayer_keeps_roster_invariant (t : Team) (ps : list Player) :
  rosterOK t ->
  rosterOK (fold_left (fun t p => fst (AddPlayer t p)) ps t)
  /\ (forall p, snd (AddPlayer t p) <> None -> fst (AddPlayer t p) = t).
Proof.
  intros Hok. split.
  - revert t Hok. induction ps as [| p ps IH]; intros t Hok; [exact Hok |].
    cbn. apply IH. by apply AddPlayer_rosterOK.
  - intros p. unfold AddPlayer.
    destruct (30 <=? length (Players t))%nat; [done |].
    by destruct (existsb _ _).
Qed.

Lemma town_rosterOK : rosterOK town.
Proof. split; [apply (bool_decide_unpack _); vm_compute; exact I | cbn; lia]. Qed.

Lemma AddPlayer_keeps_roster_invariant_witness :
  rosterOK town
  /\ rosterOK
       (fold_left (fun t p => fst (AddPlayer t p))
          [squadPlayer "x1" PositionMID; squadPlayer "g1" PositionGK] town).
Proof.
  split; [exact town_rosterOK |].
  apply (AddPlayer_keeps_roster_invariant town
           [squadPlayer "x1" PositionMID; squadPlayer "g1" PositionGK] town_rosterOK).
Defined.

(** X3: [RemovePlayer] succeeds exactly when [GetPlayer] finds the
    identity; when it fails, the error is "player not found in squad" and
    the team is as it was. *)
Theorem RemovePlayer_succeeds_iff_GetPlayer (t : Team) (playerID : PlayerID) :
  (snd (RemovePlayer t playerID) = None <-> snd (GetPlayer t playerID) = None)
  /\ (snd (RemovePlayer t playerID) = None
      \/ RemovePlayer t playerID = (t, Some (Errorf "player not found in squad"))).
Proof.
  unfold RemovePlayer, GetPlayer.
  destruct (indexOfPlayer playerID (Players t)) as [i |] eqn:Hi.
  - destruct (indexOfPlayer_Some _ _ _ Hi) as (p & Hp & Hid & Hbefore).
    rewrite <- (take_drop_middle _ _ _ Hp), find_app_l, Hbefore. cbn.
    apply String.eqb_eq in Hid. rewrite Hid. cbn. tauto.
  - apply indexOfPlayer_None in Hi. rewrite Hi. cbn. split; [done | by right].
Qed.

(** X4: in a roster with distinct identifiers, a removed player is no
    longer found, every other identity is looked up as before, the roster
    has one player less, and the removed player is neither captain nor
    vice-captain. *)
Theorem RemovePlayer_removes (t : Team) (playerID : PlayerID) :
  NoDup (map ID (Players t)) ->
  snd (RemovePlayer t playerID) = None ->
  GetPlayer (fst (RemovePlayer t playerID)) playerID = (None, Some ErrPlayerNotFound)
  /\ (forall playerID', playerID' <> playerID ->
        GetPlayer (fst (RemovePlayer t playerID)) playerID' = GetPlayer t playerID')
  /\ S (length (Players (fst (RemovePlayer t playerID)))) = length (Players t)
  /\ Captain (fst (RemovePlayer t playerID)) <> Some playerID
  /\ ViceCaptain (fst (RemovePlayer t playerID)) <> Some playerID.
Proof.
  intros Hnodup. unfold RemovePlayer.
  destruct (indexOfPlayer playerID (Players t)) as [i |] eqn:Hi; [| done].
  intros _. cbn [fst].
  destruct (indexOfPlayer_Some _ _ _ Hi) as (p & Hp & Hid & Hbefore).
  pose proof (take_drop_middle _ _ _ Hp) as Hsplit.
  assert (Hclear : forall c, clearIf playerID c <> Some playerID).
  { intros [c |]; [| done]. cbn. destruct (String.eqb c playerID) eqn:Hc; [done |].
    apply String.eqb_neq in Hc. congruence. }
  repeat split.
  - unfold GetPlayer. cbn.
    replace (List.find _ _) with (@None Player); [done |].
    symmetry. apply find_none_iff. intros q Hq. apply String.eqb_neq. intros Hqid.
    rewrite <- Hsplit, map_app in Hnodup. cbn in Hnodup.
    apply NoDup_app in Hnodup as (_ & Hdisj & Hrest).
    apply NoDup_cons in Hrest as [Hnotin _].
    apply in_app_or in Hq as [Hq | Hq].
    + apply (Hdisj playerID).
      * apply list_elem_of_fmap. exists q. split; [done | by apply list_elem_of_In].
      * rewrite Hid. apply list_elem_of_here.
    + apply Hnotin. rewrite Hid, <- Hqid.
      apply list_elem_of_fmap. exists q. split; [done | by apply list_elem_of_In].
  - intros playerID' Hne. apply GetPlayer_same_find. cbn.
    rewrite <- Hsplit at 3. symmetry. apply find_app_skip.
    apply String.eqb_neq. congruence.
  - cbn. rewrite <- Hsplit at 3. rewrite !length_app. cbn. lia.
  - apply Hclear.
  - apply Hclear.
Qed.

Lemma RemovePlayer_removes_witness :
  NoDup (map ID (Players town))
  /\ snd (RemovePlayer town "d5") = None
  /\ GetPlayer (fst (RemovePlayer town "d5")) "d5" = (None, Some ErrPlayerNotFound).
Proof.
  split; [exact (proj1 town_rosterOK) |]. split; [reflexivity |].
  apply (RemovePlayer_removes town "d5" (proj1 town_rosterOK)). reflexivity.
Defined.

(** X5: adding a player and removing the player again gives back the
    roster. *)
Theorem AddPlayer_RemovePlayer_round_trip (t : Team) (p : Player) :
  snd (AddPlayer t p) = None ->
  snd (RemovePlayer (fst (AddPlayer t p)) (ID p)) = None
  /\ Players (fst (RemovePlayer (fst (AddPlayer t p)) (ID p))) = Players t.
Proof.
  unfold AddPlayer.
  destruct (30 <=? length (Players t))%nat; [done |].
  destruct (existsb _ _) eqn:Hdup; [done |].
  intros _. apply existsb_find in Hdup. cbn [fst].
  assert (Hi : indexOfPlayer (ID p) (Players t ++ [p]) = Some (length (Players t))).
  { apply indexOfPlayer_None in Hdup. revert Hdup.
    induction (Players t) as [| q l IH]; cbn.
    - by rewrite String.eqb_refl.
    - destruct (String.eqb (ID q) (ID p)); [done |].
      destruct (indexOfPlayer (ID p) l); [done |]. intros _. by rewrite IH. }
  unfold RemovePlayer. cbn [Players set_Players]. rewrite Hi. cbn [fst snd Players].
  split; [reflexivity |].
  rewrite take_app_length, drop_ge by (rewrite length_app; cbn; lia).
  apply app_nil_r.
Qed.

Lemma AddPlayer_RemovePlayer_round_trip_witness :
  snd (AddPlayer town (squadPlayer "x1" PositionMID)) = None
  /\ Players (fst (RemovePlayer (fst (AddPlayer town (squadPlayer "x1" PositionMID))) "x1"))
     = Players town.
Proof.
  split; [reflexivity |].
  apply (AddPlayer_RemovePlayer_round_trip town (squadPlayer "x1" PositionMID)). reflexivity.
Defined.

(** ** ValidateLineup accepts the valid lineups *)

Lemma checkStarters_inr_inv (t : Team) (positions : list Position)
    (starters : list PlayerID) (i : nat) (positionCount counted : gmap Position Z) :
  checkStarters t positions i starters positionCount = Returns (inr counted) ->
  forall j playerID, starters !! j = Some playerID ->
    exists p pos, fst (GetPlayer t playerID) = Some p
                  /\ positions !! (i + j)%nat = Some pos
                  /\ CanPlayPosition p pos = true.
Proof.
  revert i positionCount.
  induction starters as [| head rest IH]; intros i positionCount Hret j playerID Hj.
  - discriminate.
  - cbn [checkStarters] in Hret.
    destruct (positions !! i) as [assignedPos |] eqn:Hpos; [| discriminate].
    destruct (fst (GetPlayer t head)) as [p |] eqn:Hp; [| discriminate].
    destruct (CanPlayPosition p assignedPos) eqn:Hcan; [| discriminate].
    cbn [negb] in Hret. destruct j as [| j].
    + injection Hj as <-. exists p, assignedPos. by rewrite Nat.add_0_r.
    + destruct (IH _ _ Hret j playerID Hj) as (q & pos & Hq & Hpos' & Hcan').
      exists q, pos. replace (i + S j)%nat with (S i + j)%nat by lia. done.
Qed.

Lemma checkRequirements_None_iff (requiredPositions positionCount : gmap Position Z)
    (order : list Position) :
  checkRequirements requiredPositions positionCount order = None
  <-> forall pos required, In pos order -> requiredPositions !! pos = Some required ->
        mapGet positionCount pos = required.
Proof.
  induction order as [| pos rest IH]; [done |].
  cbn [checkRequirements].
  destruct (requiredPositions !! pos) as [required |] eqn:Hreq.
  - destruct (mapGet positionCount pos =? required) eqn:Heq; cbn [negb].
    + apply Z.eqb_eq in Heq. rewrite IH. split.
      * intros Hrest q r [<- | Hin] Hq; [congruence | by apply Hrest].
      * intros Hall q r Hin. apply Hall. by right.
    + apply Z.eqb_neq in Heq. split; [done |].
      intros Hall. destruct Heq. apply Hall; [by left | done].
  - rewrite IH. split.
    + intros Hrest q r [<- | Hin] Hq; [congruence | by apply Hrest].
    + intros Hall q r Hin. apply Hall. by right.
Qed.

Lemma mapGet_counted (ps : list Position) (pos : Position) :
  (length ps <= 11)%nat ->
  mapGet (countPositions ∅ ps) pos = Z.of_nat (count_occ String.string_dec ps pos).
Proof.
  intros Hlen. rewrite mapGet_countPositions.
  - unfold mapGet. rewrite lookup_empty. cbn. lia.
  - intros q. unfold mapGet. rewrite lookup_empty. cbn. unfold Int.max_int. lia.
Qed.

Lemma validLineup_accepted (order : list Position) (t : Team) (lineup : Lineup) :
  validLineup order t lineup -> ValidateLineup order t lineup = Returns None.
Proof.
  unfold ValidateLineup, validLineup.
  intros (Hlen & Hav & Hvalid & Heligible & Hcounts).
  rewrite Hlen, (checkAvailable_None _ _ Hav), Hvalid. cbn [Nat.eqb negb].
  unfold validateFormationPositions.
  rewrite (checkStarters_eligible t (Positions lineup) (Starters lineup) 0 ∅ Heligible).
  rewrite drop_0, Hlen. f_equal.
  apply checkRequirements_None_iff. intros pos required Hin Hpos.
  rewrite mapGet_counted by (rewrite length_take; lia).
  by apply Hcounts.
Qed.

(** X6: [ValidateLineup] returns nil exactly for the valid lineups, in
    whatever order the requirements are visited. *)
Theorem ValidateLineup_accepts_iff_valid (order : list Position) (t : Team)
    (lineup : Lineup) :
  ValidateLineup order t lineup = Returns None <-> validLineup order t lineup.
Proof.
  split; [| apply validLineup_accepted].
  unfold ValidateLineup, validLineup.
  destruct (length (Starters lineup) =? 11)%nat eqn:Hlen; [| done].
  apply Nat.eqb_eq in Hlen. cbn [negb].
  destruct (checkAvailable t (Starters lineup)) eqn:Hav; [done |].
  apply checkAvailable_None_inv in Hav.
  destruct (IsValid (LineupFormation lineup)); [| done]. cbn [negb].
  unfold validateFormationPositions.
  destruct (checkStarters t (Positions lineup) 0 (Starters lineup) ∅)
    as [[err | counted] | msg] eqn:Hcheck; [done | | done].
  intros [= Hreq].
  pose proof (checkStarters_inr_inv _ _ _ _ _ _ Hcheck) as Heligible.
  rewrite (checkStarters_eligible _ _ _ _ _ Heligible) in Hcheck.
  injection Hcheck as <-. rewrite drop_0, Hlen in Hreq.
  repeat split; try done.
  intros pos required Hin Hpos.
  rewrite <- mapGet_counted by (rewrite length_take; lia).
  by apply (proj1 (checkRequirements_None_iff _ _ _) Hreq).
Qed.

Lemma checkStarters_panics_iff (t : Team) (positions : list Position)
    (starters : list PlayerID) (i : nat) (positionCount : gmap Position Z) :
  startersAvailable t starters -> (i <= length positions)%nat ->
  (exists msg, checkStarters t positions i starters positionCount = Panics msg)
  <-> ((length positions < i + length starters)%nat
       /\ forall j playerID, (i + j < length positions)%nat ->
            starters !! j = Some playerID ->
            exists p pos, fst (GetPlayer t playerID) = Some p
                          /\ positions !! (i + j)%nat = Some pos
                          /\ CanPlayPosition p pos = true).
Proof.
  revert i positionCount.
  induction starters as [| head rest IH]; intros i positionCount Hav Hi.
  - cbn. split; [by intros [msg Hmsg] | lia].
  - assert (Hrest : startersAvailable t rest).
    { intros id Hin. apply Hav. by right. }
    destruct (Hav head ltac:(by left)) as (p & Hp & _).
    cbn [checkStarters length]. rewrite Hp.
    destruct (positions !! i) as [assignedPos |] eqn:Hpos.
    + pose proof (lookup_lt_Some _ _ _ Hpos) as Hlt.
      destruct (CanPlayPosition p assignedPos) eqn:Hcan; cbn [negb].
      * rewrite IH by (done || lia). split.
        -- intros [Hlen Hall]. split; [lia |]. intros [| j] id Hj Hid.
           ++ injection Hid as <-. exists p, assignedPos. by rewrite Nat.add_0_r.
           ++ replace (i + S j)%nat with (S i + j)%nat by lia.
              apply Hall; [lia | done].
        -- intros [Hlen Hall]. split; [lia |]. intros j id Hj Hid.
           replace (S i + j)%nat with (i + S j)%nat by lia.
           apply Hall; [lia | done].
      * split; [by intros [msg Hmsg] |]. intros [_ Hall].
        destruct (Hall 0%nat head ltac:(lia) eq_refl) as (q & pos & Hq & Hpos' & Hcan').
        rewrite Nat.add_0_r in Hpos'. congruence.
    + apply lookup_ge_None in Hpos. split.
      * intros _. split; [lia |]. intros j id Hj. lia.
      * intros _. by eexists.
Qed.

(** X7: [ValidateLineup] panics exactly when the lineup passes the first
    stages (eleven starters, all in the roster and available, a valid
    formation), has fewer than eleven assigned positions, and every
    starter that has an assigned position can play it: the position of
    the next starter is then read out of range.  In every other case it
    returns. *)
Theorem ValidateLineup_panics_iff (order : list Position) (t : Team) (lineup : Lineup) :
  ((exists msg, ValidateLineup order t lineup = Panics msg)
   <-> (length (Starters lineup) = 11%nat
        /\ startersAvailable t (Starters lineup)
        /\ IsValid (LineupFormation lineup) = true
        /\ (length (Positions lineup) < 11)%nat
        /\ forall j playerID, (j < length (Positions lineup))%nat ->
             Starters lineup !! j = Some playerID ->
             exists p pos, fst (GetPlayer t playerID) = Some p
                           /\ Positions lineup !! j = Some pos
                           /\ CanPlayPosition p pos = true))
  /\ ((exists msg, ValidateLineup order t lineup = Panics msg)
      \/ (exists r, ValidateLineup order t lineup = Returns r)).
Proof.
  split; [| destruct (ValidateLineup order t lineup); [right | left]; by eexists].
  unfold ValidateLineup.
  destruct (length (Starters lineup) =? 11)%nat eqn:Hlen; cbn [negb].
  2: { apply Nat.eqb_neq in Hlen. split; [by intros [msg Hmsg] | tauto]. }
  apply Nat.eqb_eq in Hlen.
  destruct (checkAvailable t (Starters lineup)) eqn:Hav.
  { split; [by intros [msg Hmsg] |]. intros (_ & Hav' & _).
    apply checkAvailable_None in Hav'. congruence. }
  apply checkAvailable_None_inv in Hav.
  destruct (IsValid (LineupFormation lineup)); cbn [negb].
  2: { split; [by intros [msg Hmsg] | by intros (_ & _ & ? & _)]. }
  unfold validateFormationPositions.
  pose proof (checkStarters_panics_iff t (Positions lineup) (Starters lineup) 0 ∅ Hav
                ltac:(lia)) as Hiff.
  rewrite Hlen in Hiff. cbn [Nat.add] in Hiff. rewrite <- Hiff.
  destruct (checkStarters t (Positions lineup) 0 (Starters lineup) ∅)
    as [[err | counted] | msg].
  - split; [by intros [msg Hmsg] | by intros (_ & _ & _ & [msg Hmsg])].
  - split; [by intros [msg Hmsg] | by intros (_ & _ & _ & [msg Hmsg])].
  - split; [intros _; repeat split; try done; by eexists | intros _; by eexists].
Qed.

(** ** The requirements of a formation *)

Lemma GetPositionRequirements_cases (f : Formation) :
  exists def mid fwd,
    GetPositionRequirements f = mkRequirements 1 def mid fwd
    /\ 3 <= def <= 5 /\ 3 <= mid <= 5 /\ 1 <= fwd <= 3 /\ def + mid + fwd = 10.
Proof.
  unfold GetPositionRequirements.
  repeat match goal with
         | |- context [String.eqb f ?x] => destruct (String.eqb f x)
         end;
    do 3 eexists; (split; [reflexivity | lia]).
Qed.

Lemma mapGet_mkRequirements (gk def mid fwd : Z) :
  mapGet (mkRequirements gk def mid fwd) PositionGK = gk
  /\ mapGet (mkRequirements gk def mid fwd) PositionDEF = def
  /\ mapGet (mkRequirements gk def mid fwd) PositionMID = mid
  /\ mapGet (mkRequirements gk def mid fwd) PositionFWD = fwd.
Proof. repeat split; vm_compute; reflexivity. Qed.

(** X8: every formation, also one that is not valid (it gets the
    requirements of 4-4-2), asks for exactly one goalkeeper, three to five
    defenders, three to five midfielders, one to three forwards, eleven
    players in total, and for no other position. *)
Theorem GetPositionRequirements_eleven (f : Formation) :
  let requirements := GetPositionRequirements f in
  mapGet requirements PositionGK = 1
  /\ 3 <= mapGet requirements PositionDEF <= 5
  /\ 3 <= mapGet requirements PositionMID <= 5
  /\ 1 <= mapGet requirements PositionFWD <= 3
  /\ mapGet requirements PositionGK + mapGet requirements PositionDEF
     + mapGet requirements PositionMID + mapGet requirements PositionFWD = 11
  /\ forall pos, is_Some (requirements !! pos) <-> In pos positionPriority.
Proof.
  destruct (GetPositionRequirements_cases f) as (def & mid & fwd & Hf & Hdef & Hmid & Hfwd & Hsum).
  cbn zeta. rewrite Hf.
  destruct (mapGet_mkRequirements 1 def mid fwd) as (-> & -> & -> & ->).
  repeat split; try lia.
  - intros [required Hreq]. apply mkRequirements_lookup in Hreq.
    cbn. destruct Hreq as [[-> _] | [[-> _] | [[-> _] | [-> _]]]]; tauto.
  - intros [<- | [<- | [<- | [<- | []]]]]; by eexists.
Qed.

(** ** Insertion sort meets the contract of sort.Slice *)

Lemma insertSorted_perm {A : Type} (less : A -> A -> bool) (x : A) (l : list A) :
  Permutation (insertSorted less x l) (x :: l).
Proof.
  induction l as [| y rest IH]; [reflexivity |].
  cbn. destruct (less y x); [| reflexivity].
  rewrite IH. apply perm_swap.
Qed.

Lemma insertionSort_perm {A : Type} (less : A -> A -> bool) (l : list A) :
  Permutation (insertionSort less l) l.
Proof.
  induction l as [| x l IH]; [reflexivity |].
  cbn. rewrite insertSorted_perm. by constructor.
Qed.

Lemma insertSorted_sorted {A : Type} (key : A -> Z) (x : A) (l : list A) :
  StronglySorted (fun a b => key b <= key a) l ->
  StronglySorted (fun a b => key b <= key a) (insertSorted (fun a b => key b <? key a) x l).
Proof.
  induction 1 as [| y rest Hsorted IH Hall].
  - repeat constructor.
  - cbn. destruct (key x <? key y) eqn:Hlt.
    + apply Z.ltb_lt in Hlt. constructor; [exact IH |].
      apply (Permutation_Forall (Permutation_sym (insertSorted_perm _ x rest))).
      constructor; [lia | exact Hall].
    + apply Z.ltb_ge in Hlt. constructor; [by constructor |].
      constructor; [exact Hlt |].
      eapply Forall_impl; [exact Hall |]. cbn. intros z Hz. lia.
Qed.

Lemma insertionSort_sorted {A : Type} (key : A -> Z) (l : list A) :
  StronglySorted (fun a b => key b <= key a) (insertionSort (fun a b => key b <? key a) l).
Proof.
  induction l as [| x l IH]; [constructor |].
  cbn. by apply insertSorted_sorted.
Qed.

#[global] Instance insertionSorter : SliceSorter := {|
  sortSlice := @insertionSort;
  sortSlice_perm := @insertionSort_perm;
  sortSlice_sorted := @insertionSort_sorted
|}.

(** ** RecommendLineup *)

Lemma GetPlayer_of_roster (t : Team) (c : Player) :
  NoDup (map ID (Players t)) -> In c (Players t) ->
  fst (GetPlayer t (ID c)) = Some c.
Proof.
  rewrite GetPlayer_find. induction (Players t) as [| q l IH]; [done |].
  cbn [map]. intros [Hnotin Hnodup]%NoDup_cons Hin. cbn [List.find].
  destruct (String.eqb (ID q) (ID c)) eqn:Hq.
  - apply String.eqb_eq in Hq. destruct Hin as [-> | Hin]; [done |].
    destruct Hnotin. rewrite Hq. apply list_elem_of_fmap. exists c.
    split; [done | by apply list_elem_of_In].
  - destruct Hin as [-> | Hin]; [by rewrite String.eqb_refl in Hq | by apply IH].
Qed.

Lemma filter_ID_NoDup (f : Player -> bool) (l : list Player) :
  NoDup (map ID l) -> NoDup (map ID (List.filter f l)).
Proof.
  induction l as [| q l IH]; [done |].
  cbn [map List.filter]. intros [Hnotin Hnodup]%NoDup_cons.
  destruct (f q); [| by apply IH].
  cbn [map]. apply NoDup_cons. split; [| by apply IH].
  intros Hin. apply Hnotin.
  apply list_elem_of_fmap in Hin as (r & -> & Hr).
  apply list_elem_of_fmap. exists r. split; [done |].
  apply list_elem_of_In. apply list_elem_of_In, filter_In in Hr. tauto.
Qed.

Lemma count_occ_replicate (n : nat) (x y : string) :
  count_occ String.string_dec (replicate n x) y = if decide (x = y) then n else 0%nat.
Proof.
  induction n as [| n IH]; cbn [replicate]; [by case_decide |].
  case_decide as Heq.
  - rewrite count_occ_cons_eq by done. by rewrite IH.
  - by rewrite count_occ_cons_neq.
Qed.

Lemma fold_assignStarter (pos : Position) (cs : list Player) (lineup : Lineup)
    (used : gset PlayerID) :
  exists used',
    fold_left (assignStarter pos) cs (lineup, used)
    = (mkLineup (LineupFormation lineup) (Starters lineup ++ map ID cs)
         (Positions lineup ++ replicate (length cs) pos) (Substitutes lineup)
         (LineupCaptain lineup),
       used')
    /\ forall playerID, playerID ∈ used' <-> In playerID (map ID cs) \/ playerID ∈ used.
Proof.
  revert lineup used. induction cs as [| c cs IH]; intros lineup used.
  - exists used. cbn. rewrite !app_nil_r. destruct lineup. split; [reflexivity | tauto].
  - cbn [fold_left assignStarter].
    destruct (IH (mkLineup (LineupFormation lineup) (Starters lineup ++ [ID c])
                    (Positions lineup ++ [pos]) (Substitutes lineup) (LineupCaptain lineup))
                ({[ID c]} ∪ used)) as (used' & -> & Hused).
    exists used'. cbn. rewrite <- !app_assoc. split; [reflexivity |].
    intros playerID. rewrite Hused, elem_of_union, elem_of_singleton.
    intuition congruence.
Qed.

Section Recommend.
Context {sorter : SliceSorter}.

Lemma getBestCandidates_In (available : list Player) (pos : Position)
    (used : gset PlayerID) (c : Player) :
  In c (getBestCandidates available pos used)
  <-> In c available /\ (ID c ∉ used) /\ CanPlayPosition c pos = true.
Proof.
  unfold getBestCandidates. split.
  - intros Hin. apply (Permutation_in _ (sortSlice_perm _ _ _)) in Hin.
    apply filter_In in Hin as [Hin Hf]. apply andb_true_iff in Hf as [Hu Hc].
    apply negb_true_iff, bool_decide_eq_false in Hu. done.
  - intros (Hin & Hu & Hc).
    apply (Permutation_in _ (Permutation_sym (sortSlice_perm _ _ _))).
    apply filter_In. split; [done |]. rewrite Hc, andb_true_r.
    by apply negb_true_iff, bool_decide_eq_false.
Qed.

Lemma getBestCandidates_NoDup (available : list Player) (pos : Position)
    (used : gset PlayerID) :
  NoDup (map ID available) -> NoDup (map ID (getBestCandidates available pos used)).
Proof.
  intros Hnodup. unfold getBestCandidates.
  eapply NoDup_Permutation_proper.
  - apply Permutation_map. apply sortSlice_perm.
  - by apply filter_ID_NoDup.
Qed.

Lemma fillPosition_step (available : list Player) (requirements : gmap Position Z)
    (st : Lineup * gset PlayerID) (pos : Position) :
  NoDup (map ID available) -> selection available st ->
  let cs := chosenFor available requirements (snd st) pos in
  let st' := fillPosition available requirements st pos in
  selection available st'
  /\ Starters (fst st') = Starters (fst st) ++ map ID cs
  /\ Positions (fst st') = Positions (fst st) ++ replicate (length cs) pos
  /\ LineupFormation (fst st') = LineupFormation (fst st)
  /\ LineupCaptain (fst st') = LineupCaptain (fst st).
Proof.
  intros Hnodup (Heligible & Hdistinct & Hused). cbn zeta. unfold fillPosition, chosenFor.
  destruct st as [lineup used]. cbn [fst snd] in *.
  set (candidates := getBestCandidates available pos used).
  set (cs := take (Z.to_nat (mapGet requirements pos)) candidates).
  destruct (fold_assignStarter pos cs lineup used) as (used' & -> & Hused').
  assert (Hcs : forall c, In c cs ->
    In c available /\ (ID c ∉ used) /\ CanPlayPosition c pos = true).
  { intros c Hc. apply getBestCandidates_In.
    apply list_elem_of_In. apply list_elem_of_In in Hc.
    by apply (subseteq_take (Z.to_nat (mapGet requirements pos)) candidates). }
  assert (Hids : NoDup (map ID cs)).
  { eapply sublist_NoDup; [by apply (getBestCandidates_NoDup available pos used) |].
    subst cs. rewrite <- firstn_map. apply sublist_take. }
  cbn [fst snd Starters Positions LineupFormation LineupCaptain].
  split; [| done].
  split; [| split]; cbn [fst snd Starters Positions].
  - apply Forall2_app; [exact Heligible |].
    clear Hids Hused'. induction cs as [| c cs IH]; [constructor |].
    cbn. constructor.
    + exists c. destruct (Hcs c ltac:(by left)) as (? & _ & ?). done.
    + apply IH. intros c' Hc'. apply Hcs. by right.
  - apply NoDup_app. split; [exact Hdistinct |]. split; [| exact Hids].
    intros playerID Hin Hin'.
    apply list_elem_of_fmap in Hin' as (c & -> & Hc).
    apply list_elem_of_In in Hc. destruct (Hcs c Hc) as (_ & Hnot & _).
    apply Hnot, Hused. by apply list_elem_of_In.
  - intros playerID. rewrite Hused', Hused, in_app_iff. tauto.
Qed.

Lemma chosenFor_length (available : list Player) (requirements : gmap Position Z)
    (used : gset PlayerID) (pos : Position) :
  (length (chosenFor available requirements used pos)
   <= Z.to_nat (mapGet requirements pos))%nat.
Proof. unfold chosenFor. rewrite length_take. lia. Qed.

(** The lineup and the used players after the four positions: the
    goalkeepers chosen are the first starters, and the positions assigned
    come in four blocks whose sizes are bounded by the requirements. *)
Lemma selection_fold (available : list Player) (formation : Formation) :
  NoDup (map ID available) ->
  exists (rest : list PlayerID) (k2 k3 k4 : nat) (def mid fwd : Z),
    let requirements := GetPositionRequirements formation in
    let st :=
      fold_left (fillPosition available requirements) positionPriority
        (mkLineup formation [] [] [] "", ∅) in
    let keepers := chosenFor available requirements ∅ PositionGK in
    selection available st
    /\ Starters (fst st) = map ID keepers ++ rest
    /\ Positions (fst st)
       = replicate (length keepers) PositionGK ++ replicate k2 PositionDEF
         ++ replicate k3 PositionMID ++ replicate k4 PositionFWD
    /\ length (Starters (fst st)) = (length keepers + k2 + k3 + k4)%nat
    /\ LineupFormation (fst st) = formation
    /\ LineupCaptain (fst st) = ""
    /\ requirements = mkRequirements 1 def mid fwd
    /\ Z.of_nat (length keepers) <= 1
    /\ Z.of_nat k2 <= def /\ Z.of_nat k3 <= mid /\ Z.of_nat k4 <= fwd
    /\ def + mid + fwd = 10.
Proof.
  intros Hnodup.
  destruct (GetPositionRequirements_cases formation)
    as (def & mid & fwd & Hreq & Hdef & Hmid & Hfwd & Hsum).
  destruct (mapGet_mkRequirements 1 def mid fwd) as (Hgk' & Hdef' & Hmid' & Hfwd').
  cbn zeta. set (requirements := GetPositionRequirements formation) in *.
  set (st0 := (mkLineup formation [] [] [] "", (∅ : gset PlayerID))).
  assert (H0 : selection available st0).
  { split; [constructor | split; [constructor |]]. intros playerID. cbn.
    split; [by intros ?%elem_of_empty | done]. }
  destruct (fillPosition_step available requirements st0 PositionGK Hnodup H0)
    as (H1 & Hs1 & Hpos1 & Hf1 & Hc1).
  set (st1 := fillPosition available requirements st0 PositionGK) in *.
  destruct (fillPosition_step available requirements st1 PositionDEF Hnodup H1)
    as (H2 & Hs2 & Hpos2 & Hf2 & Hc2).
  set (st2 := fillPosition available requirements st1 PositionDEF) in *.
  destruct (fillPosition_step available requirements st2 PositionMID Hnodup H2)
    as (H3 & Hs3 & Hpos3 & Hf3 & Hc3).
  set (st3 := fillPosition available requirements st2 PositionMID) in *.
  destruct (fillPosition_step available requirements st3 PositionFWD Hnodup H3)
    as (H4 & Hs4 & Hpos4 & Hf4 & Hc4).
  change (snd st0) with (∅ : gset PlayerID) in *.
  pose proof (chosenFor_length available requirements ∅ PositionGK) as Hk1.
  pose proof (chosenFor_length available requirements (snd st1) PositionDEF) as Hk2.
  pose proof (chosenFor_length available requirements (snd st2) PositionMID) as Hk3.
  pose proof (chosenFor_length available requirements (snd st3) PositionFWD) as Hk4.
  set (cs1 := chosenFor available requirements ∅ PositionGK) in *.
  set (cs2 := chosenFor available requirements (snd st1) PositionDEF) in *.
  set (cs3 := chosenFor available requirements (snd st2) PositionMID) in *.
  set (cs4 := chosenFor available requirements (snd st3) PositionFWD) in *.
  exists (map ID cs2 ++ map ID cs3 ++ map ID cs4), (length cs2), (length cs3), (length cs4),
    def, mid, fwd.
  unfold positionPriority. cbn [fold_left]. fold st0 st1 st2 st3.
  rewrite Hreq in Hk1, Hk2, Hk3, Hk4.
  rewrite Hgk' in Hk1. rewrite Hdef' in Hk2. rewrite Hmid' in Hk3. rewrite Hfwd' in Hk4.
  split; [exact H4 |].
  split; [rewrite Hs4, Hs3, Hs2, Hs1; cbn; by rewrite <- !app_assoc |].
  split; [rewrite Hpos4, Hpos3, Hpos2, Hpos1; cbn; by rewrite <- !app_assoc |].
  split; [rewrite Hs4, Hs3, Hs2, Hs1; cbn; rewrite !length_app, !length_map; lia |].
  split; [by rewrite Hf4, Hf3, Hf2, Hf1 |].
  split; [by rewrite Hc4, Hc3, Hc2, Hc1 |].
  split; [exact Hreq |]. lia.
Qed.

(** What a successful [RecommendLineup] returns. *)
Lemma RecommendLineup_Some (now : Time) (sm : SquadManager) (formation : Formation)
    (lineup : Lineup) :
  RecommendLineup now sm formation = (Some lineup, None) ->
  let st :=
    fold_left (fillPosition (GetAvailablePlayers (team sm)) (GetPositionRequirements formation))
      positionPriority (mkLineup formation [] [] [] "", ∅) in
  (11 <= length (Starters (fst st)))%nat
  /\ LineupFormation lineup = LineupFormation (fst st)
  /\ Starters lineup = Starters (fst st)
  /\ Positions lineup = Positions (fst st)
  /\ Substitutes lineup = fillSubstitutes (GetAvailablePlayers (team sm)) (snd st)
  /\ LineupCaptain lineup
     = match selectCaptain now sm (Starters (fst st)) with
       | Some captain => captain
       | None => LineupCaptain (fst st)
       end.
Proof.
  unfold RecommendLineup. cbn zeta.
  destruct (fold_left _ _ _) as [l used].
  destruct (length (Starters l) <? 11)%nat eqn:Hlen; [done |].
  intros [= <-]. apply Nat.ltb_ge in Hlen. cbn. done.
Qed.

Lemma RecommendLineup_valid (now : Time) (sm : SquadManager) (formation : Formation)
    (lineup : Lineup) (order : list Position) :
  NoDup (map ID (Players (team sm))) ->
  IsValid formation = true ->
  RecommendLineup now sm formation = (Some lineup, None) ->
  validLineup order (team sm) lineup.
Proof.
  intros Hroster Hvalid Hrec.
  apply RecommendLineup_Some in Hrec. cbn zeta in Hrec.
  destruct Hrec as (Hlen & Hform & Hstarters & Hpositions & _).
  destruct (selection_fold (GetAvailablePlayers (team sm)) formation)
    as (rest & k2 & k3 & k4 & def & mid & fwd & Hsel & _ & Hpos & Hlen' & Hf & _ & Hreq
        & Hk1 & Hk2 & Hk3 & Hk4 & Hsum).
  { by apply filter_ID_NoDup. }
  cbn zeta in *.
  set (st := fold_left _ _ _) in *.
  destruct Hsel as (Heligible & _ & _).
  rewrite <- Hstarters, <- Hpositions in Heligible.
  assert (Hplayer : forall playerID pos, eligibleFor (GetAvailablePlayers (team sm)) playerID pos ->
    exists p, fst (GetPlayer (team sm) playerID) = Some p
              /\ IsAvailable p = true /\ CanPlayPosition p pos = true).
  { intros playerID pos (c & Hc & <- & Hcan). exists c.
    apply filter_In in Hc as [Hc Hav]. by rewrite GetPlayer_of_roster. }
  assert (H11 : length (Starters lineup) = 11%nat) by (rewrite Hstarters; lia).
  split; [exact H11 |]. split; [| split; [by rewrite Hform, Hf | split]].
  - intros playerID Hin.
    apply list_elem_of_In, list_elem_of_lookup in Hin as [j Hj].
    destruct (Forall2_lookup_l _ _ _ _ _ Heligible Hj) as (pos & _ & Hel).
    destruct (Hplayer _ _ Hel) as (p & ? & ? & _). by exists p.
  - intros j playerID Hj.
    destruct (Forall2_lookup_l _ _ _ _ _ Heligible Hj) as (pos & Hpos' & Hel).
    destruct (Hplayer _ _ Hel) as (p & ? & _ & ?). by exists p, pos.
  - intros pos required _ Hrequired.
    rewrite Hform, Hf, Hreq in Hrequired. apply mkRequirements_lookup in Hrequired.
    rewrite take_ge by (rewrite <- (Forall2_length _ _ _ Heligible); lia).
    rewrite Hpositions, Hpos, !count_occ_app, !count_occ_replicate.
    rewrite Hstarters in H11.
    destruct Hrequired as [[-> ->] | [[-> ->] | [[-> ->] | [-> ->]]]];
      repeat case_decide; try done; lia.
Qed.

Lemma fillSubstitutes_fold (used : gset PlayerID) (l : list Player) (subs : list PlayerID) :
  exists more,
    fold_left
      (fun subs p =>
         if negb (bool_decide (ID p ∈ used)) && (length subs <? 7)%nat
         then subs ++ [ID p] else subs)
      l subs
    = subs ++ more
    /\ more `sublist_of` map ID (List.filter (fun p => negb (bool_decide (ID p ∈ used))) l)
    /\ (length subs <= 7 -> length (subs ++ more) <= 7)%nat.
Proof.
  revert subs. induction l as [| p l IH]; intros subs.
  - exists []. cbn. rewrite app_nil_r. done.
  - cbn [fold_left List.filter].
    destruct (negb (bool_decide (ID p ∈ used))) eqn:Hp; cbn [andb].
    + destruct (length subs <? 7)%nat eqn:Hlen.
      * apply Nat.ltb_lt in Hlen.
        destruct (IH (subs ++ [ID p])) as (more & -> & Hsub & Hle).
        exists (ID p :: more). rewrite <- app_assoc. split; [done |].
        split; [by apply sublist_skip |].
        intros _. rewrite !length_app in Hle. rewrite length_app.
        cbn [length] in Hle |- *. lia.
      * destruct (IH subs) as (more & -> & Hsub & Hle).
        exists more. split; [done |]. split; [by apply sublist_cons | done].
    + destruct (IH subs) as (more & -> & Hsub & Hle). by exists more.
Qed.

Lemma fillSubstitutes_spec (available : list Player) (used : gset PlayerID) :
  fillSubstitutes available used
    `sublist_of` map ID (List.filter (fun p => negb (bool_decide (ID p ∈ used))) available)
  /\ (length (fillSubstitutes available used) <= 7)%nat.
Proof.
  unfold fillSubstitutes.
  destruct (fillSubstitutes_fold used available []) as (more & -> & Hsub & Hle).
  split; [done |]. apply Hle. cbn. lia.
Qed.

Lemma bestCaptain_starter (now : Time) (t : Team) (starters : list PlayerID)
    (best : option Player * float64) (p : Player) :
  fst (fold_left
         (fun (best : option Player * float64) id =>
            match GetPlayer t id with
            | (Some p, None) =>
                let score :=
                  (F64.of_int (Age now p)
                   + F64.of_int (TotalMatches (PlayerCareerStats p)) / F64.of_int 10)%f64 in
                if (snd best <? score)%f64 then (Some p, score) else best
            | _ => best
            end)
         starters best) = Some p ->
  fst best = Some p \/ In (ID p) starters.
Proof.
  revert best. induction starters as [| id starters IH]; intros best; [by left |].
  cbn [fold_left]. intros Hfold. apply IH in Hfold as [Hbest | Hin]; [| right; by right].
  unfold GetPlayer in Hbest.
  destruct (List.find _ (Players t)) as [q |] eqn:Hq; [| by left].
  cbn zeta in Hbest. destruct (snd best <? _)%f64; [| by left].
  injection Hbest as ->. apply find_some in Hq as [_ Hq%String.eqb_eq].
  right. by left.
Qed.

Lemma selectCaptain_starter (now : Time) (sm : SquadManager) (starters : list PlayerID)
    (captain : PlayerID) :
  selectCaptain now sm starters = Some captain -> In captain starters.
Proof.
  unfold selectCaptain.
  assert (Hbest : match fst (bestCaptain now (team sm) starters) with
                  | Some bestPlayer => Some (ID bestPlayer)
                  | None => None
                  end = Some captain -> In captain starters).
  { destruct (fst (bestCaptain now (team sm) starters)) as [p |] eqn:Hp; [| done].
    intros [= <-]. by apply bestCaptain_starter in Hp as [Hp | Hp]. }
  destruct (Captain (team sm)) as [current |]; [| exact Hbest].
  destruct (existsb (fun id => String.eqb id current) starters) eqn:Hex; [| exact Hbest].
  intros [= <-]. apply existsb_exists in Hex as (id & Hin & Heq%String.eqb_eq).
  by subst.
Qed.

(** The second loop of [selectCaptain], from any best so far: the score
    kept only grows, no starter found in the roster has a greater score
    than the one kept, and the player kept is the one whose score it is. *)
Lemma bestCaptain_fold (now : Time) (t : Team) (starters : list PlayerID)
    (best : option Player * float64) :
  let r :=
    fold_left
      (fun (best : option Player * float64) id =>
         match GetPlayer t id with
         | (Some p, None) =>
             let score :=
               (F64.of_int (Age now p)
                + F64.of_int (TotalMatches (PlayerCareerStats p)) / F64.of_int 10)%f64 in
             if (snd best <? score)%f64 then (Some p, score) else best
         | _ => best
         end)
      starters best in
  (r = best \/ (snd best <? snd r)%f64 = true)
  /\ (forall id p, In id starters -> GetPlayer t id = (Some p, None) ->
        (snd r <? experience now p)%f64 = false)
  /\ (r = best
      \/ exists p, In (ID p) starters /\ GetPlayer t (ID p) = (Some p, None)
                   /\ r = (Some p, experience now p)).
Proof.
  cbv zeta. set (step := fun (best : option Player * float64) (id : PlayerID) => _).
  revert best. induction starters as [| id starters IH]; intros best.
  { cbn. split; [by left |]. split; [by intros ? ? [] | by left]. }
  cbn [fold_left].
  specialize (IH (step best id)).
  set (r := fold_left step starters (step best id)) in *.
  destruct IH as (Hgrow & Hmax & Hkept).
  assert (Hstep : (step best id = best
                   /\ forall p, GetPlayer t id = (Some p, None) ->
                        (snd best <? experience now p)%f64 = false)
                  \/ exists p, GetPlayer t id = (Some p, None) /\ ID p = id
                               /\ (snd best <? experience now p)%f64 = true
                               /\ step best id = (Some p, experience now p)).
  { subst step. cbn beta. unfold GetPlayer.
    destruct (List.find _ (Players t)) as [q |] eqn:Hq; [| left; split; [done | by intros]].
    change (F64.of_int (Age now q)
            + F64.of_int (TotalMatches (PlayerCareerStats q)) / F64.of_int 10)%f64
      with (experience now q).
    destruct (snd best <? experience now q)%f64 eqn:Hlt.
    - right. exists q. apply find_some in Hq as [_ Hq%String.eqb_eq]. done.
    - left. split; [done |]. by intros p [= <-]. }
  split; [| split].
  - destruct Hstep as [[Hsame _] | (p & _ & _ & Hlt & Hp)].
    + by rewrite Hsame in Hgrow.
    + right. rewrite Hp in Hgrow. destruct Hgrow as [Hr | Hgrow]; [by rewrite Hr |].
      exact (ltb_trans _ _ _ Hlt Hgrow).
  - intros id' p [<- | Hin] Hfound; [| by eapply Hmax].
    destruct Hstep as [[Hsame Hnot] | (q & Hq & _ & Hlt & Hstep)].
    + rewrite Hsame in Hgrow. specialize (Hnot p Hfound).
      destruct Hgrow as [Hr | Hgrow]; [by rewrite Hr |].
      destruct (snd r <? experience now p)%f64 eqn:Hlt'; [| reflexivity].
      rewrite (ltb_trans _ _ _ Hgrow Hlt') in Hnot. discriminate.
    + rewrite Hfound in Hq. injection Hq as <-. rewrite Hstep in Hgrow.
      destruct Hgrow as [Hr | Hgrow]; [rewrite Hr; apply ltb_irrefl | by apply ltb_asym].
  - destruct Hkept as [Hsame | (p & Hin & Hp & Hr)].
    + destruct Hstep as [[Hbest _] | (p & Hp & <- & _ & Hstep)].
      * left. by rewrite Hsame.
      * right. exists p. split; [by left |]. split; [done |]. by rewrite Hsame.
    + right. exists p. split; [by right | done].
Qed.

(** What [selectCaptain] returns: the captain of the team when that
    player starts; otherwise a starter of positive score whom no starter
    outscores, and nobody only when no starter has a positive score. *)
Lemma selectCaptain_cases (now : Time) (sm : SquadManager) (starters : list PlayerID) :
  (forall current, Captain (team sm) = Some current -> In current starters ->
     selectCaptain now sm starters = Some current)
  /\ ((forall current, Captain (team sm) = Some current -> ~ In current starters) ->
      match selectCaptain now sm starters with
      | Some captain =>
          exists p, captain = ID p /\ In (ID p) starters
                    /\ GetPlayer (team sm) (ID p) = (Some p, None)
                    /\ (F64.zero <? experience now p)%f64 = true
                    /\ forall id q, In id starters -> GetPlayer (team sm) id = (Some q, None) ->
                         (experience now p <? experience now q)%f64 = false
      | None =>
          forall id q, In id starters -> GetPlayer (team sm) id = (Some q, None) ->
            (F64.zero <? experience now q)%f64 = false
      end).
Proof.
  unfold selectCaptain. split.
  - intros current -> Hin.
    assert (Hex : existsb (fun id => String.eqb id current) starters = true).
    { apply existsb_exists. exists current. split; [done | apply String.eqb_refl]. }
    by rewrite Hex.
  - intros Hout.
    assert (Hcurrent : match Captain (team sm) with
                       | Some captain =>
                           if existsb (fun id => String.eqb id captain) starters
                           then Some captain else None
                       | None => None
                       end = None).
    { destruct (Captain (team sm)) as [current |]; [| done].
      destruct (existsb (fun id => String.eqb id current) starters) eqn:Hex; [| done].
      apply existsb_exists in Hex as (id & Hin & ->%String.eqb_eq).
      by destruct (Hout current eq_refl). }
    rewrite Hcurrent. unfold bestCaptain.
    destruct (bestCaptain_fold now (team sm) starters (None, F64.zero))
      as (Hgrow & Hmax & Hkept).
    cbv zeta in Hgrow, Hmax, Hkept.
    destruct Hkept as [Hr | (p & Hin & Hp & Hr)]; rewrite Hr in *; cbn [fst snd] in *.
    + exact Hmax.
    + exists p. destruct Hgrow as [[=] | Hgrow]. done.
Qed.

Lemma GetPlayer_found (t : Team) (playerID : PlayerID) (p : Player) :
  fst (GetPlayer t playerID) = Some p -> GetPlayer t playerID = (Some p, None).
Proof.
  unfold GetPlayer. destruct (List.find _ (Players t)); [| done]. by intros [= ->].
Qed.

(** X9: the lineup [RecommendLineup] returns for a valid formation, from
    a roster with distinct identifiers, passes [ValidateLineup], whatever
    [sort.Slice] does with equal ratings and in whatever order the
    requirements are visited. *)
Theorem RecommendLineup_passes_validation (now : Time) (sm : SquadManager)
    (formation : Formation) (lineup : Lineup) (order : list Position) :
  NoDup (map ID (Players (team sm))) ->
  IsValid formation = true ->
  RecommendLineup now sm formation = (Some lineup, None) ->
  ValidateLineup order (team sm) lineup = Returns None.
Proof.
  intros Hroster Hvalid Hrec.
  apply validLineup_accepted. by apply (RecommendLineup_valid now sm formation).
Qed.

Lemma RecommendLineup_named_available (now : Time) (sm : SquadManager)
    (formation : Formation) (lineup : Lineup) (playerID : PlayerID) :
  NoDup (map ID (Players (team sm))) ->
  RecommendLineup now sm formation = (Some lineup, None) ->
  In playerID (Starters lineup ++ Substitutes lineup) ->
  exists p, fst (GetPlayer (team sm) playerID) = Some p /\ IsAvailable p = true.
Proof.
  intros Hroster Hrec.
  apply RecommendLineup_Some in Hrec. cbn zeta in Hrec.
  destruct Hrec as (_ & _ & Hstarters & _ & Hsubs & _).
  pose proof (filter_ID_NoDup IsAvailable _ Hroster) as Havailable.
  destruct (selection_fold (GetAvailablePlayers (team sm)) formation Havailable)
    as (rest & k2 & k3 & k4 & def & mid & fwd & Hsel & _).
  cbn zeta in *. set (st := fold_left _ _ _) in *.
  destruct Hsel as (Heligible & _ & _).
  destruct (fillSubstitutes_spec (GetAvailablePlayers (team sm)) (snd st)) as [Hsub _].
  rewrite <- Hsubs in Hsub. rewrite <- Hstarters in *.
  assert (Hfound : forall c, In c (GetAvailablePlayers (team sm)) ->
    exists p, fst (GetPlayer (team sm) (ID c)) = Some p /\ IsAvailable p = true).
  { intros c [Hc Hav]%filter_In. exists c. by rewrite GetPlayer_of_roster. }
  intros [Hin | Hin]%in_app_or.
  - apply list_elem_of_In, list_elem_of_lookup in Hin as [j Hj].
    destruct (Forall2_lookup_l _ _ _ _ _ Heligible Hj) as (pos & _ & c & Hc & <- & _).
    by apply Hfound.
  - apply list_elem_of_In, (sublist_subseteq _ _ Hsub) in Hin.
    apply list_elem_of_fmap in Hin as (c & -> & Hc).
    apply list_elem_of_In, filter_In in Hc as [Hc _]. by apply Hfound.
Qed.

(** X10: in the lineup [RecommendLineup] returns from a roster with
    distinct identifiers, no player appears twice among the eleven
    starters and the substitutes, there are at most seven substitutes and
    everyone named is an available player of the roster.  The captain is
    the captain of the team when that player starts; otherwise, when some
    starter has a positive experience score, such a starter whom no
    starter outscores, and when none has, the captain is left empty. *)
Theorem RecommendLineup_distinct_players (now : Time) (sm : SquadManager)
    (formation : Formation) (lineup : Lineup) :
  NoDup (map ID (Players (team sm))) ->
  RecommendLineup now sm formation = (Some lineup, None) ->
  NoDup (Starters lineup ++ Substitutes lineup)
  /\ length (Starters lineup) = 11%nat
  /\ (length (Substitutes lineup) <= 7)%nat
  /\ (forall playerID, In playerID (Starters lineup ++ Substitutes lineup) ->
        exists p, fst (GetPlayer (team sm) playerID) = Some p /\ IsAvailable p = true)
  /\ (forall current, Captain (team sm) = Some current -> In current (Starters lineup) ->
        LineupCaptain lineup = current)
  /\ ((forall current, Captain (team sm) = Some current -> ~ In current (Starters lineup)) ->
      (LineupCaptain lineup = ""
       /\ forall q, In q (Players (team sm)) -> In (ID q) (Starters lineup) ->
            (F64.zero <? experience now q)%f64 = false)
      \/ exists p, In p (Players (team sm)) /\ In (ID p) (Starters lineup)
           /\ LineupCaptain lineup = ID p
           /\ (F64.zero <? experience now p)%f64 = true
           /\ forall q, In q (Players (team sm)) -> In (ID q) (Starters lineup) ->
                (experience now p <? experience now q)%f64 = false).
Proof.
  intros Hroster Hrec.
  pose proof (fun playerID =>
                RecommendLineup_named_available now sm formation lineup playerID Hroster Hrec)
    as Hnamed.
  apply RecommendLineup_Some in Hrec. cbn zeta in Hrec.
  destruct Hrec as (Hlen & _ & Hstarters & _ & Hsubs & Hcaptain).
  pose proof (filter_ID_NoDup IsAvailable _ Hroster) as Havailable.
  destruct (selection_fold (GetAvailablePlayers (team sm)) formation Havailable)
    as (rest & k2 & k3 & k4 & def & mid & fwd & Hsel & _ & _ & Hlen' & _ & Hnocaptain & _
        & Hk1 & Hk2 & Hk3 & Hk4 & Hsum).
  cbn zeta in *. set (st := fold_left _ _ _) in *.
  destruct Hsel as (Heligible & Hdistinct & Hused).
  destruct (fillSubstitutes_spec (GetAvailablePlayers (team sm)) (snd st)) as [Hsub Hseven].
  rewrite <- Hsubs in Hsub, Hseven. rewrite <- Hstarters in *.
  destruct (selectCaptain_cases now sm (Starters lineup)) as [Hcurrent Hbest].
  assert (Hfound : forall q, In q (Players (team sm)) ->
                     GetPlayer (team sm) (ID q) = (Some q, None)).
  { intros q Hq. by apply GetPlayer_found, GetPlayer_of_roster. }
  split; [| split; [lia | split; [exact Hseven | split; [exact Hnamed | split]]]].
  - apply NoDup_app. split; [exact Hdistinct |]. split.
    + intros playerID Hin Hin'.
      apply (sublist_subseteq _ _ Hsub) in Hin'.
      apply list_elem_of_fmap in Hin' as (c & -> & Hc).
      apply list_elem_of_In, filter_In in Hc as [_ Hc].
      apply negb_true_iff, bool_decide_eq_false in Hc.
      apply Hc, Hused. by apply list_elem_of_In.
    + eapply sublist_NoDup; [| exact Hsub]. by apply filter_ID_NoDup.
  - intros current Hteam Hin. by rewrite Hcaptain, (Hcurrent current Hteam Hin).
  - intros Hout. specialize (Hbest Hout). rewrite Hcaptain.
    destruct (selectCaptain now sm (Starters lineup)) as [captain |].
    + right. destruct Hbest as (p & -> & Hin & Hp & Hpositive & Hmax).
      exists p. split.
      { unfold GetPlayer in Hp.
        destruct (List.find _ (Players (team sm))) as [p' |] eqn:Hfind; [| done].
        injection Hp as ->. by apply find_some in Hfind as [Hfind _]. }
      split; [done |]. split; [done |]. split; [done |].
      intros q Hq Hqin. by apply (Hmax (ID q)); [| apply Hfound].
    + left. split; [exact Hnocaptain |].
      intros q Hq Hqin. by apply (Hbest (ID q)); [| apply Hfound].
Qed.

Lemma RecommendLineup_fails_iff (now : Time) (sm : SquadManager) (formation : Formation) :
  let st :=
    fold_left (fillPosition (GetAvailablePlayers (team sm)) (GetPositionRequirements formation))
      positionPriority (mkLineup formation [] [] [] "", ∅) in
  RecommendLineup now sm formation = (None, Some ErrInsufficientPlayers)
  <-> (length (Starters (fst st)) < 11)%nat.
Proof.
  unfold RecommendLineup. cbn zeta.
  destruct (fold_left _ _ _) as [l used]. cbn [fst].
  destruct (length (Starters l) <? 11)%nat eqn:Hlen.
  - apply Nat.ltb_lt in Hlen. done.
  - apply Nat.ltb_ge in Hlen. split; [done | lia].
Qed.

Lemma CanPlayPosition_GK (p : Player) :
  CanPlayPosition p PositionGK = true -> PlayerPosition p = PositionGK.
Proof.
  rewrite CanPlayPosition_iff.
  intros [H | [(_ & H & _) | [(_ & H & _) | (_ & [H | [H | H]])]]]; done.
Qed.

(** X11: [RecommendLineup] fails with [ErrInsufficientPlayers] when fewer
    than eleven players of the roster are available, and when no
    available player is a goalkeeper. *)
Theorem RecommendLineup_insufficient (now : Time) (sm : SquadManager)
    (formation : Formation) :
  NoDup (map ID (Players (team sm))) ->
  (length (GetAvailablePlayers (team sm)) < 11)%nat
  \/ (forall p, In p (GetAvailablePlayers (team sm)) -> PlayerPosition p <> PositionGK) ->
  RecommendLineup now sm formation = (None, Some ErrInsufficientPlayers).
Proof.
  intros Hroster Hfew. apply RecommendLineup_fails_iff.
  pose proof (filter_ID_NoDup IsAvailable _ Hroster) as Havailable.
  destruct (selection_fold (GetAvailablePlayers (team sm)) formation Havailable)
    as (rest & k2 & k3 & k4 & def & mid & fwd & Hsel & _ & _ & Hlen & _ & _ & _
        & Hk1 & Hk2 & Hk3 & Hk4 & Hsum).
  cbn zeta in *. set (st := fold_left _ _ _) in *.
  destruct Hsel as (Heligible & Hdistinct & _).
  destruct Hfew as [Hfew | Hnokeeper].
  - assert (Hsub : Starters (fst st) ⊆+ map ID (GetAvailablePlayers (team sm))).
    { apply NoDup_submseteq; [exact Hdistinct |]. intros playerID Hin.
      apply list_elem_of_lookup in Hin as [j Hj].
      destruct (Forall2_lookup_l _ _ _ _ _ Heligible Hj) as (pos & _ & c & Hc & <- & _).
      apply list_elem_of_fmap. exists c. split; [done | by apply list_elem_of_In]. }
    apply submseteq_length in Hsub. rewrite length_map in Hsub. lia.
  - assert (Hnone : chosenFor (GetAvailablePlayers (team sm))
                      (GetPositionRequirements formation) ∅ PositionGK = []).
    { unfold chosenFor.
      destruct (getBestCandidates _ PositionGK ∅) as [| c cs] eqn:Hcs; [by rewrite take_nil |].
      assert (Hc : In c (getBestCandidates (GetAvailablePlayers (team sm)) PositionGK ∅))
        by (rewrite Hcs; by left).
      apply getBestCandidates_In in Hc as (Hc & _ & Hcan).
      destruct (Hnokeeper c Hc). by apply CanPlayPosition_GK. }
    rewrite Hnone in Hlen. cbn [length] in Hlen. lia.
Qed.

(** The first starter of a lineup [RecommendLineup] returns is a
    goalkeeper of the roster, available, and no available goalkeeper has
    a higher rating. *)
Theorem RecommendLineup_best_keeper (now : Time) (sm : SquadManager)
    (formation : Formation) (lineup : Lineup) :
  NoDup (map ID (Players (team sm))) ->
  RecommendLineup now sm formation = (Some lineup, None) ->
  exists keeper,
    Starters lineup !! 0%nat = Some (ID keeper)
    /\ Positions lineup !! 0%nat = Some PositionGK
    /\ In keeper (GetAvailablePlayers (team sm))
    /\ PlayerPosition keeper = PositionGK
    /\ forall q, In q (GetAvailablePlayers (team sm)) -> PlayerPosition q = PositionGK ->
         GetOverallRating q <= GetOverallRating keeper.
Proof.
  intros Hroster Hrec.
  apply RecommendLineup_Some in Hrec. cbn zeta in Hrec.
  destruct Hrec as (Hlen & _ & Hstarters & Hpositions & _).
  pose proof (filter_ID_NoDup IsAvailable _ Hroster) as Havailable.
  destruct (selection_fold (GetAvailablePlayers (team sm)) formation Havailable)
    as (rest & k2 & k3 & k4 & def & mid & fwd & _ & Hs & Hpos & Hlen' & _ & _ & _
        & Hk1 & Hk2 & Hk3 & Hk4 & Hsum).
  cbn zeta in *. set (st := fold_left _ _ _) in *.
  set (available := GetAvailablePlayers (team sm)) in *.
  unfold chosenFor in *.
  pose proof (sortSlice_sorted Player GetOverallRating
                (List.filter (fun p => negb (bool_decide (ID p ∈ (∅ : gset PlayerID)))
                                       && CanPlayPosition p PositionGK) available)) as Hsorted.
  pose proof (getBestCandidates_In available PositionGK ∅) as Hin.
  unfold getBestCandidates in Hs, Hpos, Hlen', Hk1, Hin.
  destruct (sortSlice _ _) as [| keeper others].
  { rewrite take_nil in Hlen'. cbn [length] in Hlen'. lia. }
  destruct (Z.to_nat _) as [| n]; [cbn [take length] in Hlen'; lia |].
  cbn [take map length replicate app] in Hs, Hpos.
  exists keeper. rewrite Hstarters, Hs, Hpositions, Hpos.
  destruct (proj1 (Hin keeper) ltac:(by left)) as (Hkeeper & _ & Hcan).
  split; [reflexivity |]. split; [reflexivity |]. split; [exact Hkeeper |].
  split; [by apply CanPlayPosition_GK |].
  intros q Hq Hgk. apply StronglySorted_inv in Hsorted as [_ Hall].
  assert (Hcand : In q (keeper :: others)).
  { apply Hin. split; [done |]. split; [set_solver |].
    unfold CanPlayPosition. by rewrite Hgk. }
  destruct Hcand as [<- | Hcand]; [lia |].
  by apply (proj1 (List.Forall_forall _ _) Hall).
Qed.

End Recommend.

Lemma city_roster : NoDup (map ID (Players city)).
Proof. apply (bool_decide_unpack _). vm_compute. exact I. Qed.

Lemma city_recommended :
  RecommendLineup (sorter := insertionSorter) day200of2025 (NewSquadManager city) Formation442
  = (Some cityLineup, None).
Proof. vm_compute. reflexivity. Qed.

Lemma RecommendLineup_passes_validation_witness :
  RecommendLineup (sorter := insertionSorter) day200of2025 (NewSquadManager city) Formation442
  = (Some cityLineup, None)
  /\ ValidateLineup positionPriority city cityLineup = Returns None.
Proof.
  split; [exact city_recommended |].
  exact (@RecommendLineup_passes_validation insertionSorter day200of2025
           (NewSquadManager city) Formation442 cityLineup positionPriority
           city_roster eq_refl city_recommended).
Defined.

Lemma RecommendLineup_distinct_players_witness :
  RecommendLineup (sorter := insertionSorter) day200of2025 (NewSquadManager city) Formation442
  = (Some cityLineup, None)
  /\ NoDup (Starters cityLineup ++ Substitutes cityLineup).
Proof.
  split; [exact city_recommended |].
  exact (proj1 (@RecommendLineup_distinct_players insertionSorter day200of2025
                  (NewSquadManager city) Formation442 cityLineup
                  city_roster city_recommended)).
Defined.

Lemma smallTown_roster : NoDup (map ID (Players smallTown)).
Proof. apply (bool_decide_unpack _). vm_compute. exact I. Qed.

Lemma smallTown_available : (length (GetAvailablePlayers smallTown) < 11)%nat.
Proof. vm_compute. lia. Qed.

Lemma RecommendLineup_insufficient_witness :
  (length (GetAvailablePlayers smallTown) < 11)%nat
  /\ RecommendLineup (sorter := insertionSorter) day200of2025 (NewSquadManager smallTown)
       Formation442
     = (None, Some ErrInsufficientPlayers).
Proof.
  split; [exact smallTown_available |].
  exact (@RecommendLineup_insufficient insertionSorter day200of2025
           (NewSquadManager smallTown) Formation442 smallTown_roster
           (or_introl smallTown_available)).
Defined.

Lemma RecommendLineup_best_keeper_witness :
  exists keeper,
    Starters cityLineup !! 0%nat = Some (ID keeper)
    /\ PlayerPosition keeper = PositionGK.
Proof.
  destruct (@RecommendLineup_best_keeper insertionSorter day200of2025
              (NewSquadManager city) Formation442 cityLineup city_roster city_recommended)
    as (keeper & Hfirst & _ & _ & Hgk & _).
  exists keeper. split; [exact Hfirst | exact Hgk].
Defined.

(** ** Formation match-ups *)

Lemma tabulated_dec (f : Formation) : tabulated f \/ ~ tabulated f.
Proof.
  unfold tabulated.
  destruct (decide (f = Formation442)); [tauto |].
  destruct (decide (f = Formation433)); [tauto |].
  destruct (decide (f = Formation451)); [tauto |].
  destruct (decide (f = Formation352)); [tauto |].
  destruct (decide (f = Formation532)); tauto.
Qed.

Lemma GetFormationStrength_other_l (f matchup : Formation) :
  ~ tabulated f -> GetFormationStrength f matchup = F64.lit 10 10.
Proof.
  unfold tabulated, GetFormationStrength, advantages. intros Hf.
  rewrite !lookup_insert, lookup_empty.
  repeat case_decide; try reflexivity; subst; tauto.
Qed.

Lemma GetFormationStrength_other_r (f matchup : Formation) :
  ~ tabulated matchup -> GetFormationStrength f matchup = F64.lit 10 10.
Proof.
  unfold tabulated, GetFormationStrength, advantages. intros Hf.
  rewrite !lookup_insert, lookup_empty.
  repeat case_decide; try reflexivity;
    rewrite !lookup_insert, lookup_empty;
    repeat case_decide; try reflexivity; subst; tauto.
Qed.

(** X13: the strength of a formation against another is 0.9, 1.0 or 1.1;
    it is 1.0 against itself and whenever one of the two is not in the
    table; an advantage of 1.1 is always mirrored by 0.9 for the
    opponent, but not the other way round: 3-5-2 has 0.9 against 4-3-3,
    which has 1.0 against 3-5-2. *)
Theorem GetFormationStrength_table (f matchup : Formation) :
  (GetFormationStrength f matchup = F64.lit 9 10
   \/ GetFormationStrength f matchup = F64.lit 10 10
   \/ GetFormationStrength f matchup = F64.lit 11 10)
  /\ GetFormationStrength f f = F64.lit 10 10
  /\ (GetFormationStrength f matchup = F64.lit 11 10 ->
      GetFormationStrength matchup f = F64.lit 9 10)
  /\ GetFormationStrength Formation352 Formation433 = F64.lit 9 10
  /\ GetFormationStrength Formation433 Formation352 = F64.lit 10 10.
Proof.
  assert (Hne : F64.lit 10 10 <> F64.lit 11 10) by (vm_compute; discriminate).
  split; [| split; [| split; [| split; vm_compute; reflexivity]]].
  - destruct (tabulated_dec f) as [Hf | Hf];
      [| right; left; by apply GetFormationStrength_other_l].
    destruct (tabulated_dec matchup) as [Hm | Hm];
      [| right; left; by apply GetFormationStrength_other_r].
    destruct Hf as [-> | [-> | [-> | [-> | ->]]]];
      destruct Hm as [-> | [-> | [-> | [-> | ->]]]];
      vm_compute; tauto.
  - destruct (tabulated_dec f) as [Hf | Hf];
      [| by apply GetFormationStrength_other_l].
    destruct Hf as [-> | [-> | [-> | [-> | ->]]]]; vm_compute; reflexivity.
  - destruct (tabulated_dec f) as [Hf | Hf];
      [| rewrite (GetFormationStrength_other_l f matchup Hf); intros H; by destruct Hne].
    destruct (tabulated_dec matchup) as [Hm | Hm];
      [| rewrite (GetFormationStrength_other_r f matchup Hm); intros H; by destruct Hne].
    destruct Hf as [-> | [-> | [-> | [-> | ->]]]];
      destruct Hm as [-> | [-> | [-> | [-> | ->]]]];
      vm_compute; congruence.
Qed.

(** ** Peak ages *)

(** X14: whether an attribute can still improve only gets harder with
    age: it can at every age below 28, it cannot from 32 on, whatever can
    improve at an age can improve at every younger age, and whenever Speed
    can improve every attribute can. *)
Theorem CanImprove_by_age (a : Attributes) (attribute : string) (age : Z) :
  (age < 28 -> CanImprove a attribute age = true)
  /\ (32 <= age -> CanImprove a attribute age = false)
  /\ (forall younger, younger <= age -> CanImprove a attribute age = true ->
        CanImprove a attribute younger = true)
  /\ (CanImprove a "Speed" age = true -> CanImprove a attribute age = true).
Proof.
  unfold CanImprove. cbn [String.eqb Ascii.eqb Bool.eqb orb].
  destruct (String.eqb attribute "Speed" || String.eqb attribute "Stamina");
    [| destruct (String.eqb attribute "Perception" || String.eqb attribute "Passing"
                 || String.eqb attribute "BallControl")];
    repeat split; try intros younger; intros; lia.
Qed.

(** ** Recent form *)

Lemma UpdateForm_take (currentForm : list MatchResult) (result : MatchResult) :
  UpdateForm currentForm result = take 5 (result :: currentForm).
Proof.
  unfold UpdateForm. cbn [app].
  destruct (5 <? length (result :: currentForm))%nat eqn:Hlen; [reflexivity |].
  apply Nat.ltb_ge in Hlen. by rewrite take_ge.
Qed.

Lemma take_app_take {A : Type} (n : nat) (l k : list A) :
  take n (l ++ take n k) = take n (l ++ k).
Proof.
  rewrite !take_app, take_take. f_equal. f_equal. lia.
Qed.

Lemma UpdateForm_fold (results currentForm : list MatchResult) :
  (length currentForm <= 5)%nat ->
  fold_left UpdateForm results currentForm = take 5 (rev results ++ currentForm).
Proof.
  revert currentForm. induction results as [| r results IH]; intros currentForm Hlen.
  - cbn. by rewrite take_ge.
  - cbn [fold_left rev]. rewrite IH, UpdateForm_take.
    + rewrite take_app_take, <- app_assoc. reflexivity.
    + rewrite UpdateForm_take, length_take. lia.
Qed.

Lemma append_assoc (s1 s2 s3 : string) : (s1 +:+ s2) +:+ s3 = s1 +:+ (s2 +:+ s3).
Proof.
  induction s1 as [| c s1 IH]; [reflexivity |].
  change (String c ((s1 +:+ s2) +:+ s3) = String c (s1 +:+ (s2 +:+ s3))). by rewrite IH.
Qed.

Lemma append_nil_r (s : string) : s +:+ "" = s.
Proof.
  induction s as [| c s IH]; [reflexivity |].
  change (String c (s +:+ "") = String c s). by rewrite IH.
Qed.

Lemma GetFormString_fold (currentForm : list MatchResult) (form : string) :
  fold_left (fun form result => form +:+ Result result) currentForm form
  = form +:+ String.concat "" (map Result currentForm).
Proof.
  revert form. induction currentForm as [| r l IH]; intros form.
  - cbn. by rewrite append_nil_r.
  - cbn [fold_left map]. rewrite IH, append_assoc. f_equal.
    destruct l as [| r' l]; [cbn; by rewrite append_nil_r | reflexivity].
Qed.

(** X15: after any sequence of results recorded by [UpdateForm] from an
    empty form, the form holds the last five results, newest first, and
    [GetFormString] is their letters in that order; whatever the form was,
    [UpdateForm] leaves at most five results, the new one first. *)
Theorem UpdateForm_keeps_last_five (results : list MatchResult) :
  fold_left UpdateForm results [] = take 5 (rev results)
  /\ GetFormString (fold_left UpdateForm results [])
     = String.concat "" (map Result (take 5 (rev results)))
  /\ forall currentForm result,
       (length (UpdateForm currentForm result) <= 5)%nat
       /\ head (UpdateForm currentForm result) = Some result.
Proof.
  assert (Hfold : fold_left UpdateForm results [] = take 5 (rev results)).
  { rewrite UpdateForm_fold by (cbn; lia). by rewrite app_nil_r. }
  split; [exact Hfold |]. split.
  - rewrite Hfold. unfold GetFormString. by rewrite GetFormString_fold.
  - intros currentForm result. rewrite UpdateForm_take, length_take. split; [lia | done].
Qed.

(** ** Finances *)

Lemma CalculateSeasonBudget_value (fm : FinancialManager) (leaguePosition : Z)
    (cupProgress : string) :
  Budget (managedTeam (CalculateSeasonBudget fm leaguePosition cupProgress))
  = leagueBudget leaguePosition + cupBonus cupProgress
  /\ WageBudget (managedTeam (CalculateSeasonBudget fm leaguePosition cupProgress))
     = (leagueBudget leaguePosition + cupBonus cupProgress) / 52.
Proof.
  unfold CalculateSeasonBudget, leagueBudget, cupBonus. cbn [managedTeam Budget WageBudget].
  destruct (leaguePosition <=? 3); [| destruct (leaguePosition <=? 6);
    [| destruct (leaguePosition <=? 10)]];
    (destruct (String.eqb cupProgress "winner");
     [| destruct (String.eqb cupProgress "final");
        [| destruct (String.eqb cupProgress "semi");
           [| destruct (String.eqb cupProgress "quarter")]]]);
    split; vm_compute; reflexivity.
Qed.

(** X16: the season budget is the budget of the league position (30, 20,
    15 or 10 million for a position up to 3, 6, 10, or worse) plus the cup
    bonus, whatever the budget was before; it lies between 10 and 35
    million, a better league position never earns less, and the weekly
    wage budget is the 52nd part of it, rounded down. *)
Theorem CalculateSeasonBudget_budget (fm : FinancialManager) (leaguePosition : Z)
    (cupProgress : string) :
  let t := managedTeam (CalculateSeasonBudget fm leaguePosition cupProgress) in
  Budget t = leagueBudget leaguePosition + cupBonus cupProgress
  /\ 10000000 <= Budget t <= 35000000
  /\ 52 * WageBudget t <= Budget t < 52 * WageBudget t + 52
  /\ Players t = Players (managedTeam fm)
  /\ forall better, better <= leaguePosition ->
       Budget t <= Budget (managedTeam (CalculateSeasonBudget fm better cupProgress)).
Proof.
  cbn zeta.
  destruct (CalculateSeasonBudget_value fm leaguePosition cupProgress) as [-> ->].
  assert (Hleague : forall p, 10000000 <= leagueBudget p <= 30000000).
  { intros p. unfold leagueBudget.
    destruct (p <=? 3); [lia |]. destruct (p <=? 6); [lia |]. destruct (p <=? 10); lia. }
  assert (Hcup : 0 <= cupBonus cupProgress <= 5000000).
  { unfold cupBonus.
    destruct (String.eqb cupProgress "winner"); [lia |].
    destruct (String.eqb cupProgress "final"); [lia |].
    destruct (String.eqb cupProgress "semi"); [lia |].
    destruct (String.eqb cupProgress "quarter"); lia. }
  pose proof (Hleague leaguePosition).
  split; [reflexivity |]. split; [lia |]. split; [| split; [reflexivity |]].
  - pose proof (Z.mul_div_le (leagueBudget leaguePosition + cupBonus cupProgress) 52).
    pose proof (Z.mul_succ_div_gt (leagueBudget leaguePosition + cupBonus cupProgress) 52).
    lia.
  - intros better Hbetter.
    destruct (CalculateSeasonBudget_value fm better cupProgress) as [-> _].
    apply Z.add_le_mono_r. unfold leagueBudget.
    destruct (leaguePosition <=? 3) eqn:H3; destruct (leaguePosition <=? 6) eqn:H6;
      destruct (leaguePosition <=? 10) eqn:H10;
      destruct (better <=? 3) eqn:H3'; destruct (better <=? 6) eqn:H6';
      destruct (better <=? 10) eqn:H10'; lia.
Qed.

Lemma sumWages_cons (p : Player) (players : list Player) :
  sumWages (p :: players) = Wage p + sumWages players.
Proof. reflexivity. Qed.

Lemma sumWages_nonneg (players : list Player) :
  Forall (fun p => 0 <= Wage p) players -> 0 <= sumWages players.
Proof.
  induction 1 as [| q l Hq Hl IHl]; [done |]. rewrite sumWages_cons. lia.
Qed.

Lemma GetTotalWages_fold (players : list Player) (total : Z) :
  Forall (fun p => 0 <= Wage p) players ->
  0 <= total -> total + sumWages players <= Int.max_int ->
  fold_left (fun total p => Int.add total (Wage p)) players total = total + sumWages players.
Proof.
  revert total. induction players as [| p players IH]; intros total Hall Htotal Hmax.
  - cbn. lia.
  - apply Forall_cons in Hall as [Hp Hall]. cbn [fold_left].
    rewrite sumWages_cons in *.
    pose proof (sumWages_nonneg players Hall) as Hsum.
    rewrite Int.add_small by (unfold Int.min_int, Int.max_int in *; lia).
    rewrite IH; [lia | done | lia | lia].
Qed.

Lemma sumWages_app (l k : list Player) : sumWages (l ++ k) = sumWages l + sumWages k.
Proof.
  induction l as [| p l IH]; [reflexivity |].
  cbn [app]. rewrite !sumWages_cons, IH. lia.
Qed.

(** X17: when no wage is negative and the wage bill with the new wage
    still fits 64 bits, a transfer that [CanAffordTransfer] accepts costs
    no more than the budget, and once the player is added the wage bill is
    the old one plus the new wage and the remaining wage budget is not
    negative. *)
Theorem CanAffordTransfer_then_AddPlayer (t : Team) (p : Player) (fee : Z) :
  Forall (fun q => 0 <= Wage q) (Players t) ->
  0 <= Wage p ->
  sumWages (Players t) + Wage p <= Int.max_int ->
  WageBudget t <= Int.max_int ->
  CanAffordTransfer (NewFinancialManager t) fee (Wage p) = true ->
  snd (AddPlayer t p) = None ->
  fee <= Budget t
  /\ GetTotalWages (NewFinancialManager (fst (AddPlayer t p)))
     = GetTotalWages (NewFinancialManager t) + Wage p
  /\ GetWageBill (NewSquadManager (fst (AddPlayer t p)))
     = GetTotalWages (NewFinancialManager (fst (AddPlayer t p)))
  /\ 0 <= GetWageBudgetRemaining (NewFinancialManager (fst (AddPlayer t p))).
Proof.
  intros Hwages Hwage Hmax Hbudget Hafford Hadded.
  pose proof (sumWages_nonneg _ Hwages) as Hsum.
  assert (Hold : GetTotalWages (NewFinancialManager t) = sumWages (Players t)).
  { unfold GetTotalWages. cbn [managedTeam NewFinancialManager].
    rewrite GetTotalWages_fold; [lia | done | lia | lia]. }
  assert (Hplayers : Players (fst (AddPlayer t p)) = Players t ++ [p]
                     /\ WageBudget (fst (AddPlayer t p)) = WageBudget t).
  { revert Hadded. unfold AddPlayer.
    destruct (30 <=? length (Players t))%nat; [done |].
    by destruct (existsb _ _). }
  destruct Hplayers as [Hplayers Hsame].
  assert (Hnew : GetTotalWages (NewFinancialManager (fst (AddPlayer t p)))
                 = sumWages (Players t) + Wage p).
  { unfold GetTotalWages. cbn [managedTeam NewFinancialManager]. rewrite Hplayers.
    rewrite GetTotalWages_fold.
    - rewrite sumWages_app, sumWages_cons. cbn. lia.
    - apply Forall_app. split; [done |]. by constructor.
    - lia.
    - rewrite sumWages_app, sumWages_cons. cbn. lia. }
  unfold CanAffordTransfer in Hafford. cbn [managedTeam NewFinancialManager] in Hafford.
  destruct (Budget t <? fee) eqn:Hfee; [done |]. apply Z.ltb_ge in Hfee.
  fold (GetTotalWages (NewFinancialManager t)) in Hafford. rewrite Hold in Hafford.
  rewrite Int.add_small in Hafford by (unfold Int.min_int, Int.max_int in *; lia).
  destruct (WageBudget t <? sumWages (Players t) + Wage p) eqn:Hw; [done |].
  apply Z.ltb_ge in Hw.
  split; [exact Hfee |]. split; [by rewrite Hnew, Hold |]. split; [reflexivity |].
  unfold GetWageBudgetRemaining. rewrite Hnew. cbn [managedTeam NewFinancialManager].
  rewrite Hsame, Int.sub_small by (unfold Int.min_int, Int.max_int in *; lia). lia.
Qed.

Lemma paidCity_wages : Forall (fun q => 0 <= Wage q) (Players paidCity).
Proof. repeat constructor; cbn; lia. Qed.

Lemma CanAffordTransfer_then_AddPlayer_witness :
  CanAffordTransfer (NewFinancialManager paidCity) 250000 400 = true
  /\ snd (AddPlayer paidCity (set_Wage (squadPlayer "x1" PositionFWD) 400)) = None
  /\ 0 <= GetWageBudgetRemaining
            (NewFinancialManager
               (fst (AddPlayer paidCity (set_Wage (squadPlayer "x1" PositionFWD) 400)))).
Proof.
  split; [reflexivity |]. split; [reflexivity |].
  apply (CanAffordTransfer_then_AddPlayer paidCity
           (set_Wage (squadPlayer "x1" PositionFWD) 400) 250000 paidCity_wages).
  - cbn. lia.
  - vm_compute. discriminate.
  - vm_compute. discriminate.
  - reflexivity.
  - reflexivity.
Defined.

(** ** New players *)

Lemma NewDefaultAttributes_range (position : Position) :
  AttributesInRange (NewDefaultAttributes position).
Proof.
  unfold NewDefaultAttributes.
  repeat match goal with
         | |- context [String.eqb position ?x] => destruct (String.eqb position x)
         end;
    constructor; cbn; unfold inRange; lia.
Qed.

(** X18: a new player, of whatever position, is available, has fitness,
    morale, form and every attribute within [[0, 100]], can play the own
    position, and has no match played; a new goalkeeper, defender,
    midfielder and forward are rated 64, 66, 67 and 70. *)
Theorem NewPlayer_in_range (id : PlayerID) (firstName lastName : string)
    (position : Position) (dateOfBirth : Time) :
  let p := NewPlayer id firstName lastName position dateOfBirth in
  PlayerInRange p
  /\ IsAvailable p = true
  /\ CanPlayPosition p position = true
  /\ FullName p = firstName +:+ " " +:+ lastName
  /\ TotalMatches (PlayerCareerStats p) = 0
  /\ map (fun pos => GetOverallRating (NewPlayer id firstName lastName pos dateOfBirth))
       positionPriority
     = [64; 66; 67; 70].
Proof.
  cbn zeta. split; [| split; [| split; [| split; [| split]]]].
  - split; [| split; [| split]]; try (split; vm_compute; reflexivity).
    apply NewDefaultAttributes_range.
  - vm_compute. reflexivity.
  - unfold CanPlayPosition, NewPlayer. cbn [PlayerPosition]. by rewrite String.eqb_refl.
  - reflexivity.
  - reflexivity.
  - vm_compute. reflexivity.
Qed.

(** ** Ratings *)

(** X19: for attributes within [[0, 100]] each of the four position
    ratings, and the overall rating of a player of any position, is within
    [[0, 100]]: the weights of every rating sum to 1 and the rounding of
    the float64 sum never reaches 101. *)
Theorem ratings_in_range (a : Attributes) :
  AttributesInRange a ->
  inRange (GetGoalkeeperRating a) /\ inRange (GetDefenderRating a)
  /\ inRange (GetMidfielderRating a) /\ inRange (GetForwardRating a)
  /\ forall p, PlayerAttributes p = a -> inRange (GetOverallRating p).
Proof.
  intros Ha. split; [by apply GetGoalkeeperRating_range |].
  split; [by apply GetDefenderRating_range |].
  split; [by apply GetMidfielderRating_range |].
  split; [by apply GetForwardRating_range |].
  intros p <-. by apply GetOverallRating_range.
Qed.

Lemma ratings_in_range_witness :
  AttributesInRange (NewDefaultAttributes PositionFWD)
  /\ inRange (GetForwardRating (NewDefaultAttributes PositionFWD)).
Proof.
  split; [apply NewDefaultAttributes_range |].
  exact (proj1 (proj2 (proj2 (proj2
           (ratings_in_range (NewDefaultAttributes PositionFWD)
              (NewDefaultAttributes_range PositionFWD)))))).
Defined.

(** ** Comparisons of float64 values *)

Lemma SFcompare_antisym (x y : float64) :
  SFcompare y x = option_map CompOpp (SFcompare x y).
Proof.
  unfold SFcompare.
  destruct x as [sx | sx | | sx mx ex], y as [sy | sy | | sy my ey];
    try destruct sx; try destruct sy; try reflexivity.
  - rewrite (Z.compare_antisym ex ey). destruct (ex ?= ey); cbn; try reflexivity.
    change (Pos.compare_cont Eq my mx) with (my ?= mx)%positive.
    change (Pos.compare_cont Eq mx my) with (mx ?= my)%positive.
    rewrite (Pos.compare_antisym mx my). by destruct (mx ?= my)%positive.
  - rewrite (Z.compare_antisym ex ey). destruct (ex ?= ey); cbn; try reflexivity.
    change (Pos.compare_cont Eq my mx) with (my ?= mx)%positive.
    change (Pos.compare_cont Eq mx my) with (mx ?= my)%positive.
    rewrite (Pos.compare_antisym mx my). by destruct (mx ?= my)%positive.
Qed.

Lemma SFcompare_NaN (x y : float64) :
  SFcompare x y = None <-> F64.IsNaN x = true \/ F64.IsNaN y = true.
Proof.
  unfold SFcompare.
  destruct x as [sx | sx | | sx mx ex], y as [sy | sy | | sy my ey];
    try destruct sx; try destruct sy; cbn; try (split; [done | intros [|]; done]);
    try tauto.
  all: destruct (ex ?= ey); split; try done; intros [|]; done.
Qed.

(** Of two values that are not NaN, one that is not below the other is at
    least the other. *)
Lemma not_ltb_leb (x y : float64) :
  F64.IsNaN x = false -> F64.IsNaN y = false ->
  (x <? y)%f64 = false -> (y <=? x)%f64 = true.
Proof.
  unfold F64.ltb, F64.leb, SFltb, SFleb. intros Hx Hy.
  rewrite (SFcompare_antisym x y).
  destruct (SFcompare x y) as [[] |] eqn:Hcmp; cbn; try done.
  apply SFcompare_NaN in Hcmp as [|]; congruence.
Qed.

(** ** Match statistics and form *)

(** X20: [UpdateMatchStats] counts the match and adds the goals, assists
    and cards to the career totals, leaves identity, attributes, fitness
    and morale alone, and clamps the new form on both sides: it is never
    above 100 nor below 0, and unless it is NaN (which only a NaN of the
    weighted average gives) it is within [[0, 100]]. *)
Theorem UpdateMatchStats_form_clamped (p : Player) (goals assists yellowCards redCards : Z)
    (rating : float64) :
  let p' := UpdateMatchStats p goals assists yellowCards redCards rating in
  let average :=
    (Form p * (F64.of_int 1 - F64.lit 3 10) + (rating * F64.of_int 10) * F64.lit 3 10)%f64 in
  (F64.of_int 100 <? Form p')%f64 = false
  /\ (Form p' <? F64.zero)%f64 = false
  /\ (F64.IsNaN (Form p') = false -> f64InRange (Form p'))
  /\ F64.IsNaN (Form p') = F64.IsNaN average
  /\ PlayerCareerStats p'
     = mkCareerStats (Int.add (TotalMatches (PlayerCareerStats p)) 1)
         (Int.add (TotalGoals (PlayerCareerStats p)) goals)
         (Int.add (TotalAssists (PlayerCareerStats p)) assists)
         (Int.add (TotalYellowCards (PlayerCareerStats p)) yellowCards)
         (Int.add (TotalRedCards (PlayerCareerStats p)) redCards)
         (TotalCleanSheets (PlayerCareerStats p))
  /\ ID p' = ID p /\ PlayerAttributes p' = PlayerAttributes p
  /\ Fitness p' = Fitness p /\ Morale p' = Morale p /\ PlayerStatus p' = PlayerStatus p.
Proof.
  cbn zeta. unfold UpdateMatchStats, updateForm. cbn [Form set_CareerStats].
  set (average := (Form p * _ + _)%f64).
  assert (Hclamped :
    forall form : float64,
      form = (if (F64.of_int 100 <? average)%f64 then F64.of_int 100
              else if (average <? F64.zero)%f64 then F64.zero else average) ->
      (F64.of_int 100 <? form)%f64 = false /\ (form <? F64.zero)%f64 = false
      /\ (F64.IsNaN form = false -> f64InRange form)
      /\ F64.IsNaN form = F64.IsNaN average).
  { intros form ->.
    destruct (F64.of_int 100 <? average)%f64 eqn:Hhigh.
    { split; [vm_compute; reflexivity |]. split; [vm_compute; reflexivity |].
      split; [intros _; split; vm_compute; reflexivity |]. by destruct average. }
    destruct (average <? F64.zero)%f64 eqn:Hlow.
    { split; [vm_compute; reflexivity |]. split; [vm_compute; reflexivity |].
      split; [intros _; split; vm_compute; reflexivity |].
      by destruct average as [[] | [] | | [] ? ?]. }
    split; [exact Hhigh |]. split; [exact Hlow |]. split; [| reflexivity].
    intros Hnan. split; by apply not_ltb_leb. }
  destruct (F64.of_int 100 <? average)%f64 eqn:Hhigh;
    [| destruct (average <? F64.zero)%f64 eqn:Hlow];
    cbn [Form set_Form PlayerCareerStats ID PlayerAttributes Fitness Morale PlayerStatus];
    (destruct (Hclamped _ eq_refl) as (H1 & H2 & H3 & H4));
    (split; [exact H1 | split; [exact H2 | split; [exact H3 | split; [exact H4 |]]]]);
    repeat split.
Qed.

(** ** Injury risk *)

Lemma half_value : F64.lit 5 10 = S754_finite false 4503599627370496 (-53).
Proof. vm_compute. reflexivity. Qed.

Lemma Min_half_not_above (x : float64) :
  (F64.lit 5 10 <? F64.Min x (F64.lit 5 10))%f64 = false.
Proof.
  rewrite half_value. unfold F64.Min.
  destruct x as [s | [] | | s m e].
  - by destruct s.
  - reflexivity.
  - reflexivity.
  - reflexivity.
  - change (F64.IsInf (S754_finite s m e) true
            || F64.IsInf (S754_finite false 4503599627370496 (-53)) true) with false.
    change (F64.IsNaN (S754_finite s m e)
            || F64.IsNaN (S754_finite false 4503599627370496 (-53))) with false.
    replace (F64.eqb (S754_finite s m e) F64.zero) with false by (by destruct s).
    cbn [andb].
    destruct (S754_finite s m e <? S754_finite false 4503599627370496 (-53))%f64 eqn:Hlt;
      [| vm_compute; reflexivity].
    apply ltb_asym, Hlt.
Qed.

(** X21: the injury risk is never above 0.5, and it is 0 for a player of
    at most 30 years whose fitness is not below the injury threshold
    of 40. *)
Theorem CalculateInjuryRisk_capped (now : Time) (player : Player) :
  (F64.lit 5 10 <? CalculateInjuryRisk NewFitnessManager now player)%f64 = false
  /\ ((Fitness player <? F64.of_int 40)%f64 = false -> Age now player <= 30 ->
      CalculateInjuryRisk NewFitnessManager now player = F64.zero).
Proof.
  split; [unfold CalculateInjuryRisk; cbv zeta; apply Min_half_not_above |].
  intros Hfit Hage. unfold CalculateInjuryRisk.
  change (injuryThreshold NewFitnessManager) with (F64.of_int 40).
  rewrite Hfit. destruct (30 <? Age now player) eqn:Hold; [apply Z.ltb_lt in Hold; lia |].
  vm_compute. reflexivity.
Qed.

(** ** The reports on the squad *)

Section SquadReportsProperties.
Context {sorter : SliceSorter}.

(** X22: an injured or suspended player is never among the available
    players; and when the roster has distinct identifiers, such a player
    is neither a starter nor a substitute of any lineup [RecommendLineup]
    returns. *)
Theorem RecommendLineup_fields_no_injured (sm : SquadManager) (p : Player) :
  In p (GetInjuredPlayers sm) \/ In p (GetSuspendedPlayers sm) ->
  ~ In p (GetAvailablePlayers (team sm))
  /\ (NoDup (map ID (Players (team sm))) ->
      forall now formation lineup,
        RecommendLineup now sm formation = (Some lineup, None) ->
        ~ In (ID p) (Starters lineup ++ Substitutes lineup)).
Proof.
  intros Hout.
  assert (Hp : In p (Players (team sm)) /\ IsAvailable p = false).
  { unfold GetInjuredPlayers, GetSuspendedPlayers, IsAvailable in *.
    destruct Hout as [[Hin Hst]%filter_In | [Hin Hst]%filter_In];
      apply String.eqb_eq in Hst; rewrite Hst; done. }
  destruct Hp as [Hin Hunavailable]. split.
  - intros [_ Hav]%filter_In. congruence.
  - intros Hroster now formation lineup Hrec Hnamed.
    destruct (RecommendLineup_named_available now sm formation lineup (ID p) Hroster Hrec Hnamed)
      as (q & Hq & Hav).
    rewrite (GetPlayer_of_roster _ _ Hroster Hin) in Hq. congruence.
Qed.

Lemma depth_fold (players : list Player) (depth : gmap Position (list Player))
    (pos : Position) :
  fold_left
    (fun (depth : gmap Position (list Player)) p =>
       <[PlayerPosition p := default [] (depth !! PlayerPosition p) ++ [p]]> depth)
    players depth !! pos
  = match List.filter (fun p => String.eqb (PlayerPosition p) pos) players with
    | [] => depth !! pos
    | more => Some (default [] (depth !! pos) ++ more)
    end.
Proof.
  revert depth. induction players as [| p players IH]; intros depth; [reflexivity |].
  cbn [fold_left List.filter]. rewrite IH.
  destruct (String.eqb (PlayerPosition p) pos) eqn:Hp.
  - apply String.eqb_eq in Hp. subst pos. rewrite lookup_insert_eq.
    destruct (List.filter _ players) as [| q more]; [reflexivity |].
    cbn. by rewrite <- app_assoc.
  - apply String.eqb_neq in Hp. by rewrite lookup_insert_ne.
Qed.

(** X23: [GetSquadDepth] has a key for exactly the positions some player
    of the roster has, and lists under it all the players of that
    position, each once, by non-increasing overall rating. *)
Theorem GetSquadDepth_by_position (sm : SquadManager) (pos : Position) :
  match GetSquadDepth sm !! pos with
  | Some listed =>
      listed <> []
      /\ Permutation listed
           (List.filter (fun p => String.eqb (PlayerPosition p) pos) (Players (team sm)))
      /\ StronglySorted (fun x y => GetOverallRating y <= GetOverallRating x) listed
  | None => forall p, In p (Players (team sm)) -> PlayerPosition p <> pos
  end.
Proof.
  unfold GetSquadDepth. rewrite lookup_fmap, depth_fold, lookup_empty. cbn [default app].
  destruct (List.filter _ (Players (team sm))) as [| q more] eqn:Hfilter; cbn.
  - intros p Hin Hpos.
    assert (Hp : In p (List.filter (fun p => String.eqb (PlayerPosition p) pos)
                         (Players (team sm)))).
    { apply filter_In. split; [done |]. by apply String.eqb_eq. }
    by rewrite Hfilter in Hp.
  - split; [| split; [apply sortSlice_perm | apply sortSlice_sorted]].
    intros Hnil.
    pose proof (Permutation_length
                  (sortSlice_perm Player
                     (fun x y => GetOverallRating y <? GetOverallRating x) (q :: more))) as Hlen.
    by rewrite Hnil in Hlen.
Qed.

End SquadReportsProperties.

Lemma injuredCity_roster : NoDup (map ID (Players injuredCity)).
Proof. apply (bool_decide_unpack _). vm_compute. exact I. Qed.

Lemma injuredCity_recommended :
  RecommendLineup (sorter := insertionSorter) day200of2025 (NewSquadManager injuredCity)
    Formation442
  = (Some cityLineup, None).
Proof. vm_compute. reflexivity. Qed.

Lemma RecommendLineup_fields_no_injured_witness :
  In injuredForward (GetInjuredPlayers (NewSquadManager injuredCity))
  /\ ~ In injuredForward (GetAvailablePlayers injuredCity)
  /\ ~ In "i1" (Starters cityLineup ++ Substitutes cityLineup).
Proof.
  assert (Hinjured : In injuredForward (GetInjuredPlayers (NewSquadManager injuredCity))).
  { unfold GetInjuredPlayers. apply filter_In. split; [| reflexivity].
    cbn. do 15 right. by left. }
  split; [exact Hinjured |].
  destruct (@RecommendLineup_fields_no_injured insertionSorter (NewSquadManager injuredCity)
              injuredForward (or_introl Hinjured)) as [Hunavailable Hleft].
  split; [exact Hunavailable |].
  exact (Hleft injuredCity_roster day200of2025 Formation442 cityLineup injuredCity_recommended).
Defined.

(** ** GetBestEleven *)

Lemma GetBestEleven_order (order order' : list Position) (t : Team) :
  Permutation order order' ->
  Permutation (GetBestEleven order t) (GetBestEleven order' t).
Proof.
  intros Hperm. unfold GetBestEleven.
  destruct (length (GetAvailablePlayers t) <? 11)%nat; [reflexivity |].
  by apply Permutation_flat_map.
Qed.

(** X24: when the four positions are visited once each, in any order,
    [GetBestEleven] returns at most eleven players, all of them available
    players of the roster; with fewer than eleven available players it
    returns exactly the available players. *)
Theorem GetBestEleven_available (order : list Position) (t : Team) :
  Permutation order positionPriority ->
  (length (GetBestEleven order t) <= 11)%nat
  /\ (forall p, In p (GetBestEleven order t) -> In p (Players t) /\ IsAvailable p = true)
  /\ ((length (GetAvailablePlayers t) < 11)%nat ->
      GetBestEleven order t = GetAvailablePlayers t).
Proof.
  intros Hperm.
  pose proof (GetBestEleven_order _ _ t Hperm) as Hsame.
  assert (Hpriority :
    (length (GetBestEleven positionPriority t) <= 11)%nat
    /\ forall p, In p (GetBestEleven positionPriority t) ->
         In p (Players t) /\ IsAvailable p = true).
  { unfold GetBestEleven.
    destruct (length (GetAvailablePlayers t) <? 11)%nat eqn:Hlen.
    { apply Nat.ltb_lt in Hlen. split; [lia |]. intros p Hp. by apply filter_In in Hp. }
    destruct (GetPositionRequirements_cases (TeamFormation t))
      as (def & mid & fwd & -> & Hdef & Hmid & Hfwd & Hsum).
    unfold positionPriority. cbn [flat_map].
    replace (mkRequirements 1 def mid fwd !! PositionGK) with (Some 1)
      by (vm_compute; reflexivity).
    replace (mkRequirements 1 def mid fwd !! PositionDEF) with (Some def)
      by (vm_compute; reflexivity).
    replace (mkRequirements 1 def mid fwd !! PositionMID) with (Some mid)
      by (vm_compute; reflexivity).
    replace (mkRequirements 1 def mid fwd !! PositionFWD) with (Some fwd)
      by (vm_compute; reflexivity).
    cbv beta iota zeta. rewrite app_nil_r. split.
    - rewrite !length_app, !length_take. lia.
    - intros p Hp.
      assert (Hsub : forall n pos,
        In p (take n (List.filter (fun p => CanPlayPosition p pos) (GetAvailablePlayers t))) ->
        In p (Players t) /\ IsAvailable p = true).
      { intros n pos Hin. apply list_elem_of_In in Hin.
        apply (subseteq_take n) in Hin. apply list_elem_of_In in Hin.
        apply filter_In in Hin as [Hin _]. by apply filter_In in Hin. }
      repeat (apply in_app_or in Hp as [Hp | Hp]; [by eapply Hsub |]).
      by eapply Hsub. }
  destruct Hpriority as [Hlen Hall]. split; [| split].
  - by rewrite (Permutation_length Hsame).
  - intros p Hp. apply Hall. by apply (Permutation_in _ Hsame).
  - intros Hfew. unfold GetBestEleven. apply Nat.ltb_lt in Hfew. by rewrite Hfew.
Qed.

Lemma GetBestEleven_available_witness :
  Permutation positionPriority positionPriority
  /\ (length (GetBestEleven positionPriority rovers) <= 11)%nat.
Proof.
  split; [reflexivity |].
  exact (proj1 (GetBestEleven_available positionPriority rovers (Permutation_refl _))).
Defined.

(** C10: [GetBestEleven] does not track the players already picked.  The
    team [rovers] has eleven available players with distinct identifiers,
    and in whatever order the four positions of its formation are visited,
    the eleven players returned contain the midfielder m1 three times
    (picked for DEF, MID and FWD), so they are not eleven distinct
    players. *)
Theorem GetBestEleven_repeats_a_player :
  exists t : Team,
    (11 <= length (GetAvailablePlayers t))%nat
    /\ NoDup (map ID (Players t))
    /\ forall order, Permutation order positionPriority ->
         length (GetBestEleven order t) = 11%nat
         /\ count_occ String.string_dec (map ID (GetBestEleven order t)) "m1" = 3%nat
         /\ ~ NoDup (map ID (GetBestEleven order t)).
Proof.
  exists rovers. split; [vm_compute; lia |].
  split; [apply (bool_decide_unpack _); vm_compute; exact I |].
  intros order Hperm. apply (GetBestEleven_order _ _ rovers) in Hperm.
  assert (Hcount : count_occ String.string_dec (map ID (GetBestEleven order rovers)) "m1"
                   = 3%nat).
  { apply (Permutation_map ID) in Hperm.
    rewrite (proj1 (Permutation_count_occ String.string_dec _ _) Hperm "m1").
    vm_compute. reflexivity. }
  split; [rewrite (Permutation_length Hperm); vm_compute; reflexivity |].
  split; [exact Hcount |].
  intros Hnodup. apply NoDup_ListNoDup in Hnodup.
  pose proof (proj1 (NoDup_count_occ String.string_dec _) Hnodup "m1") as Hle.
  unfold PlayerID in *. lia.
Qed.

(** ** Training only raises attributes *)

Ltac case_attribute s :=
  repeat match goal with
         | |- context [String.eqb s ?y] =>
             let E := fresh "E" in
             destruct (String.eqb s y) eqn:E;
             [apply String.eqb_eq in E; subst s; reflexivity |]
         end;
  reflexivity.

Lemma getAttributeValue_apply (p : Player) (attr : string) (c : Z) (s : string) :
  getAttributeValue (applyAttributeChange p attr c) s
  = if String.eqb s attr && knownAttribute attr
    then clamp0_100 (Int.add (getAttributeValue p attr) c)
    else getAttributeValue p s.
Proof.
  unfold applyAttributeChange, getAttributeValue, knownAttribute, allAttrs.
  cbn [existsb].
  repeat match goal with
         | |- context [String.eqb attr ?x] =>
             let E := fresh "E" in
             destruct (String.eqb attr x) eqn:E;
             [apply String.eqb_eq in E; subst attr; cbn; case_attribute s |]
         end.
  cbn. rewrite andb_false_r. reflexivity.
Qed.

Lemma applyAttributeChange_sameOthers (p : Player) (attr : string) (c : Z) :
  sameOthers p (applyAttributeChange p attr c).
Proof.
  unfold applyAttributeChange.
  repeat match goal with
         | |- context [String.eqb attr ?x] =>
             destruct (String.eqb attr x); [by repeat split |]
         end.
  by repeat split.
Qed.

Lemma sameOthers_trans (p p' p'' : Player) :
  sameOthers p p' -> sameOthers p' p'' -> sameOthers p p''.
Proof. unfold sameOthers. intros H H'. intuition congruence. Qed.

Lemma raised_refl (p : Player) : raised p p.
Proof. split; [by repeat split |]. intros attribute. lia. Qed.

Lemma raised_trans (p p' p'' : Player) : raised p p' -> raised p' p'' -> raised p p''.
Proof.
  intros [Hsame H] [Hsame' H']. split; [by eapply sameOthers_trans |].
  intros attribute. specialize (H attribute). specialize (H' attribute). lia.
Qed.

Section TrainingRaises.
Context {RS : RandSource}.

Lemma applyAttributeChange_raised (p : Player) (attr : string) (imp : Z) :
  AttributesInRange (PlayerAttributes p) ->
  0 < imp -> getAttributeValue p attr + imp <= 95 ->
  raised p (applyAttributeChange p attr imp).
Proof.
  intros Ha Himp Hle. split; [apply applyAttributeChange_sameOthers |].
  intros s. rewrite getAttributeValue_apply.
  pose proof (getAttributeValue_range p attr Ha) as Hv. unfold inRange in Hv.
  destruct (String.eqb s attr) eqn:Hs; cbn [andb]; [| lia].
  apply String.eqb_eq in Hs. subst s.
  destruct (knownAttribute attr); [| lia].
  rewrite Int.add_small by (unfold Int.min_int, Int.max_int; lia).
  rewrite clamp0_100_small by lia. lia.
Qed.

Lemma improveAttribute_raised (threshold : float64) (attr : string)
    (p : Player) (r : TrainingResult) (s : rng) :
  AttributesInRange (PlayerAttributes p) ->
  raised p (fst (fst (improveAttribute threshold attr (p, r) s))).
Proof.
  intros Ha. unfold improveAttribute, bind, ret.
  destruct (Float64 s) as [u s1].
  destruct (u <? threshold)%f64; [| apply raised_refl].
  pose proof (calculateImprovement_range p attr s1) as [_ Hle].
  destruct (calculateImprovement p attr s1) as [imp s2]. cbn [fst] in Hle.
  destruct (Z.ltb_spec 0 imp); cbn [fst]; [| apply raised_refl].
  apply applyAttributeChange_raised; [done | done | by apply Hle].
Qed.

Lemma forAttrs_raised (threshold : float64) (attrs : list string)
    (p : Player) (r : TrainingResult) (s : rng) :
  AttributesInRange (PlayerAttributes p) ->
  raised p (fst (fst (forAttrs (improveAttribute threshold) attrs (p, r) s))).
Proof.
  revert p r s. induction attrs as [| attr rest IH]; intros p r s Ha.
  - apply raised_refl.
  - cbn [forAttrs]. unfold bind at 1.
    pose proof (improveAttribute_raised threshold attr p r s Ha) as H1.
    pose proof (improveAttribute_kept threshold attr p r s Ha) as [Ha1 _].
    destruct (improveAttribute threshold attr (p, r) s) as [[p1 r1] s1].
    cbn [fst] in H1, Ha1.
    eapply raised_trans; [exact H1 |]. by apply IH.
Qed.

Lemma trainGeneralLoop_raised (n : nat) (chance : float64)
    (p : Player) (r : TrainingResult) (s : rng) :
  AttributesInRange (PlayerAttributes p) ->
  raised p (fst (fst (trainGeneralLoop n chance (p, r) s))).
Proof.
  revert p r s. induction n as [| n IH]; intros p r s Ha.
  - apply raised_refl.
  - cbn [trainGeneralLoop]. unfold bind at 1.
    destruct (Intn (Z.of_nat (length allAttrs)) s) as [k s0].
    unfold bind at 1.
    pose proof (improveAttribute_raised (chance * F64.lit 5 10)%f64
                  (nth (Z.to_nat k) allAttrs "") p r s0 Ha) as H1.
    pose proof (improveAttribute_kept (chance * F64.lit 5 10)%f64
                  (nth (Z.to_nat k) allAttrs "") p r s0 Ha) as [Ha1 _].
    destruct (improveAttribute _ _ (p, r) s0) as [[p1 r1] s1].
    cbn [fst] in H1, Ha1.
    eapply raised_trans; [exact H1 |]. by apply IH.
Qed.

Lemma keeping_raised (p : Player) (imp : Z) :
  AttributesInRange (PlayerAttributes p) ->
  0 < imp -> Keeping (PlayerAttributes p) + imp <= 95 ->
  raised p (set_Attributes p (set_Keeping (PlayerAttributes p)
                                (Int.add (Keeping (PlayerAttributes p)) imp))).
Proof.
  intros Ha Himp Hle. destruct Ha. unfold inRange in *.
  split; [by repeat split |].
  intros s. unfold getAttributeValue. cbn [PlayerAttributes set_Attributes].
  rewrite Int.add_small by (unfold Int.min_int, Int.max_int; lia).
  destruct (String.eqb s "Keeping"); [cbn; lia |].
  cbn. repeat match goal with
              | |- context [String.eqb s ?x] => destruct (String.eqb s x); [lia |]
              end.
  lia.
Qed.

Lemma trainSetPieces_raised (p : Player) (chance : float64) (r : TrainingResult) (s : rng) :
  AttributesInRange (PlayerAttributes p) ->
  raised p (fst (fst (trainSetPieces p chance r s))).
Proof.
  intros Ha. unfold trainSetPieces.
  destruct (String.eqb (PlayerPosition p) PositionGK); [| by apply forAttrs_raised].
  unfold bind, ret.
  destruct (Float64 s) as [u s1].
  destruct (u <? chance)%f64; [| apply raised_refl].
  pose proof (calculateImprovement_range p "Keeping" s1) as [_ Hle].
  destruct (calculateImprovement p "Keeping" s1) as [imp s2]. cbn [fst] in Hle.
  destruct (Z.ltb_spec 0 imp); cbn [fst]; [| apply raised_refl].
  apply keeping_raised; [done | done | by apply Hle].
Qed.

(** X26: for attributes within [[0, 100]], [ProcessTraining] of any type
    and intensity never lowers an attribute and never lifts one above 95
    (an attribute above 95 stays as it is); it changes nothing of the
    player but the nine trainable attributes. *)
Theorem ProcessTraining_only_raises (dm : DevelopmentManager) (now : Time) (p : Player)
    (trainingType : TrainingType) (intensity : float64) :
  AttributesInRange (PlayerAttributes p) ->
  raised p (snd (fst (ProcessTraining dm now p trainingType intensity))).
Proof.
  intros Ha. unfold ProcessTraining.
  set (result := mkTrainingResult ∅ F64.zero F64.zero).
  set (chance := calculateImprovementChance now p).
  assert (Htrain : forall train,
    raised p (fst (fst (train p chance result (rand dm)))) ->
    raised p (snd (fst (
      let '(player', result0, s) := train p chance result (rand dm) in
      (mkTrainingResult (AttributeChanges result0) (F64.of_int (-5) * intensity)%f64
         (if (intensity <? F64.lit 7 10)%f64 then F64.of_int 2
          else if (F64.lit 9 10 <? intensity)%f64 then F64.of_int (-3)
          else MoraleChange result0),
       player', mkDevelopmentManager s))))).
  { intros train H. destruct (train p chance result (rand dm)) as [[p' r'] s']. exact H. }
  destruct (String.eqb trainingType TrainingTechnical).
  { apply Htrain. by apply forAttrs_raised. }
  destruct (String.eqb trainingType TrainingPhysical).
  { apply Htrain. by apply forAttrs_raised. }
  destruct (String.eqb trainingType TrainingTactical).
  { apply Htrain. by apply forAttrs_raised. }
  destruct (String.eqb trainingType TrainingSetPieces).
  { apply Htrain. by apply trainSetPieces_raised. }
  apply Htrain. unfold trainGeneral, bind at 1.
  destruct (Intn 2 (rand dm)) as [k s0]. by apply trainGeneralLoop_raised.
Qed.

End TrainingRaises.

Lemma ProcessTraining_only_raises_witness :
  AttributesInRange (PlayerAttributes midfielder)
  /\ raised midfielder
       (snd (fst (ProcessTraining (lcgManager 2) day200of2025 midfielder
                    TrainingGeneral (F64.lit 5 10)))).
Proof.
  split; [apply NewDefaultAttributes_range |].
  apply (@ProcessTraining_only_raises lcgRand (lcgManager 2) day200of2025 midfielder
           TrainingGeneral (F64.lit 5 10) (NewDefaultAttributes_range PositionMID)).
Defined.

(** ** The report of a training session *)

Section TrainingReport.
Context {RS : RandSource}.

Lemma improveAttribute_reported (threshold : float64) (attr : string) (p0 p : Player)
    (r : TrainingResult) (s : rng) :
  knownAttribute attr = true ->
  AttributesInRange (PlayerAttributes p) ->
  AttributeChanges r !! attr = None ->
  reported p0 (p, r) ->
  reported p0 (fst (improveAttribute threshold attr (p, r) s))
  /\ forall other, other <> attr ->
       AttributeChanges (snd (fst (improveAttribute threshold attr (p, r) s))) !! other
       = AttributeChanges r !! other.
Proof.
  intros Hknown Ha Hnew [Hvalues Hchanges]. unfold improveAttribute, bind, ret.
  destruct (Float64 s) as [u s1].
  destruct (u <? threshold)%f64; [| done].
  pose proof (calculateImprovement_range p attr s1) as [Hr Hle].
  destruct (calculateImprovement p attr s1) as [imp s2]. cbn [fst] in Hr, Hle.
  destruct (Z.ltb_spec 0 imp); cbn [fst snd]; [| done].
  specialize (Hle ltac:(done)).
  pose proof (getAttributeValue_range p attr Ha) as Hv. unfold inRange in Hv.
  unfold reported. cbn [fst snd] in *. split; [split |].
  - intros a. cbn [AttributeChanges set_AttributeChange].
    rewrite getAttributeValue_apply, mapGet_insert, Hknown, andb_true_r.
    destruct (String.eqb_spec a attr) as [-> | Hne].
    + rewrite decide_True by done.
      rewrite Int.add_small by (unfold Int.min_int, Int.max_int; lia).
      rewrite clamp0_100_small by lia.
      specialize (Hvalues attr). unfold mapGet in Hvalues. rewrite Hnew in Hvalues.
      cbn in Hvalues. lia.
    + rewrite decide_False by congruence. apply Hvalues.
  - intros a change. cbn [AttributeChanges set_AttributeChange].
    rewrite lookup_insert. case_decide; [intros [= <-]; lia | apply Hchanges].
  - intros other Hne. cbn [AttributeChanges set_AttributeChange].
    by rewrite lookup_insert_ne.
Qed.

Lemma forAttrs_reported (threshold : float64) (attrs : list string) (p0 p : Player)
    (r : TrainingResult) (s : rng) :
  NoDup attrs ->
  (forall attr, In attr attrs ->
     knownAttribute attr = true /\ AttributeChanges r !! attr = None) ->
  AttributesInRange (PlayerAttributes p) ->
  reported p0 (p, r) ->
  reported p0 (fst (forAttrs (improveAttribute threshold) attrs (p, r) s)).
Proof.
  revert p r s. induction attrs as [| attr rest IH]; intros p r s Hnodup Hattrs Ha Hrep.
  - exact Hrep.
  - apply NoDup_cons in Hnodup as [Hnotin Hnodup].
    destruct (Hattrs attr ltac:(by left)) as [Hknown Hnew].
    cbn [forAttrs]. unfold bind at 1.
    pose proof (improveAttribute_reported threshold attr p0 p r s Hknown Ha Hnew Hrep)
      as [H1 Hothers].
    pose proof (improveAttribute_kept threshold attr p r s Ha) as [Ha1 _].
    destruct (improveAttribute threshold attr (p, r) s) as [[p1 r1] s1].
    cbn [fst snd] in *.
    apply IH; try done.
    intros a Hin. destruct (Hattrs a ltac:(by right)) as [Hk Hn].
    split; [done |]. rewrite Hothers; [done |].
    intros ->. apply Hnotin. by apply list_elem_of_In.
Qed.

Lemma trainSetPieces_reported (p : Player) (chance : float64) (s : rng) :
  AttributesInRange (PlayerAttributes p) ->
  reported p (fst (trainSetPieces p chance (mkTrainingResult ∅ F64.zero F64.zero) s)).
Proof.
  intros Ha.
  assert (Hstart : reported p (p, mkTrainingResult ∅ F64.zero F64.zero)).
  { split; [intros a; cbn; unfold mapGet; rewrite lookup_empty; cbn; lia | done]. }
  unfold trainSetPieces.
  destruct (String.eqb (PlayerPosition p) PositionGK).
  2: { apply forAttrs_reported; try done.
       - apply (bool_decide_unpack _). vm_compute. exact I.
       - intros attr [<- | [<- | []]]; split; reflexivity. }
  unfold bind, ret.
  destruct (Float64 s) as [u s1].
  destruct (u <? chance)%f64; [| exact Hstart].
  pose proof (calculateImprovement_range p "Keeping" s1) as [Hr Hle].
  destruct (calculateImprovement p "Keeping" s1) as [imp s2]. cbn [fst] in Hr, Hle.
  destruct (Z.ltb_spec 0 imp); cbn [fst]; [| exact Hstart].
  specialize (Hle ltac:(done)).
  change (getAttributeValue p "Keeping") with (Keeping (PlayerAttributes p)) in Hle.
  pose proof (Keeping_range _ Ha) as Hk. unfold inRange in Hk.
  unfold reported. split.
  - intros a. cbn [fst snd AttributeChanges set_AttributeChange].
    rewrite mapGet_insert. unfold getAttributeValue.
    cbn [PlayerAttributes set_Attributes].
    rewrite Int.add_small by (unfold Int.min_int, Int.max_int; lia).
    destruct (String.eqb_spec a "Keeping") as [-> | Hne].
    + rewrite decide_True by done. cbn. lia.
    + rewrite decide_False by congruence. unfold mapGet. rewrite lookup_empty.
      cbn.
      repeat match goal with
             | |- context [String.eqb a ?x] => destruct (String.eqb a x); [lia |]
             end.
      lia.
  - intros a change. cbn [fst snd AttributeChanges set_AttributeChange].
    rewrite lookup_insert. case_decide; [intros [= <-]; lia | done].
Qed.

(** What [ProcessTraining] returns, in terms of the training it runs. *)
Lemma ProcessTraining_outcome (dm : DevelopmentManager) (now : Time) (p : Player)
    (trainingType : TrainingType) (intensity : float64) :
  let train :=
    if String.eqb trainingType TrainingTechnical then trainTechnical
    else if String.eqb trainingType TrainingPhysical then trainPhysical
    else if String.eqb trainingType TrainingTactical then trainTactical
    else if String.eqb trainingType TrainingSetPieces then trainSetPieces
    else trainGeneral in
  let trained :=
    fst (train p (calculateImprovementChance now p)
           (mkTrainingResult ∅ F64.zero F64.zero) (rand dm)) in
  snd (fst (ProcessTraining dm now p trainingType intensity)) = fst trained
  /\ AttributeChanges (fst (fst (ProcessTraining dm now p trainingType intensity)))
     = AttributeChanges (snd trained).
Proof.
  cbn zeta. unfold ProcessTraining.
  by destruct ((if String.eqb trainingType TrainingTechnical then trainTechnical
                else if String.eqb trainingType TrainingPhysical then trainPhysical
                else if String.eqb trainingType TrainingTactical then trainTactical
                else if String.eqb trainingType TrainingSetPieces then trainSetPieces
                else trainGeneral) p (calculateImprovementChance now p)
                 (mkTrainingResult ∅ F64.zero F64.zero) (rand dm)) as [[p' r'] s'].
Qed.

(** X27: for attributes within [[0, 100]], the result of a technical,
    physical, tactical or set-pieces session reports exactly what the
    session did: every attribute of the player afterwards is its value
    before plus the change reported for it (nothing when none is
    reported), and every reported change is 1 or 2. *)
Theorem ProcessTraining_report_accurate (dm : DevelopmentManager) (now : Time) (p : Player)
    (trainingType : TrainingType) (intensity : float64) :
  AttributesInRange (PlayerAttributes p) ->
  focusedTraining trainingType ->
  let result := fst (fst (ProcessTraining dm now p trainingType intensity)) in
  let p' := snd (fst (ProcessTraining dm now p trainingType intensity)) in
  (forall attribute,
     getAttributeValue p' attribute
     = getAttributeValue p attribute + mapGet (AttributeChanges result) attribute)
  /\ forall attribute change,
       AttributeChanges result !! attribute = Some change -> 1 <= change <= 2.
Proof.
  intros Ha Hfocused. cbn zeta.
  destruct (ProcessTraining_outcome dm now p trainingType intensity) as [-> ->].
  set (result := mkTrainingResult ∅ F64.zero F64.zero).
  set (chance := calculateImprovementChance now p).
  assert (Hstart : reported p (p, result)).
  { split; [intros a; cbn; unfold mapGet; rewrite lookup_empty; cbn; lia | done]. }
  assert (Hlist : forall threshold attrs,
    NoDup attrs -> (forall attr, In attr attrs -> knownAttribute attr = true) ->
    reported p (fst (forAttrs (improveAttribute threshold) attrs (p, result) (rand dm)))).
  { intros threshold attrs Hnodup Hknown. apply forAttrs_reported; try done.
    intros attr Hin. split; [by apply Hknown | apply lookup_empty]. }
  assert (Hgoal : forall trained : Player * TrainingResult,
    reported p trained ->
    (forall attribute,
       getAttributeValue (fst trained) attribute
       = getAttributeValue p attribute + mapGet (AttributeChanges (snd trained)) attribute)
    /\ forall attribute change,
         AttributeChanges (snd trained) !! attribute = Some change -> 1 <= change <= 2)
    by (intros trained H; exact H).
  destruct Hfocused as [-> | [-> | [-> | ->]]]; cbn [String.eqb Ascii.eqb Bool.eqb];
    apply Hgoal.
  - apply Hlist; [apply (bool_decide_unpack _); vm_compute; exact I |].
    intros attr [<- | [<- | [<- | []]]]; reflexivity.
  - apply Hlist; [apply (bool_decide_unpack _); vm_compute; exact I |].
    intros attr [<- | [<- | [<- | []]]]; reflexivity.
  - apply Hlist; [apply (bool_decide_unpack _); vm_compute; exact I |].
    intros attr [<- | [<- | []]]; reflexivity.
  - by apply trainSetPieces_reported.
Qed.

End TrainingReport.

Lemma ProcessTraining_report_accurate_witness :
  AttributesInRange (PlayerAttributes midfielder)
  /\ focusedTraining TrainingTechnical
  /\ forall attribute change,
       AttributeChanges
         (fst (fst (ProcessTraining (lcgManager 2) day200of2025 midfielder
                      TrainingTechnical (F64.lit 5 10)))) !! attribute = Some change ->
       1 <= change <= 2.
Proof.
  split; [apply NewDefaultAttributes_range |]. split; [by left |].
  exact (proj2 (@ProcessTraining_report_accurate lcgRand (lcgManager 2) day200of2025
                  midfielder TrainingTechnical (F64.lit 5 10)
                  (NewDefaultAttributes_range PositionMID) (or_introl eq_refl))).
Defined.

(** ** Natural development *)

Lemma GetOverallRating_set_Quality (p : Player) (q : Z) :
  q = GetOverallRating p ->
  GetOverallRating (set_Attributes p (set_Quality (PlayerAttributes p) q)) = q.
Proof.
  intros ->. unfold GetOverallRating. cbn [PlayerPosition PlayerAttributes set_Attributes].
  repeat match goal with
         | |- context [String.eqb (PlayerPosition p) ?x] =>
             destruct (String.eqb (PlayerPosition p) x); [reflexivity |]
         end.
  reflexivity.
Qed.

Section NaturalDevelopment.
Context {RS : RandSource}.

(** X28: after [ProcessNaturalDevelopment], at any age, the stored Quality
    is the overall rating of the player; between 23 and 30 nothing else
    changes, no random number is drawn, and a second call changes
    nothing. *)
Theorem ProcessNaturalDevelopment_quality (dm : DevelopmentManager) (now : Time)
    (p : Player) :
  let p' := fst (ProcessNaturalDevelopment dm now p) in
  Quality (PlayerAttributes p') = GetOverallRating p'
  /\ (23 <= Age now p <= 30 ->
      ProcessNaturalDevelopment dm now p
      = (set_Attributes p (set_Quality (PlayerAttributes p) (GetOverallRating p)), dm)
      /\ ProcessNaturalDevelopment dm now p' = (p', dm)).
Proof.
  cbn zeta. split.
  - unfold ProcessNaturalDevelopment.
    destruct (if Age now p <? 23 then youngPlayerDevelopment now p (rand dm)
              else if 30 <? Age now p then veteranDecline now p (rand dm)
              else (p, rand dm)) as [p1 s1].
    cbn [fst]. by rewrite GetOverallRating_set_Quality.
  - intros Hage.
    assert (Hmid : forall q, Age now q = Age now p ->
      ProcessNaturalDevelopment dm now q
      = (set_Attributes q (set_Quality (PlayerAttributes q) (GetOverallRating q)), dm)).
    { intros q Hq. unfold ProcessNaturalDevelopment. rewrite Hq.
      destruct (Z.ltb_spec (Age now p) 23); [lia |].
      destruct (Z.ltb_spec 30 (Age now p)); [lia |]. by destruct dm. }
    rewrite (Hmid p eq_refl). split; [reflexivity |]. cbn [fst].
    rewrite Hmid by reflexivity. f_equal.
    rewrite GetOverallRating_set_Quality by reflexivity.
    by destruct p as [? ? ? ? ? ? ? ? ? ? ? ? [] ?].
Qed.

(** X29: for a player over 30 with attributes within [[0, 100]],
    [ProcessNaturalDevelopment] leaves Speed and Stamina as they are or
    sets them to [max (v - 1) 30] (so a value below 30 is lifted to 30),
    leaves Perception as it is or raises it by one up to 100, and leaves
    every other attribute but Quality unchanged. *)
Theorem ProcessNaturalDevelopment_veteran (dm : DevelopmentManager) (now : Time)
    (p : Player) :
  AttributesInRange (PlayerAttributes p) -> 30 < Age now p ->
  let a := PlayerAttributes p in
  let a' := PlayerAttributes (fst (ProcessNaturalDevelopment dm now p)) in
  (Speed a' = Speed a \/ Speed a' = Z.max (Speed a - 1) 30)
  /\ (Stamina a' = Stamina a \/ Stamina a' = Z.max (Stamina a - 1) 30)
  /\ (Perception a' = Perception a \/ Perception a' = Z.min (Perception a + 1) 100)
  /\ Keeping a' = Keeping a /\ Tackling a' = Tackling a /\ Passing a' = Passing a
  /\ Shooting a' = Shooting a /\ Heading a' = Heading a /\ BallControl a' = BallControl a
  /\ Consistency a' = Consistency a /\ ImportantMatches a' = ImportantMatches a
  /\ Potential a' = Potential a /\ Ambition a' = Ambition a
  /\ Professionalism a' = Professionalism a.
Proof.
  intros Ha Hage. cbn zeta. unfold ProcessNaturalDevelopment.
  destruct (Z.ltb_spec (Age now p) 23); [lia |].
  destruct (Z.ltb_spec 30 (Age now p)); [| lia].
  unfold veteranDecline, bind, ret.
  destruct (Float64 (rand dm)) as [u1 s1].
  destruct (Float64 s1) as [u2 s2].
  destruct (Float64 s2) as [u3 s3].
  destruct Ha. unfold inRange in *.
  assert (Hdown : forall v, 0 <= v <= 100 -> max30 (Int.sub v 1) = Z.max (v - 1) 30).
  { intros v Hv. rewrite Int.sub_small by (unfold Int.min_int, Int.max_int; lia).
    apply max30_small. lia. }
  assert (Hup : forall v, 0 <= v <= 100 -> min100 (Int.add v 1) = Z.min (v + 1) 100).
  { intros v Hv. rewrite Int.add_small by (unfold Int.min_int, Int.max_int; lia).
    apply min100_small. lia. }
  destruct (u1 <? _)%f64; destruct (u2 <? _)%f64; destruct (u3 <? _)%f64;
    cbn [fst PlayerAttributes set_Attributes set_Quality set_Speed set_Stamina set_Perception
         Speed Stamina Perception Keeping Tackling Passing Shooting Heading BallControl
         Consistency ImportantMatches Potential Ambition Professionalism];
    rewrite ?Hdown, ?Hup by done; repeat split; tauto.
Qed.

End NaturalDevelopment.

(** A veteran: the midfielder, seen in 2035. *)
Lemma ProcessNaturalDevelopment_veteran_witness :
  AttributesInRange (PlayerAttributes midfielder)
  /\ 30 < Age (mkTime 2035 200) midfielder
  /\ Keeping (PlayerAttributes
                (fst (ProcessNaturalDevelopment (lcgManager 2) (mkTime 2035 200) midfielder)))
     = Keeping (PlayerAttributes midfielder).
Proof.
  split; [apply NewDefaultAttributes_range |]. split; [reflexivity |].
  exact (proj1 (proj2 (proj2 (proj2
           (@ProcessNaturalDevelopment_veteran lcgRand (lcgManager 2) (mkTime 2035 200)
              midfielder (NewDefaultAttributes_range PositionMID) eq_refl))))).
Defined.

(** ** The recommended starters are the best rated *)

Lemma StronglySorted_take_drop {A : Type} (R : A -> A -> Prop) (l : list A) (n : nat)
    (x y : A) :
  StronglySorted R l -> In x (take n l) -> In y (drop n l) -> R x y.
Proof.
  intros Hsorted. revert n. induction Hsorted as [| z l Hsorted IH Hall]; intros n Hx Hy.
  - by rewrite take_nil in Hx.
  - destruct n as [| n]; [done |]. cbn [take drop] in Hx, Hy.
    destruct Hx as [<- | Hx]; [| by apply (IH n)].
    apply (proj1 (List.Forall_forall _ _) Hall).
    apply list_elem_of_In. apply (subseteq_drop n l). by apply list_elem_of_In.
Qed.

Section Preferred.
Context {sorter : SliceSorter}.

Lemma fillPosition_preferred (available : list Player) (requirements : gmap Position Z)
    (st : Lineup * gset PlayerID) (pos : Position) :
  NoDup (map ID available) ->
  preferred available st ->
  preferred available (fillPosition available requirements st pos).
Proof.
  intros Hnodup Hpref. unfold fillPosition, preferred in *.
  destruct st as [lineup used]. cbn [fst snd] in *.
  set (candidates := getBestCandidates available pos used).
  set (n := Z.to_nat (mapGet requirements pos)).
  destruct (fold_assignStarter pos (take n candidates) lineup used) as (used' & -> & Hused').
  cbn [fst snd Starters Positions].
  apply Forall2_app.
  - eapply Forall2_impl; [exact Hpref |]. cbn.
    intros playerID pos' (c & Hc & Hid & Hbest). exists c. split; [done |]. split; [done |].
    intros q Hq Hcan Hnot. apply Hbest; try done.
    intros Hin. apply Hnot, Hused'. by right.
  - assert (Hsorted : StronglySorted (fun x y => GetOverallRating y <= GetOverallRating x)
                        candidates) by apply sortSlice_sorted.
    assert (Hall : forall c, In c (take n candidates) ->
      In c available
      /\ forall q, In q available -> CanPlayPosition q pos = true -> ID q ∉ used' ->
           GetOverallRating q <= GetOverallRating c).
    { intros c Hc. split.
      - apply (getBestCandidates_In available pos used).
        apply list_elem_of_In. apply (subseteq_take n candidates). by apply list_elem_of_In.
      - intros q Hq Hcan Hnot.
        assert (Hcand : In q candidates).
        { apply getBestCandidates_In. split; [done |]. split; [| done].
          intros Hin. apply Hnot, Hused'. by right. }
        rewrite <- (take_drop n candidates) in Hcand.
        apply in_app_or in Hcand as [Hcand | Hcand].
        + destruct Hnot. apply Hused'. left. by apply in_map.
        + by apply (StronglySorted_take_drop
                      (fun x y => GetOverallRating y <= GetOverallRating x) candidates n c q). }
    revert Hall. generalize (take n candidates). clear Hused'.
    intros cs. induction cs as [| c cs IH]; intros Hall; [constructor |].
    cbn. constructor.
    + exists c. destruct (Hall c ltac:(by left)) as [Hc Hbest]. done.
    + apply IH. intros c' Hc'. apply Hall. by right.
Qed.

(** X12: in a lineup [RecommendLineup] returns from a roster with distinct
    identifiers, the starters are the best rated for their positions: an
    available player who can play the position assigned to a starter, and
    who is not in the starting eleven, never has a higher overall rating
    than that starter. *)
Theorem RecommendLineup_prefers_higher_rated (now : Time) (sm : SquadManager)
    (formation : Formation) (lineup : Lineup) (i : nat) (playerID : PlayerID)
    (pos : Position) :
  NoDup (map ID (Players (team sm))) ->
  RecommendLineup now sm formation = (Some lineup, None) ->
  Starters lineup !! i = Some playerID ->
  Positions lineup !! i = Some pos ->
  exists starter,
    fst (GetPlayer (team sm) playerID) = Some starter
    /\ forall q, In q (GetAvailablePlayers (team sm)) -> CanPlayPosition q pos = true ->
         ~ In (ID q) (Starters lineup) ->
         GetOverallRating q <= GetOverallRating starter.
Proof.
  intros Hroster Hrec Hi Hpos.
  apply RecommendLineup_Some in Hrec. cbn zeta in Hrec.
  destruct Hrec as (_ & _ & Hstarters & Hpositions & _).
  pose proof (filter_ID_NoDup IsAvailable _ Hroster) as Havailable.
  destruct (selection_fold (GetAvailablePlayers (team sm)) formation Havailable)
    as (rest & k2 & k3 & k4 & def & mid & fwd & Hsel & _).
  cbn zeta in Hsel. destruct Hsel as (_ & _ & Hused).
  set (available := GetAvailablePlayers (team sm)) in *.
  set (requirements := GetPositionRequirements formation) in *.
  assert (Hpref : preferred available
                    (fold_left (fillPosition available requirements) positionPriority
                       (mkLineup formation [] [] [] "", ∅))).
  { unfold positionPriority. cbn [fold_left].
    repeat apply fillPosition_preferred; try done. constructor. }
  set (st := fold_left _ _ _) in *. unfold preferred in Hpref.
  rewrite <- Hstarters, <- Hpositions in Hpref.
  destruct (Forall2_lookup_lr _ _ _ _ _ _ Hpref Hi Hpos) as (c & Hc & Hid & Hbest).
  exists c. split.
  - subst playerID. apply GetPlayer_of_roster; [done |].
    by apply filter_In in Hc as [Hc _].
  - intros q Hq Hcan Hout. apply Hbest; try done.
    intros Hin. apply Hout. rewrite Hstarters. by apply Hused.
Qed.

End Preferred.

Lemma RecommendLineup_prefers_higher_rated_witness :
  Starters cityLineup !! 1%nat = Some "m1"
  /\ Positions cityLineup !! 1%nat = Some PositionDEF
  /\ exists starter,
       fst (GetPlayer city "m1") = Some starter
       /\ forall q, In q (GetAvailablePlayers city) ->
            CanPlayPosition q PositionDEF = true ->
            ~ In (ID q) (Starters cityLineup) ->
            GetOverallRating q <= GetOverallRating starter.
Proof.
  split; [reflexivity |]. split; [reflexivity |].
  exact (@RecommendLineup_prefers_higher_rated insertionSorter day200of2025
           (NewSquadManager city) Formation442 cityLineup 1 "m1" PositionDEF
           city_roster city_recommended eq_refl eq_refl).
Defined.

(** ** A valid lineup that RecommendLineup misses *)

Lemma squadPlayer_rating (id : PlayerID) :
  map (fun pos => GetOverallRating (squadPlayer id pos)) positionPriority = [64; 66; 67; 70].
Proof. vm_compute. reflexivity. Qed.

Lemma rovers_available : GetAvailablePlayers rovers = Players rovers.
Proof. vm_compute. reflexivity. Qed.

Lemma rovers_roster : NoDup (map ID (Players rovers)).
Proof. apply (bool_decide_unpack _). vm_compute. exact I. Qed.

Lemma roversLineup_valid (order : list Position) :
  ValidateLineup order rovers roversLineup = Returns None.
Proof.
  apply validLineup_accepted.
  split; [reflexivity |].
  split; [apply checkAvailable_None_inv; vm_compute; reflexivity |].
  split; [reflexivity |]. split.
  - intros j playerID Hj.
    do 11 (destruct j as [| j];
           [injection Hj as <-; eexists; eexists; repeat split; reflexivity |]).
    discriminate.
  - intros pos required _ Hreq. apply mkRequirements_lookup in Hreq.
    destruct Hreq as [[-> ->] | [[-> ->] | [[-> ->] | [-> ->]]]]; reflexivity.
Qed.

(** The players of [rovers] who can play a position, whatever is marked
    used among those who cannot. *)
Lemma rovers_MID (c : Player) :
  In c (Players rovers) -> CanPlayPosition c PositionMID = true ->
  In c [squadPlayer "m1" PositionMID; squadPlayer "m2" PositionMID;
        squadPlayer "m3" PositionMID; squadPlayer "m4" PositionMID].
Proof.
  intros Hc Hcan. cbn in Hc.
  repeat (destruct Hc as [<- | Hc]; [first [discriminate Hcan | cbn; tauto] |]).
  done.
Qed.

Lemma rovers_DEF_67 (c : Player) :
  In c (Players rovers) -> CanPlayPosition c PositionDEF = true ->
  67 <= GetOverallRating c ->
  In c [squadPlayer "m1" PositionMID; squadPlayer "m2" PositionMID;
        squadPlayer "m3" PositionMID; squadPlayer "m4" PositionMID].
Proof.
  intros Hc Hcan Hrating. cbn in Hc.
  repeat (destruct Hc as [<- | Hc];
          [first [discriminate Hcan | cbn; tauto
                 | exfalso; revert Hrating; vm_compute; congruence] |]).
  done.
Qed.

Lemma rovers_GK (c : Player) :
  In c (Players rovers) -> CanPlayPosition c PositionGK = true -> ID c = "g1".
Proof.
  intros Hc Hcan. cbn in Hc.
  repeat (destruct Hc as [<- | Hc]; [first [discriminate Hcan | reflexivity] |]).
  done.
Qed.

Section Missed.
Context {sorter : SliceSorter}.

Lemma rovers_midfielders_used (m : Player) :
  In m [squadPlayer "m1" PositionMID; squadPlayer "m2" PositionMID;
        squadPlayer "m3" PositionMID; squadPlayer "m4" PositionMID] ->
  let requirements := GetPositionRequirements Formation442 in
  let st1 :=
    fillPosition (Players rovers) requirements (mkLineup Formation442 [] [] [] "", ∅)
      PositionGK in
  In m (chosenFor (Players rovers) requirements (snd st1) PositionDEF).
Proof.
  intros Hm. cbn zeta.
  set (requirements := GetPositionRequirements Formation442).
  set (st0 := (mkLineup Formation442 [] [] [] "", (∅ : gset PlayerID))).
  assert (H0 : selection (Players rovers) st0).
  { split; [constructor | split; [constructor |]]. intros playerID. cbn.
    split; [by intros ?%elem_of_empty | done]. }
  destruct (fillPosition_step (Players rovers) requirements st0 PositionGK rovers_roster H0)
    as (H1 & Hs1 & _).
  set (st1 := fillPosition (Players rovers) requirements st0 PositionGK) in *.
  destruct H1 as (Hel1 & _ & Hused1).
  assert (Hkeepers : forall playerID, playerID ∈ snd st1 -> playerID = "g1").
  { intros playerID Hin. apply Hused1 in Hin. rewrite Hs1 in Hin. cbn [Starters fst st0 app] in Hin.
    apply in_map_iff in Hin as (c & <- & Hc).
    unfold chosenFor in Hc. apply list_elem_of_In, subseteq_take, list_elem_of_In in Hc.
    apply getBestCandidates_In in Hc as (Hc & _ & Hcan). by apply rovers_GK. }
  set (candidates := getBestCandidates (Players rovers) PositionDEF (snd st1)).
  assert (Hmids : forall q,
    In q [squadPlayer "m1" PositionMID; squadPlayer "m2" PositionMID;
          squadPlayer "m3" PositionMID; squadPlayer "m4" PositionMID] ->
    In q candidates).
  { intros q Hq. apply getBestCandidates_In.
    split; [| split].
    - cbn in Hq |- *. tauto.
    - intros Hin. apply Hkeepers in Hin.
      cbn in Hq. destruct Hq as [<- | [<- | [<- | [<- | []]]]]; discriminate.
    - cbn in Hq. destruct Hq as [<- | [<- | [<- | [<- | []]]]]; reflexivity. }
  unfold chosenFor. fold candidates.
  change (Z.to_nat (mapGet requirements PositionDEF)) with 4%nat.
  pose proof (Hmids m Hm) as Hcand.
  rewrite <- (take_drop 4 candidates) in Hcand.
  apply in_app_or in Hcand as [Hcand | Hdropped]; [exact Hcand | exfalso].
  assert (Hsorted : StronglySorted (fun x y => GetOverallRating y <= GetOverallRating x)
                      candidates) by apply sortSlice_sorted.
  assert (Hnodup : NoDup (map ID candidates))
    by apply getBestCandidates_NoDup, rovers_roster.
  assert (Hfour : (4 <= length candidates)%nat).
  { assert (Hsub : [squadPlayer "m1" PositionMID; squadPlayer "m2" PositionMID;
                    squadPlayer "m3" PositionMID; squadPlayer "m4" PositionMID]
                   ⊆+ candidates).
    { apply NoDup_submseteq.
      - apply (NoDup_fmap_1 ID). apply (bool_decide_unpack _). vm_compute. exact I.
      - intros q Hq. apply list_elem_of_In, Hmids. by apply list_elem_of_In. }
    apply submseteq_length in Hsub. exact Hsub. }
  assert (Hchosen : forall c, In c (take 4 candidates) ->
    In c [squadPlayer "m1" PositionMID; squadPlayer "m2" PositionMID;
          squadPlayer "m3" PositionMID; squadPlayer "m4" PositionMID] /\ c <> m).
  { intros c Hc.
    pose proof (StronglySorted_take_drop _ candidates 4 c m Hsorted Hc Hdropped) as Hrating.
    cbn beta in Hrating.
    assert (Hc' : In c candidates).
    { apply list_elem_of_In. apply (subseteq_take 4 candidates). by apply list_elem_of_In. }
    apply getBestCandidates_In in Hc' as (Hc' & _ & Hcan).
    assert (Hm67 : GetOverallRating m = 67).
    { cbn in Hm. destruct Hm as [<- | [<- | [<- | [<- | []]]]]; vm_compute; reflexivity. }
    split; [apply rovers_DEF_67; [done | done | lia] |].
    intros ->.
    assert (Hsplit : NoDup (map ID (take 4 candidates ++ drop 4 candidates)))
      by (by rewrite take_drop).
    rewrite map_app in Hsplit. apply NoDup_app in Hsplit as (_ & Hdisjoint & _).
    apply (Hdisjoint (ID m)); apply list_elem_of_fmap; exists m;
      (split; [done | by apply list_elem_of_In]). }
  assert (Hsub : take 4 candidates
                 ⊆+ List.filter (fun q => negb (String.eqb (ID q) (ID m)))
                      [squadPlayer "m1" PositionMID; squadPlayer "m2" PositionMID;
                       squadPlayer "m3" PositionMID; squadPlayer "m4" PositionMID]).
  { apply NoDup_submseteq.
    - apply (NoDup_fmap_1 ID). eapply sublist_NoDup; [exact Hnodup |].
      apply fmap_sublist, sublist_take.
    - intros c Hc. apply list_elem_of_In in Hc. destruct (Hchosen c Hc) as [Hin Hne].
      apply list_elem_of_In, filter_In. split; [done |].
      apply negb_true_iff, String.eqb_neq. intros Hid. apply Hne.
      cbn in Hin, Hm.
      destruct Hin as [<- | [<- | [<- | [<- | []]]]];
        destruct Hm as [<- | [<- | [<- | [<- | []]]]]; done. }
  apply submseteq_length in Hsub. rewrite length_take in Hsub.
  assert (Hthree : (length (List.filter (fun q => negb (String.eqb (ID q) (ID m)))
                      [squadPlayer "m1" PositionMID; squadPlayer "m2" PositionMID;
                       squadPlayer "m3" PositionMID; squadPlayer "m4" PositionMID]) <= 3)%nat).
  { cbn in Hm. destruct Hm as [<- | [<- | [<- | [<- | []]]]]; cbn; lia. }
  lia.
Qed.

Lemma rovers_not_recommended (now : Time) :
  RecommendLineup now (NewSquadManager rovers) Formation442
  = (None, Some ErrInsufficientPlayers).
Proof.
  apply RecommendLineup_fails_iff.
  cbn [team NewSquadManager]. rewrite rovers_available.
  set (requirements := GetPositionRequirements Formation442).
  unfold positionPriority. cbn [fold_left].
  set (st0 := (mkLineup Formation442 [] [] [] "", (∅ : gset PlayerID))).
  assert (H0 : selection (Players rovers) st0).
  { split; [constructor | split; [constructor |]]. intros playerID. cbn.
    split; [by intros ?%elem_of_empty | done]. }
  destruct (fillPosition_step (Players rovers) requirements st0 PositionGK rovers_roster H0)
    as (H1 & Hs1 & _).
  pose proof (fun m Hm => rovers_midfielders_used m Hm) as Hmids. cbn zeta in Hmids.
  fold requirements st0 in Hmids.
  set (st1 := fillPosition (Players rovers) requirements st0 PositionGK) in *.
  destruct (fillPosition_step (Players rovers) requirements st1 PositionDEF rovers_roster H1)
    as (H2 & Hs2 & _).
  set (st2 := fillPosition (Players rovers) requirements st1 PositionDEF) in *.
  destruct (fillPosition_step (Players rovers) requirements st2 PositionMID rovers_roster H2)
    as (H3 & Hs3 & _).
  set (st3 := fillPosition (Players rovers) requirements st2 PositionMID) in *.
  destruct (fillPosition_step (Players rovers) requirements st3 PositionFWD rovers_roster H3)
    as (_ & Hs4 & _).
  pose proof (chosenFor_length (Players rovers) requirements (snd st0) PositionGK) as Hk1.
  pose proof (chosenFor_length (Players rovers) requirements (snd st1) PositionDEF) as Hk2.
  pose proof (chosenFor_length (Players rovers) requirements (snd st3) PositionFWD) as Hk4.
  change (Z.to_nat (mapGet requirements PositionGK)) with 1%nat in Hk1.
  change (Z.to_nat (mapGet requirements PositionDEF)) with 4%nat in Hk2.
  change (Z.to_nat (mapGet requirements PositionFWD)) with 2%nat in Hk4.
  assert (Hnone : chosenFor (Players rovers) requirements (snd st2) PositionMID = []).
  { unfold chosenFor.
    destruct (getBestCandidates (Players rovers) PositionMID (snd st2)) as [| c cs] eqn:Hcs;
      [by rewrite take_nil |].
    assert (Hc : In c (getBestCandidates (Players rovers) PositionMID (snd st2)))
      by (rewrite Hcs; by left).
    apply getBestCandidates_In in Hc as (Hc & Hunused & Hcan).
    destruct Hunused. destruct H2 as (_ & _ & Hused2). apply Hused2.
    rewrite Hs2. apply in_or_app. right. apply in_map.
    apply Hmids. by apply rovers_MID. }
  rewrite Hs4, Hs3, Hnone, Hs2, Hs1. cbn [Starters fst st0 map app].
  rewrite !length_app, !length_map. cbn [length]. lia.
Qed.

End Missed.

(** X30: [RecommendLineup] can miss a valid lineup.  The team [rovers]
    has eleven available players with distinct identifiers, and its
    lineup with every player at the own position passes [ValidateLineup];
    yet [RecommendLineup] fails for the same formation, however
    [sort.Slice] orders equal ratings: the four midfielders, rated above
    the defenders, are taken for the defence and nobody is left for
    midfield. *)
Theorem RecommendLineup_misses_a_valid_lineup :
  exists (t : Team) (lineup : Lineup),
    NoDup (map ID (Players t))
    /\ (forall order, ValidateLineup order t lineup = Returns None)
    /\ forall (sorter : SliceSorter) (now : Time),
         RecommendLineup now (NewSquadManager t) (LineupFormation lineup)
         = (None, Some ErrInsufficientPlayers).
Proof.
  exists rovers, roversLineup.
  split; [exact rovers_roster |]. split; [exact roversLineup_valid |].
  intros sorter now. apply rovers_not_recommended.
Qed.

(** ** Signs of the results of the binary64 operations *)

Lemma positiveFiniteb_true (x : float64) : positiveFiniteb x = true -> positiveFinite x.
Proof. destruct x as [| | | [] m e]; try done. cbn. lia. Qed.

Lemma finiteNotNegativeb_true (x : float64) :
  finiteNotNegativeb x = true -> finiteNotNegative x.
Proof. destruct x as [| | | [] m e]; try done. cbn. lia. Qed.

Lemma positiveFinite_finite (x : float64) : positiveFinite x -> finiteNotNegative x.
Proof. by destruct x as [| | | [] m e]. Qed.

Lemma finiteNotNegative_notNegative (x : float64) : finiteNotNegative x -> notNegative x.
Proof. by destruct x as [| [] | | [] m e]. Qed.

Lemma shr_fexp_exp (m e : Z) (l : location) : -1074 <= snd (shr_fexp 53 1024 m e l).
Proof.
  unfold shr_fexp, shr. pose proof (fexp_ge (Zdigits2 m + e)) as Hf.
  destruct (fexp 53 1024 (Zdigits2 m + e) - e) eqn:Hn; cbn [snd]; lia.
Qed.

Lemma shr_fexp_m (m e : Z) (l : location) :
  0 <= m -> 0 <= shr_m (fst (shr_fexp 53 1024 m e l)).
Proof.
  intros Hm. unfold shr_fexp, shr.
  destruct (fexp 53 1024 (Zdigits2 m + e) - e) as [| p | p]; cbn [fst];
    rewrite ?iter_shr_1_m by (rewrite shr_m_of_loc; done); rewrite shr_m_of_loc; try done.
  apply Z.div_pos; [done | apply pow2_pos; lia].
Qed.

(** The rounding of a non-negative mantissa keeps the sign and yields a
    zero, a finite value or an infinity. *)
Lemma binary_round_aux_shape (s : bool) (mx ex : Z) (lx : location) :
  0 <= mx ->
  match binary_round_aux 53 1024 s mx ex lx with
  | S754_zero s' | S754_infinity s' => s' = s
  | S754_finite s' _ e => s' = s /\ -1074 <= e
  | S754_nan => False
  end.
Proof.
  intros Hmx. unfold binary_round_aux.
  pose proof (shr_fexp_m mx ex lx Hmx) as H1.
  destruct (shr_fexp 53 1024 mx ex lx) as [r1 e1]. cbn [fst] in H1.
  pose proof (round_nearest_even_bounds (shr_m r1) (loc_of_shr_record r1)) as Hm2.
  set (m2 := round_nearest_even (shr_m r1) (loc_of_shr_record r1)) in *.
  pose proof (shr_fexp_m m2 e1 loc_Exact ltac:(lia)) as H2.
  pose proof (shr_fexp_exp m2 e1 loc_Exact) as He2.
  destruct (shr_fexp 53 1024 m2 e1 loc_Exact) as [r2 e2]. cbn [fst snd] in H2, He2.
  destruct (shr_m r2) as [| m3 | m3]; [done | | lia].
  destruct (e2 <=? 1024 - 53); done.
Qed.

Lemma binary_round_shape (s : bool) (mx : positive) (ex : Z) :
  match binary_round 53 1024 s mx ex with
  | S754_zero s' | S754_infinity s' => s' = s
  | S754_finite s' _ e => s' = s /\ -1074 <= e
  | S754_nan => False
  end.
Proof.
  unfold binary_round. destruct (shl_align mx ex _) as [mz ez].
  apply binary_round_aux_shape. lia.
Qed.

Lemma shape_notNegative (x : float64) :
  match x with
  | S754_zero s' | S754_infinity s' => s' = false
  | S754_finite s' _ e => s' = false /\ -1074 <= e
  | S754_nan => False
  end ->
  notNegative x.
Proof. destruct x as [[] | [] | | [] m e]; cbn; intuition discriminate. Qed.

Lemma of_int_notNegative (z : Z) : 0 <= z -> notNegative (F64.of_int z).
Proof.
  intros Hz. unfold F64.of_int, binary_normalize.
  destruct z as [| p | p]; [done | | lia].
  apply shape_notNegative, binary_round_shape.
Qed.

Lemma mul_notNegative (x y : float64) :
  notNegative x -> positiveFinite y -> notNegative (x * y)%f64.
Proof.
  destruct x as [sx | [] | | [] mx ex], y as [| | | [] my ey]; try done; intros Hx Hy.
  unfold F64.mul, SFmul. cbn [xorb].
  apply shape_notNegative, binary_round_aux_shape. lia.
Qed.

Lemma mul_finiteNotNegative (x y : float64) :
  finiteNotNegative x -> finiteNotNegative y -> notNegative (x * y)%f64.
Proof.
  destruct x as [sx | [] | | [] mx ex], y as [sy | [] | | [] my ey]; try done; intros Hx Hy.
  unfold F64.mul, SFmul. cbn [xorb].
  apply shape_notNegative, binary_round_aux_shape. lia.
Qed.

Lemma add_notNegative (x y : float64) :
  notNegative x -> notNegative y -> notNegative (x + y)%f64.
Proof.
  destruct x as [[] | [] | | [] mx ex], y as [[] | [] | | [] my ey]; try done; intros Hx Hy.
  unfold F64.add, SFadd. cbn [cond_Zopp]. cbv zeta.
  unfold binary_normalize.
  destruct (Z.pos _ + Z.pos _) as [| p | p] eqn:Hsum; [done | | lia].
  apply shape_notNegative, binary_round_shape.
Qed.

(** ** The clamps on values with a known sign *)

Lemma Min_sixty_finite (x : float64) :
  notNegative x -> finiteNotNegative (F64.Min x (F64.of_int 60)).
Proof.
  destruct x as [[] | [] | | [] m e]; cbn [notNegative]; intros Hx; try (destruct Hx; fail).
  1-3: vm_compute; done.
  unfold F64.Min.
  change (F64.IsInf (S754_finite false m e) true || F64.IsInf (F64.of_int 60) true) with false.
  change (F64.IsNaN (S754_finite false m e) || F64.IsNaN (F64.of_int 60)) with false.
  change (F64.eqb (S754_finite false m e) F64.zero) with false. cbn [andb].
  destruct (S754_finite false m e <? F64.of_int 60)%f64; [done |]. vm_compute. done.
Qed.

(** [math.Min(100, s)] of a sum that is not negative is within
    [[0, 100]]. *)
Lemma Min_hundred_range (s : float64) :
  notNegative s -> f64InRange (F64.Min (F64.of_int 100) s).
Proof.
  destruct s as [[] | [] | | [] m e]; cbn [notNegative]; intros Hs; try (destruct Hs; fail).
  1-3: split; vm_compute; done.
  unfold F64.Min.
  change (F64.IsInf (F64.of_int 100) true || F64.IsInf (S754_finite false m e) true) with false.
  change (F64.IsNaN (F64.of_int 100) || F64.IsNaN (S754_finite false m e)) with false.
  change (F64.eqb (F64.of_int 100) F64.zero) with false. cbn [andb].
  destruct (F64.of_int 100 <? S754_finite false m e)%f64 eqn:Hlt; [split; vm_compute; done |].
  split; [done |]. by apply not_ltb_leb.
Qed.

(** ** Rounding does not pass a representable bound *)

Lemma digits2_le (m : positive) (k : Z) : Z.pos m < 2 ^ k -> Z.pos (digits2_pos m) <= k.
Proof.
  intros Hm. pose proof (digits2_bounds m) as [Hlo _].
  destruct (Z.le_gt_cases (Z.pos (digits2_pos m)) k) as [| Hgt]; [done |].
  assert (2 ^ k <= 2 ^ (Z.pos (digits2_pos m) - 1)).
  { apply Z.pow_le_mono_r; lia. }
  lia.
Qed.

Lemma digits2_iter_xO (m d : positive) :
  Z.pos (digits2_pos (Pos.iter xO m d)) = Z.pos (digits2_pos m) + Z.pos d.
Proof.
  induction d as [| d IH] using Pos.peano_ind.
  - cbn [Pos.iter digits2_pos]. lia.
  - rewrite Pos.iter_succ. cbn [digits2_pos]. lia.
Qed.

(** [shl_align] keeps the sum of the digits and the exponent. *)
Lemma shl_align_digits (mx : positive) (ex ex' : Z) :
  Z.pos (digits2_pos (fst (shl_align mx ex ex'))) + snd (shl_align mx ex ex')
  = Z.pos (digits2_pos mx) + ex
  /\ snd (shl_align mx ex ex') <= ex'.
Proof.
  unfold shl_align.
  destruct (ex' - ex) as [| d | d] eqn:Hd; cbn [fst snd]; [lia | lia |].
  rewrite digits2_iter_xO. lia.
Qed.

Lemma shr_1_even (q : Z) :
  0 <= q ->
  shr_1 (Build_shr_record (2 * q) false false) = Build_shr_record q false false.
Proof. destruct q as [| q | q]; [done | done | lia]. Qed.

(** A shift that loses no bit is exact. *)
Lemma iter_shr_1_exact (p : positive) (q : Z) :
  0 <= q ->
  SpecFloat.iter_pos shr_1 p (Build_shr_record (q * 2 ^ Z.pos p) false false)
  = Build_shr_record q false false.
Proof.
  revert q. induction p as [p IH | p IH |]; intros q Hq; cbn [SpecFloat.iter_pos].
  - pose proof (pow2_pos (Z.pos p) ltac:(lia)) as Hp.
    replace (q * 2 ^ Z.pos p~1) with (2 * ((q * 2 ^ Z.pos p) * 2 ^ Z.pos p)).
    2: { replace (Z.pos p~1) with (Z.pos p + Z.pos p + 1) by lia.
         rewrite !Z.pow_add_r, Z.pow_1_r by lia. ring. }
    rewrite shr_1_even by nia. rewrite IH by nia. by rewrite IH.
  - pose proof (pow2_pos (Z.pos p) ltac:(lia)) as Hp.
    replace (q * 2 ^ Z.pos p~0) with ((q * 2 ^ Z.pos p) * 2 ^ Z.pos p).
    2: { replace (Z.pos p~0) with (Z.pos p + Z.pos p) by lia.
         rewrite !Z.pow_add_r by lia. ring. }
    rewrite IH by nia. by rewrite IH.
  - rewrite Z.pow_1_r, Z.mul_comm. by apply shr_1_even.
Qed.

(** The first shift of [binary_round_aux] on an aligned mantissa goes to
    the exponent [fexp] asks for and floors the mantissa; it is exact when
    no bit is lost. *)
Lemma shr_fexp_aligned (mz : positive) (ez : Z) :
  ez <= fexp 53 1024 (Z.pos (digits2_pos mz) + ez) ->
  let r := fst (shr_fexp 53 1024 (Z.pos mz) ez loc_Exact) in
  let e1 := fexp 53 1024 (Z.pos (digits2_pos mz) + ez) in
  snd (shr_fexp 53 1024 (Z.pos mz) ez loc_Exact) = e1
  /\ shr_m r = Z.pos mz / 2 ^ (e1 - ez)
  /\ (Z.pos mz mod 2 ^ (e1 - ez) = 0 -> loc_of_shr_record r = loc_Exact).
Proof.
  intros Hle. unfold shr_fexp, shr. cbn [Zdigits2 shr_record_of_loc].
  destruct (fexp 53 1024 (Z.pos (digits2_pos mz) + ez) - ez) as [| p | p] eqn:Hn;
    cbn [fst snd]; [| | lia].
  - split; [lia |]. split; [| done]. cbn [shr_m]. by rewrite Z.div_1_r.
  - split; [lia |].
    pose proof (pow2_pos (Z.pos p) ltac:(lia)) as Hp.
    split; [by rewrite iter_shr_1_m |].
    intros Hmod.
    rewrite (Z.div_mod (Z.pos mz) (2 ^ Z.pos p)) by lia.
    rewrite Hmod, Z.add_0_r, (Z.mul_comm (2 ^ Z.pos p)).
    rewrite iter_shr_1_exact; [done |]. apply Z.div_pos; lia.
Qed.

Section RoundingBelowABound.
Variable M : positive.
Variable E : Z.
Hypothesis M_normal : 2 ^ 52 <= Z.pos M < 2 ^ 53.
Hypothesis E_range : -1074 <= E <= 971.

Lemma Zdigits2_le (m k : Z) : 0 <= m < 2 ^ k -> 0 <= k -> Zdigits2 m <= k.
Proof.
  intros [Hlo Hhi] Hk. destruct m as [| q | q]; [done | | lia].
  cbn [Zdigits2]. by apply digits2_le.
Qed.

Lemma binary_round_aux_atMost (mz : positive) (ez : Z) :
  -1074 <= ez ->
  ez <= fexp 53 1024 (Z.pos (digits2_pos mz) + ez) ->
  units mz ez <= units M E ->
  atMost M E (binary_round_aux 53 1024 false (Z.pos mz) ez loc_Exact).
Proof.
  intros Hez Hal HV. unfold binary_round_aux.
  pose proof (shr_fexp_aligned mz ez Hal) as H1. cbv zeta in H1.
  destruct (shr_fexp 53 1024 (Z.pos mz) ez loc_Exact) as [r1 e1']. cbn [fst snd] in H1.
  destruct H1 as (-> & Hm1 & Hexact).
  pose proof (digits2_bounds mz) as [Hdlo Hdhi].
  set (d := Z.pos (digits2_pos mz)) in *.
  assert (He1 : fexp 53 1024 (d + ez) = Z.max (d + ez - 53) (-1074)) by reflexivity.
  set (e1 := fexp 53 1024 (d + ez)) in *.
  assert (Hk : 0 <= e1 - ez) by lia.
  pose proof (pow2_pos (e1 - ez) Hk) as Hpk.
  pose proof (pow2_pos (ez + 1074) ltac:(lia)) as Hpa.
  pose proof (pow2_pos (E + 1074) ltac:(lia)) as Hpb.
  set (k := 2 ^ (e1 - ez)) in *.
  set (a := 2 ^ (ez + 1074)) in *.
  set (b := 2 ^ (E + 1074)) in *.
  unfold units in HV. fold a b in HV.
  set (m1 := shr_m r1) in *.
  assert (Hm1lo : m1 * k <= Z.pos mz).
  { rewrite Hm1, Z.mul_comm. apply Z.mul_div_le. lia. }
  assert (Hm1hi : Z.pos mz < (m1 + 1) * k).
  { rewrite Hm1, Z.mul_comm. apply (Z.mul_succ_div_gt (Z.pos mz) k). lia. }
  assert (Hm1nn : 0 <= m1) by (rewrite Hm1; apply Z.div_pos; lia).
  assert (Hm1small : m1 < 2 ^ 53).
  { destruct (Z.le_gt_cases d 53) as [Hd | Hd].
    - assert (2 ^ d <= 2 ^ 53) by (apply Z.pow_le_mono_r; lia). nia.
    - assert (Hkd : 2 ^ (d - 53) <= k) by (apply Z.pow_le_mono_r; lia).
      assert (Hsplit : 2 ^ d = 2 ^ 53 * 2 ^ (d - 53)).
      { rewrite <- Z.pow_add_r by lia. f_equal. lia. }
      pose proof (pow2_pos (d - 53) ltac:(lia)).
      assert (m1 * k < 2 ^ 53 * k); [| nia].
      apply Z.le_lt_trans with (Z.pos mz); [done |].
      apply Z.lt_le_trans with (2 ^ d); [done |]. rewrite Hsplit. nia. }
  pose proof (round_nearest_even_bounds m1 (loc_of_shr_record r1)) as Hm2.
  set (m2 := round_nearest_even m1 (loc_of_shr_record r1)) in *.
  assert (He1E : e1 <= E).
  { destruct (Z.le_gt_cases e1 E) as [| Hgt]; [done | exfalso].
    assert (Hpow : 2 ^ 53 * b <= 2 ^ (d - 1) * a).
    { unfold a, b. rewrite <- !Z.pow_add_r by lia. apply Z.pow_le_mono_r; lia. }
    assert (2 ^ (d - 1) * a <= Z.pos mz * a) by nia.
    assert (Z.pos M * b < 2 ^ 53 * b) by nia.
    lia. }
  assert (Hm2E : e1 = E -> m2 <= Z.pos M).
  { intros HeE.
    assert (Hb : b = k * a).
    { unfold a, b, k. rewrite <- Z.pow_add_r by lia. f_equal. lia. }
    assert (Hle : m1 <= Z.pos M).
    { destruct (Z.le_gt_cases m1 (Z.pos M)) as [| Hgt]; [done | exfalso].
      assert ((Z.pos M + 1) * k <= m1 * k) by nia.
      assert ((Z.pos M + 1) * k * a <= Z.pos mz * a) by nia.
      rewrite Hb in HV. nia. }
    destruct (Z.eq_dec m1 (Z.pos M)) as [Heq | Hne]; [| lia].
    assert (Hmz : Z.pos mz = Z.pos M * k).
    { rewrite Hb in HV. rewrite Heq in Hm1lo.
      assert (Z.pos mz * a <= Z.pos M * k * a) by lia.
      assert (Z.pos mz <= Z.pos M * k) by nia. lia. }
    unfold m2. rewrite Hexact; [cbn [round_nearest_even]; lia |].
    fold k. rewrite Hmz. apply Z.mod_mul. lia. }
  pose proof (shr_fexp_cases m2 e1 loc_Exact ltac:(lia) ltac:(lia)) as H2.
  destruct (shr_fexp 53 1024 m2 e1 loc_Exact) as [r2 e2].
  cbn [fst snd] in H2. destruct H2 as (He2 & Hm3 & _ & Hcase).
  assert (Hfinal : e2 <= E /\ (e2 = E -> shr_m r2 <= Z.pos M)).
  { destruct Hcase as [[-> ->] | (He2' & Hlt & Hdiv)].
    - rewrite shr_m_of_loc. split; [done | exact Hm2E].
    - assert (Hdig : Zdigits2 m2 <= 54).
      { apply Zdigits2_le; [| lia]. change (2 ^ 54) with (2 * 2 ^ 53). lia. }
      assert (He2le : e2 <= e1 + 1).
      { rewrite He2'. unfold fexp, emin. lia. }
      assert (e2 = e1 + 1) by lia.
      destruct (Z.eq_dec e1 E) as [HeE | HneE].
      + exfalso. specialize (Hm2E HeE).
        assert (Zdigits2 m2 <= 53) by (apply Zdigits2_le; lia).
        rewrite He2' in Hlt. unfold fexp, emin in Hlt. lia.
      + split; [lia |]. intros _. rewrite Hdiv.
        replace (e2 - e1) with 1 by lia. rewrite Z.pow_1_r.
        assert (m2 / 2 <= 2 ^ 52); [| lia].
        apply Z.div_le_upper_bound; [lia |]. change (2 * 2 ^ 52) with (2 ^ 53). lia. }
  destruct Hfinal as [He2E Hm3E].
  destruct (shr_m r2) as [| m3 | m3]; [done | | lia].
  replace (e2 <=? 1024 - 53) with true by (symmetry; apply Z.leb_le; lia).
  cbn [atMost]. split; [done |].
  destruct (Z.eq_dec e2 E) as [Heq | Hne]; [right | left; lia].
  split; [done |]. by apply Hm3E.
Qed.

Lemma binary_round_atMost (mx : positive) (ex : Z) :
  -1074 <= ex -> units mx ex <= units M E ->
  atMost M E (binary_round 53 1024 false mx ex).
Proof.
  intros Hex HV. unfold binary_round.
  pose proof (shl_align_units mx ex (fexp 53 1024 (Z.pos (digits2_pos mx) + ex)) Hex
                (fexp_ge _)) as (He & _ & _ & Hu).
  pose proof (shl_align_digits mx ex (fexp 53 1024 (Z.pos (digits2_pos mx) + ex)))
    as [Hd Hle].
  destruct (shl_align mx ex _) as [mz ez]. cbn [fst snd] in *.
  apply binary_round_aux_atMost; [done | by rewrite Hd | by rewrite Hu].
Qed.

(** What [atMost] says in terms of the comparisons. *)
Lemma atMost_not_above (r : float64) :
  atMost M E r -> (S754_finite false M E <? r)%f64 = false.
Proof.
  destruct r as [s | [] | | [] m e]; try done. intros [He Hle].
  unfold F64.ltb, SFltb, SFcompare.
  destruct (Z.compare_spec E e) as [Heq | Hlt | Hgt]; [| lia | done].
  destruct Hle as [| [_ Hm]]; [lia |].
  change (Pos.compare_cont Eq M m) with (M ?= m)%positive.
  destruct (Pos.compare_spec M m); [done | lia | done].
Qed.

(** A valid binary64 value that compares at most the bound has at most
    its units. *)
Lemma leb_units (m : positive) (e : Z) :
  valid_binary 53 1024 (S754_finite false m e) = true ->
  (S754_finite false m e <=? S754_finite false M E)%f64 = true ->
  -1074 <= e /\ units m e <= units M E.
Proof.
  cbn [valid_binary]. unfold bounded, canonical_mantissa.
  intros [Hcan _]%andb_true_iff. apply Z.eqb_eq in Hcan.
  unfold fexp, emin in Hcan.
  pose proof (digits2_bounds m) as [_ Hhi].
  assert (Hd : Z.pos (digits2_pos m) <= 53) by lia.
  assert (Hm : Z.pos m < 2 ^ 53).
  { apply Z.lt_le_trans with (2 ^ Z.pos (digits2_pos m)); [done |].
    apply Z.pow_le_mono_r; lia. }
  unfold F64.leb, SFleb, SFcompare. intros Hleb.
  split; [lia |]. unfold units.
  pose proof (pow2_pos (e + 1074) ltac:(lia)) as Hpa.
  destruct (Z.compare_spec e E) as [-> | Hlt | Hgt]; [| | done].
  - change (Pos.compare_cont Eq m M) with (m ?= M)%positive in Hleb.
    destruct (Pos.compare_spec m M); [nia | nia | done].
  - assert (Hpow : 2 * 2 ^ (e + 1074) <= 2 ^ (E + 1074)).
    { change 2 with (2 ^ 1) at 1. rewrite <- Z.pow_add_r by lia.
      apply Z.pow_le_mono_r; lia. }
    change (2 ^ 53) with (2 * 2 ^ 52) in Hm. nia.
Qed.

End RoundingBelowABound.

(** ** Differences and products of values of known sign *)

Section DifferenceBelowABound.
Variable M : positive.
Variable E : Z.
Hypothesis M_normal : 2 ^ 52 <= Z.pos M < 2 ^ 53.
Hypothesis E_range : -1074 <= E <= 971.

Lemma leb_atMost (x : float64) :
  valid_binary 53 1024 x = true ->
  (F64.zero <=? x)%f64 = true -> (x <=? S754_finite false M E)%f64 = true ->
  atMost M E x /\ finiteNotNegative x.
Proof.
  destruct x as [s | [] | | [] m e]; try done. intros Hvalid _ Hle.
  pose proof (leb_units M E M_normal E_range m e Hvalid Hle) as [He _].
  split; [| done]. split; [done |].
  unfold F64.leb, SFleb, SFcompare in Hle.
  destruct (Z.compare_spec e E) as [-> | Hlt | Hgt]; [| by left | done].
  right. split; [done |].
  change (Pos.compare_cont Eq m M) with (m ?= M)%positive in Hle.
  destruct (Pos.compare_spec m M); [lia | lia | done].
Qed.

(** Taking a value that is not negative off a value within the bound
    leaves a value within the bound. *)
Lemma sub_atMost (x y : float64) :
  valid_binary 53 1024 x = true ->
  (F64.zero <=? x)%f64 = true -> (x <=? S754_finite false M E)%f64 = true ->
  finiteNotNegative y ->
  atMost M E (x - y)%f64.
Proof.
  intros Hvalid H0 Hle Hy.
  pose proof (leb_atMost x Hvalid H0 Hle) as [Hx _].
  destruct x as [sx | [] | | [] mx ex], y as [sy | [] | | [] my ey]; try done.
  - by destruct sx, sy.
  - pose proof (leb_units M E M_normal E_range mx ex Hvalid Hle) as [Hex HV].
    cbn [finiteNotNegative] in Hy.
    unfold F64.sub, SFsub. cbn [cond_Zopp]. cbv zeta.
    set (ez := Z.min ex ey).
    pose proof (shl_align_units mx ex ez Hex ltac:(lia)) as (_ & _ & Hsx & Hux).
    pose proof (shl_align_units my ey ez Hy ltac:(lia)) as (_ & _ & Hsy & Huy).
    specialize (Hsx ltac:(lia)). specialize (Hsy ltac:(lia)).
    rewrite Hsx in Hux. rewrite Hsy in Huy.
    set (X := fst (shl_align mx ex ez)) in *.
    set (Y := fst (shl_align my ey ez)) in *.
    unfold binary_normalize.
    destruct (Z.pos X - Z.pos Y) as [| p | p] eqn:Hd; [done | |].
    + apply (binary_round_atMost M E M_normal E_range); [lia |].
      apply Z.le_trans with (units mx ex); [| done].
      rewrite <- Hux. unfold units.
      pose proof (pow2_pos (ez + 1074) ltac:(lia)). nia.
    + pose proof (binary_round_shape true p ez) as Hshape.
      change (binary_round F64.prec F64.emax true p ez) with (binary_round 53 1024 true p ez).
      destruct (binary_round 53 1024 true p ez) as [s | s | | s m e];
        cbn [atMost]; [done | by rewrite Hshape | done | by rewrite (proj1 Hshape)].
Qed.

(** The difference of the bound and a valid value within it is a zero or
    a positive finite value. *)
Lemma bound_sub_finite (y : float64) :
  valid_binary 53 1024 y = true ->
  (F64.zero <=? y)%f64 = true -> (y <=? S754_finite false M E)%f64 = true ->
  E <= -43 ->
  finiteNotNegative (S754_finite false M E - y)%f64.
Proof.
  intros Hvalid H0 Hle Hsmall.
  destruct y as [sy | [] | | [] my ey]; try done.
  - unfold F64.sub, SFsub. cbn [finiteNotNegative]. lia.
  - pose proof (leb_units M E M_normal E_range my ey Hvalid Hle) as [Hey HV].
    unfold F64.sub, SFsub. cbn [cond_Zopp]. cbv zeta.
    set (ez := Z.min E ey).
    pose proof (shl_align_units M E ez ltac:(lia) ltac:(lia)) as (_ & _ & Hsx & Hux).
    pose proof (shl_align_units my ey ez Hey ltac:(lia)) as (_ & _ & Hsy & Huy).
    specialize (Hsx ltac:(lia)). specialize (Hsy ltac:(lia)).
    rewrite Hsx in Hux. rewrite Hsy in Huy.
    set (X := fst (shl_align M E ez)) in *.
    set (Y := fst (shl_align my ey ez)) in *.
    pose proof (pow2_pos (ez + 1074) ltac:(lia)) as Hpz.
    assert (HYX : Z.pos Y <= Z.pos X).
    { unfold units in Hux, Huy, HV. rewrite <- Hux, <- Huy in HV. nia. }
    unfold binary_normalize.
    destruct (Z.pos X - Z.pos Y) as [| p | p] eqn:Hd; [done | | lia].
    assert (Hp : units p ez <= units M E).
    { rewrite <- Hux. unfold units. nia. }
    assert (HU : units M E < 2 ^ 1084).
    { unfold units.
      assert (2 ^ (E + 1074) <= 2 ^ 1031) by (apply Z.pow_le_mono_r; lia).
      change (2 ^ 1084) with (2 ^ 53 * 2 ^ 1031).
      pose proof (pow2_pos (E + 1074) ltac:(lia)). nia. }
    pose proof (binary_round_bound p ez ltac:(lia) ltac:(lia)) as Hb.
    change (binary_round F64.prec F64.emax false p ez) with (binary_round 53 1024 false p ez).
    destruct (binary_round 53 1024 false p ez) as [[] | | | [] m e]; try done.
    by destruct Hb.
Qed.

End DifferenceBelowABound.

(** The product of two values bounded in units of [2^-60] is finite. *)
Lemma mul_bounded60 (P1 P2 : Z) (x y : float64) :
  bounded_by60 P1 x = true -> bounded_by60 P2 y = true ->
  P1 * P2 * 2 ^ 954 < 2 ^ 1084 ->
  finiteNotNegative (x * y)%f64.
Proof.
  destruct x as [[] | | | [] mx ex], y as [[] | | | [] my ey]; try done.
  cbn [bounded_by60]. rewrite !andb_true_iff, !Z.leb_le.
  intros [Hex Hx] [Hey Hy] Hsmall.
  unfold F64.mul, SFmul. cbn [xorb].
  assert (HU : units (mx * my) (ex + ey) <= P1 * P2 * 2 ^ 954).
  { unfold units. rewrite Pos2Z.inj_mul.
    replace (ex + ey + 1074) with ((ex + 60) + (ey + 60) + 954) by lia.
    rewrite !Z.pow_add_r by lia.
    pose proof (pow2_pos (ex + 60) ltac:(lia)). pose proof (pow2_pos (ey + 60) ltac:(lia)).
    assert (Z.pos mx * 2 ^ (ex + 60) * (Z.pos my * 2 ^ (ey + 60)) <= P1 * P2) by nia.
    nia. }
  pose proof (binary_round_aux_bound (mx * my) (ex + ey) ltac:(lia) ltac:(lia)) as Hb.
  change (binary_round_aux F64.prec F64.emax false (Z.pos (mx * my)) (ex + ey) loc_Exact)
    with (binary_round_aux 53 1024 false (Z.pos (mx * my)) (ex + ey) loc_Exact).
  destruct (binary_round_aux 53 1024 false (Z.pos (mx * my)) (ex + ey) loc_Exact)
    as [[] | | | [] m e]; try done.
  by destruct Hb.
Qed.

(** ** The clamp of the match fitness *)

Lemma of_int_100 : F64.of_int 100 = S754_finite false 7036874417766400 (-46).
Proof. vm_compute. reflexivity. Qed.

Lemma of_int_2 : F64.of_int 2 = S754_finite false 4503599627370496 (-51).
Proof. vm_compute. reflexivity. Qed.

(** [math.Max(0, r)] of a value that is at most 100 is within
    [[0, 100]]. *)
Lemma Max_zero_range (r : float64) :
  atMost 7036874417766400 (-46) r -> f64InRange (F64.Max F64.zero r).
Proof.
  intros Hr. pose proof (atMost_not_above _ _ r Hr) as Hnot.
  destruct r as [[] | [] | | [] m e]; cbn [atMost] in Hr; try (destruct Hr; fail).
  1-3: split; vm_compute; done.
  - unfold F64.Max.
    change (F64.IsInf F64.zero false || F64.IsInf (S754_finite true m e) false) with false.
    change (F64.IsNaN F64.zero || F64.IsNaN (S754_finite true m e)) with false.
    change (F64.eqb F64.zero (S754_finite true m e)) with false.
    rewrite andb_false_r.
    change (S754_finite true m e <? F64.zero)%f64 with true. cbv iota.
    split; vm_compute; done.
  - unfold F64.Max.
    change (F64.IsInf F64.zero false || F64.IsInf (S754_finite false m e) false) with false.
    change (F64.IsNaN F64.zero || F64.IsNaN (S754_finite false m e)) with false.
    change (F64.eqb F64.zero (S754_finite false m e)) with false.
    rewrite andb_false_r.
    change (S754_finite false m e <? F64.zero)%f64 with false. cbv iota.
    split; [done |]. rewrite of_int_100. by apply not_ltb_leb.
Qed.

(** ** The factors of the fitness engine *)

Lemma staminaMod_positive (v : Z) :
  inRange v -> positiveFinite (F64.lit 15 10 - F64.of_int v / F64.of_int 100)%f64.
Proof.
  intros Hv. apply positiveFiniteb_true.
  apply (forallb_zrange
           (fun v => positiveFiniteb (F64.lit 15 10 - F64.of_int v / F64.of_int 100)%f64)
           0 101); [vm_compute; reflexivity | unfold inRange in Hv; lia].
Qed.

Lemma matchAgeFactor_positive (k : Z) :
  1 <= k <= 45 -> positiveFinite (F64.of_int 1 + F64.of_int k * F64.lit 5 100)%f64.
Proof.
  intros Hk. apply positiveFiniteb_true.
  apply (forallb_zrange
           (fun k => positiveFiniteb (F64.of_int 1 + F64.of_int k * F64.lit 5 100)%f64)
           1 45); [vm_compute; reflexivity | lia].
Qed.

Lemma professionalism_positive (v : Z) :
  inRange v -> positiveFinite (F64.of_int 1 + F64.of_int v / F64.of_int 200)%f64.
Proof.
  intros Hv. apply positiveFiniteb_true.
  apply (forallb_zrange
           (fun v => positiveFiniteb (F64.of_int 1 + F64.of_int v / F64.of_int 200)%f64)
           0 101); [vm_compute; reflexivity | unfold inRange in Hv; lia].
Qed.

Lemma recoveryBase_bounded (v : Z) :
  inRange v ->
  bounded_by60 (16 * 2 ^ 60) (F64.of_int 10 + F64.of_int v / F64.of_int 20)%f64 = true.
Proof.
  intros Hv.
  apply (forallb_zrange
           (fun v => bounded_by60 (16 * 2 ^ 60)
                       (F64.of_int 10 + F64.of_int v / F64.of_int 20)%f64)
           0 101); [vm_compute; reflexivity | unfold inRange in Hv; lia].
Qed.

(** The age factor of the recovery is positive up to the age of 74 and 0
    at 75. *)
Lemma recoveryAgeFactor_bounded (k : Z) :
  1 <= k <= 45 ->
  bounded_by60 (2 ^ 60) (F64.lit 9 10 - F64.of_int k * F64.lit 2 100)%f64 = true.
Proof.
  intros Hk.
  apply (forallb_zrange
           (fun k => bounded_by60 (2 ^ 60) (F64.lit 9 10 - F64.of_int k * F64.lit 2 100)%f64)
           1 45); [vm_compute; reflexivity | lia].
Qed.

Lemma bounded_by60_finite (P : Z) (x : float64) :
  bounded_by60 P x = true -> finiteNotNegative x.
Proof.
  destruct x as [[] | | | [] m e]; try done. cbn.
  rewrite andb_true_iff, Z.leb_le. lia.
Qed.

(** ** The fitness engine on ordinary inputs *)

(** The fatigue of a match is a zero or a positive finite value, for a
    positive finite intensity, a player of at most 75 and Stamina within
    [[0, 100]]. *)
Lemma CalculateMatchFatigue_finite (now : Time) (p : Player) (minutesPlayed : Z)
    (intensity : float64) :
  inRange (Stamina (PlayerAttributes p)) -> Age now p <= 75 ->
  0 <= minutesPlayed -> positiveFinite intensity ->
  finiteNotNegative (CalculateMatchFatigue NewFitnessManager now p minutesPlayed intensity).
Proof.
  intros Hst Hage Hmin Hint. unfold CalculateMatchFatigue.
  destruct (minutesPlayed =? 0); [done |].
  cbv zeta. cbn [fatigueRate NewFitnessManager].
  apply Min_sixty_finite.
  assert (H1 : notNegative (F64.of_int minutesPlayed * F64.lit 15 100 * intensity
                            * (F64.lit 15 10
                               - F64.of_int (Stamina (PlayerAttributes p)) / F64.of_int 100))%f64).
  { apply mul_notNegative; [| by apply staminaMod_positive].
    apply mul_notNegative; [| done].
    apply mul_notNegative; [by apply of_int_notNegative |].
    apply positiveFiniteb_true. vm_compute. reflexivity. }
  set (fatigue := (_ * _ * _ * _)%f64) in *.
  assert (H2 : notNegative
                 (if 30 <? Age now p
                  then (fatigue * (F64.of_int 1
                                   + F64.of_int (Int.sub (Age now p) 30) * F64.lit 5 100))%f64
                  else fatigue)).
  { destruct (Z.ltb_spec 30 (Age now p)) as [Hold |]; [| done].
    apply mul_notNegative; [done |].
    rewrite Int.sub_small by (unfold Int.min_int, Int.max_int; lia).
    apply matchAgeFactor_positive. lia. }
  set (aged := if 30 <? Age now p then _ else fatigue) in *.
  repeat match goal with
         | |- context [String.eqb ?a ?b] =>
             destruct (String.eqb a b);
             [apply mul_notNegative; [done | apply positiveFiniteb_true; vm_compute; reflexivity] |]
         end.
  done.
Qed.

(** The recovery of a day is not negative, for a training intensity
    within [[0, 2]], a player of at most 75 and Stamina and
    Professionalism within [[0, 100]]. *)
Lemma CalculateDailyRecovery_notNegative (now : Time) (p : Player)
    (trainingIntensity : float64) :
  inRange (Stamina (PlayerAttributes p)) ->
  inRange (Professionalism (PlayerAttributes p)) ->
  Age now p <= 75 ->
  valid_binary 53 1024 trainingIntensity = true ->
  (F64.zero <=? trainingIntensity)%f64 = true ->
  (trainingIntensity <=? F64.of_int 2)%f64 = true ->
  notNegative (CalculateDailyRecovery NewFitnessManager now p trainingIntensity).
Proof.
  intros Hst Hprof Hage Hvalid H0 H2. unfold CalculateDailyRecovery.
  cbv zeta. cbn [recoveryRate NewFitnessManager].
  apply mul_notNegative; [| by apply professionalism_positive].
  apply mul_finiteNotNegative.
  - pose proof (recoveryBase_bounded _ Hst) as Hbase.
    set (base := (F64.of_int 10 + _ / _)%f64) in *.
    destruct (Age now p <? 23).
    { apply (mul_bounded60 (16 * 2 ^ 60) (2 * 2 ^ 60)); [done | by vm_compute | by vm_compute]. }
    destruct (Z.ltb_spec 30 (Age now p)) as [Hold |]; [| by eapply bounded_by60_finite].
    apply (mul_bounded60 (16 * 2 ^ 60) (2 ^ 60)); [done | | by vm_compute].
    rewrite Int.sub_small by (unfold Int.min_int, Int.max_int; lia).
    apply recoveryAgeFactor_bounded. lia.
  - rewrite of_int_2 in *.
    apply bound_sub_finite; [by vm_compute | lia | done | done | done | lia].
Qed.

(** After a match at a positive finite intensity, the Fitness of a
    player within range, of at most 75, is within [[0, 100]]. *)
Lemma ApplyMatchFitness_in_range (now : Time) (p : Player) (minutesPlayed : Z)
    (intensity : float64) :
  PlayerInRange p -> valid_binary 53 1024 (Fitness p) = true -> Age now p <= 75 ->
  0 <= minutesPlayed -> positiveFinite intensity ->
  PlayerInRange (ApplyMatchFitness NewFitnessManager now p minutesPlayed intensity).
Proof.
  intros ([Hf0 Hf100] & Hm & Ho & Ha) Hvalid Hage Hmin Hint.
  unfold ApplyMatchFitness. split; [| done].
  cbn [Fitness set_Fitness].
  apply Max_zero_range. rewrite of_int_100 in Hf100.
  apply sub_atMost; [by vm_compute | lia | done | done | done |].
  apply CalculateMatchFatigue_finite; [apply Ha | done..].
Qed.

(** After a day of recovery at a training intensity within [[0, 2]], the
    Fitness of a player within range, of at most 75, is within
    [[0, 100]]. *)
Lemma ApplyDailyRecovery_in_range (now : Time) (p : Player) (trainingIntensity : float64) :
  PlayerInRange p -> valid_binary 53 1024 (Fitness p) = true -> Age now p <= 75 ->
  valid_binary 53 1024 trainingIntensity = true ->
  (F64.zero <=? trainingIntensity)%f64 = true ->
  (trainingIntensity <=? F64.of_int 2)%f64 = true ->
  PlayerInRange (ApplyDailyRecovery NewFitnessManager now p trainingIntensity).
Proof.
  intros ([Hf0 Hf100] & Hm & Ho & Ha) Hvalid Hage Hvi H0 H2.
  unfold ApplyDailyRecovery. split; [| done].
  cbn [Fitness set_Fitness].
  apply Min_hundred_range. apply add_notNegative.
  - apply finiteNotNegative_notNegative. rewrite of_int_100 in Hf100.
    apply (leb_atMost 7036874417766400 (-46)); [by vm_compute | lia | done..].
  - apply CalculateDailyRecovery_notNegative; [apply Ha | apply Ha | done..].
Qed.

(** ** The range invariant *)

(** X31: what the engines keep of the range invariant.  For every player
    whose Fitness, Morale, Form and fifteen attributes are within
    [[0, 100]], [ProcessTraining] (any training type and intensity) and
    [ProcessNaturalDevelopment] leave Fitness, Morale and Form as they are
    and every attribute within [[0, 100]]; in particular the unclamped
    Keeping increment of a goalkeeper's set-pieces training does not pass
    100.  [ApplyMatchFitness] and [ApplyDailyRecovery] leave the
    attributes, Morale and Form as they are; after [ApplyMatchFitness]
    Fitness is not below 0, and after [ApplyDailyRecovery] it is not above
    100, whatever the arguments.  On ordinary arguments the other side
    holds as well: when Fitness is a valid binary64 value and the player
    is at most 75 years old, a match of no negative length at a positive
    finite intensity, and a recovery at a training intensity within
    [[0, 2]], leave Fitness within [[0, 100]]. *)
Theorem mutations_keep_ranges {RS : RandSource} (p : Player) :
  PlayerInRange p ->
  (forall dm now trainingType intensity,
     let p' := snd (fst (ProcessTraining dm now p trainingType intensity)) in
     PlayerInRange p'
     /\ Fitness p' = Fitness p /\ Morale p' = Morale p /\ Form p' = Form p)
  /\ (forall dm now,
        let p' := fst (ProcessNaturalDevelopment dm now p) in
        PlayerInRange p'
        /\ Fitness p' = Fitness p /\ Morale p' = Morale p /\ Form p' = Form p)
  /\ (forall fm now minutesPlayed intensity,
        let p' := ApplyMatchFitness fm now p minutesPlayed intensity in
        PlayerAttributes p' = PlayerAttributes p
        /\ Morale p' = Morale p /\ Form p' = Form p
        /\ (Fitness p' <? F64.zero)%f64 = false)
  /\ (forall fm now trainingIntensity,
        let p' := ApplyDailyRecovery fm now p trainingIntensity in
        PlayerAttributes p' = PlayerAttributes p
        /\ Morale p' = Morale p /\ Form p' = Form p
        /\ (F64.of_int 100 <? Fitness p')%f64 = false)
  /\ (valid_binary 53 1024 (Fitness p) = true ->
      forall now, Age now p <= 75 ->
        (forall minutesPlayed intensity,
           0 <= minutesPlayed -> positiveFinite intensity ->
           PlayerInRange (ApplyMatchFitness NewFitnessManager now p minutesPlayed intensity))
        /\ (forall trainingIntensity,
              valid_binary 53 1024 trainingIntensity = true ->
              (F64.zero <=? trainingIntensity)%f64 = true ->
              (trainingIntensity <=? F64.of_int 2)%f64 = true ->
              PlayerInRange (ApplyDailyRecovery NewFitnessManager now p trainingIntensity))).
Proof.
  intros Hp. pose proof Hp as (_ & _ & _ & Ha).
  split; [| split; [| split; [| split]]].
  - intros dm now trainingType intensity p'.
    pose proof (ProcessTraining_kept dm now p trainingType intensity Ha) as Hk.
    fold p' in Hk. split; [by eapply PlayerInRange_kept | apply Hk].
  - intros dm now p'.
    pose proof (ProcessNaturalDevelopment_kept dm now p Ha) as Hk.
    fold p' in Hk. split; [by eapply PlayerInRange_kept | apply Hk].
  - intros fm now minutesPlayed intensity p'. subst p'.
    unfold ApplyMatchFitness. cbn [PlayerAttributes Morale Form Fitness set_Fitness].
    repeat split. apply Max_zero_not_below.
  - intros fm now trainingIntensity p'. subst p'.
    unfold ApplyDailyRecovery. cbn [PlayerAttributes Morale Form Fitness set_Fitness].
    repeat split. apply Min_hundred_not_above.
  - intros Hvalid now Hage. split.
    + intros minutesPlayed intensity Hminutes Hintensity.
      by apply ApplyMatchFitness_in_range.
    + intros trainingIntensity Hvi H0 H2.
      by apply ApplyDailyRecovery_in_range.
Qed.

Lemma goalkeeper_in_range : PlayerInRange goalkeeper.
Proof.
  repeat split; try reflexivity; vm_compute; discriminate.
Qed.

(** A set-pieces session that raises the Keeping of a goalkeeper, and a
    match and a day of recovery of the goalkeeper at the age of 25. *)
Lemma mutations_keep_ranges_witness :
  PlayerInRange goalkeeper
  /\ Keeping (PlayerAttributes goalkeeper) = 70
  /\ Keeping (PlayerAttributes
                (snd (fst (ProcessTraining (lcgManager 0) day200of2025 goalkeeper
                             TrainingSetPieces (F64.lit 5 10))))) = 71
  /\ PlayerInRange
       (snd (fst (ProcessTraining (lcgManager 0) day200of2025 goalkeeper
                    TrainingSetPieces (F64.lit 5 10))))
  /\ PlayerInRange (ApplyMatchFitness NewFitnessManager day200of2025 goalkeeper 90
                      (F64.of_int 1))
  /\ PlayerInRange (ApplyDailyRecovery NewFitnessManager day200of2025 goalkeeper
                      (F64.lit 5 10)).
Proof.
  pose proof (mutations_keep_ranges (RS := lcgRand) goalkeeper goalkeeper_in_range)
    as (Htraining & _ & _ & _ & Hfitness).
  destruct (Hfitness eq_refl day200of2025 ltac:(vm_compute; discriminate))
    as [Hmatch Hrecovery].
  split; [exact goalkeeper_in_range |].
  split; [reflexivity |]. split; [vm_compute; reflexivity |].
  split; [exact (proj1 (Htraining (lcgManager 0) day200of2025 TrainingSetPieces
                          (F64.lit 5 10))) |].
  split.
  - apply Hmatch; [lia |]. apply positiveFiniteb_true. vm_compute. reflexivity.
  - apply Hrecovery; vm_compute; reflexivity.
Defined.
